(** * TesseractIRC: chat state store, session registry and sync scheduler

    A shallow embedding of the backend of the client
    ([irc_client/backend/models.py], [irc_client.py], [app_controller.py],
    [database.py]) and the properties of its specification.

    Conventions of the embedding.
    - Python objects that are mutated in place become records that the
      operations take and return.
    - [datetime.datetime.now()] and [time.time()] are readings of a clock
      the program does not control; an operation receives them as
      arguments, in microseconds (a [Z]). [ChatModel.add_message] keeps
      its two readings apart; an operation of the chat list or of the
      controller runs within one reading [now] of the wall clock.
    - Calls into the protocol library and the socket layer
      ([connection.privmsg], [connection.disconnect], [select.select],
      [connection.process_data]) receive their outcome as an argument.
    - Signals are returned as the list of emissions of the call, in order.
      The view-refresh signals of [QAbstractListModel] (row insertion and
      removal, [dataChanged]) and [ChatModel.messagesChanged] carry no
      state and are left out; every signal declared by [ChatListModel],
      [IRCClient] and [AppController] is kept. *)

From Stdlib Require Import ZArith String List Bool Lia.
From stdpp Require Import base option list strings gmap.

Open Scope Z_scope.

(** Python truthiness of a [str]. *)
Definition truthy (s : string) : bool := negb (s =? "")%string.

(** [a != b] where [a] is an [Optional[str]] attribute and [b] a [str]. *)
Definition opt_str_ne (a : option string) (b : string) : bool :=
  match a with
  | Some a' => negb (a' =? b)%string
  | None => true
  end.

(** [strftime("%H:%M")] of a clock reading in microseconds. *)
Definition digit (d : Z) : string :=
  String (Ascii.ascii_of_nat (48 + Z.to_nat d)) EmptyString.

Definition two_digits (n : Z) : string := digit (n / 10) +:+ digit (n mod 10).

Definition strftime_HM (t : Z) : string :=
  two_digits ((t / 3600000000) mod 24) +:+ ":" +:+ two_digits ((t / 60000000) mod 60).

(** ** Signals *)

Inductive Signal :=
  (* ChatListModel *)
  | activeChannelChanged (server channel : string)
  (* IRCClient *)
  | message_received (server channel sender text : string)
  | server_connected (server : string)
  | server_disconnected (server : string)
  | channel_joined (server channel : string)
  | channel_left (server channel : string)
  (* AppController *)
  | errorOccurred (text : string)
  | connectionStatusChanged (server : string) (status : bool)
  | channelJoined (server channel : string)
  | messagesUpdated (server channel : string).

(** ** models.py *)

Module models.

Record Message := {
  sender : string;
  content : string;
  timestamp : Z;
  is_system : bool }.

Record ChatModel := {
  _messages : list Message;
  _own_nickname : string;
  _last_update_timestamp : Z }.

(** [ChatModel(own_nickname)], constructed at clock reading [now]. *)
Definition new_ChatModel (own_nickname : string) (now : Z) : ChatModel :=
  {| _messages := []; _own_nickname := own_nickname; _last_update_timestamp := now |}.

(** [add_message]: the message takes its timestamp from the reading
    [t_msg] made by the [Message] constructor, the model is stamped with
    the later reading [t_upd]. Returns the row of the new message. *)
Definition add_message (sender content : string) (is_system : bool)
    (t_msg t_upd : Z) (m : ChatModel) : nat * ChatModel :=
  let msgs := _messages m ++ [{| sender := sender; content := content;
                                 timestamp := t_msg; is_system := is_system |}] in
  ((length msgs - 1)%nat,
   {| _messages := msgs;
      _own_nickname := _own_nickname m;
      _last_update_timestamp := t_upd |}).

Definition add_system_message (content : string) (t_msg t_upd : Z) (m : ChatModel)
    : nat * ChatModel :=
  add_message "System" content true t_msg t_upd m.

Definition set_own_nickname (nickname : string) (m : ChatModel) : ChatModel :=
  if negb (_own_nickname m =? nickname)%string then
    {| _messages := _messages m;
       _own_nickname := nickname;
       _last_update_timestamp := _last_update_timestamp m |}
  else m.

Definition clear (now : Z) (m : ChatModel) : ChatModel :=
  {| _messages := []; _own_nickname := _own_nickname m; _last_update_timestamp := now |}.

Definition force_data_changed (now : Z) (m : ChatModel) : ChatModel :=
  match _messages m with
  | [] => m
  | _ :: _ =>
      {| _messages := _messages m;
         _own_nickname := _own_nickname m;
         _last_update_timestamp := now |}
  end.

(** [max(msgs, key=lambda m: m.timestamp)] on a non-empty list [m0 :: rest]:
    the first message among those with the greatest timestamp. *)
Definition newest (m0 : Message) (rest : list Message) : Message :=
  fold_left (fun best x => if timestamp best <? timestamp x then x else best) rest m0.

Definition update_messages_if_needed (m : ChatModel) : bool * ChatModel :=
  match _messages m with
  | [] => (false, m)
  | m0 :: rest =>
      let newest_message := newest m0 rest in
      if _last_update_timestamp m <? timestamp newest_message then
        (true, {| _messages := _messages m;
                  _own_nickname := _own_nickname m;
                  _last_update_timestamp := timestamp newest_message |})
      else (false, m)
  end.

(** One row of the chat list (a dict in the source). *)
Record Chat := {
  name : string;
  server : string;
  is_private : bool;
  unread_count : nat;
  last_message : string;
  last_message_time : string }.

Record ChatListModel := {
  _chats : list Chat;
  _active_server : option string;
  _active_channel : option string;
  _chat_models : gmap string (gmap string ChatModel) }.

Definition new_ChatListModel : ChatListModel :=
  {| _chats := []; _active_server := None; _active_channel := None; _chat_models := ∅ |}.

Definition set_chats (l : list Chat) (st : ChatListModel) : ChatListModel :=
  {| _chats := l;
     _active_server := _active_server st;
     _active_channel := _active_channel st;
     _chat_models := _chat_models st |}.

Definition set_chat_models (cm : gmap string (gmap string ChatModel)) (st : ChatListModel)
    : ChatListModel :=
  {| _chats := _chats st;
     _active_server := _active_server st;
     _active_channel := _active_channel st;
     _chat_models := cm |}.

Definition set_active (s c : option string) (st : ChatListModel) : ChatListModel :=
  {| _chats := _chats st;
     _active_server := s;
     _active_channel := c;
     _chat_models := _chat_models st |}.

(** [chat["server"] == server and chat["name"] == channel] *)
Definition is_chat (server' channel : string) (chat : Chat) : bool :=
  (server chat =? server')%string && (name chat =? channel)%string.

(** [for chat in self._chats: if <is_chat>: ... break]: does a row match? *)
Definition chat_exists (server channel : string) (st : ChatListModel) : bool :=
  existsb (is_chat server channel) (_chats st).

(** [for i, chat in enumerate(self._chats): if p(chat): <mutate chat>; break] *)
Fixpoint update_first (p : Chat -> bool) (f : Chat -> Chat) (l : list Chat) : list Chat :=
  match l with
  | [] => []
  | chat :: l' => if p chat then f chat :: l' else chat :: update_first p f l'
  end.

Definition new_chat (name' server' : string) (is_private' : bool) : Chat :=
  {| name := name'; server := server'; is_private := is_private';
     unread_count := 0; last_message := ""; last_message_time := "" |}.

(** [if server not in self._chat_models: self._chat_models[server] = {}] *)
Definition ensure_server (server : string) (cm : gmap string (gmap string ChatModel))
    : gmap string (gmap string ChatModel) :=
  match cm !! server with
  | Some _ => cm
  | None => <[server := ∅]> cm
  end.

(** [self._chat_models[server][channel] = model]; only used where the
    inner dict exists. *)
Definition put_model (server channel : string) (model : ChatModel)
    (cm : gmap string (gmap string ChatModel)) : gmap string (gmap string ChatModel) :=
  <[server := <[channel := model]> (default ∅ (cm !! server))]> cm.

(** [self._chat_models[server][channel]] when both keys are present. *)
Definition model_of (server channel : string) (cm : gmap string (gmap string ChatModel))
    : option ChatModel :=
  cm !! server ≫= (.!! channel).

(** The two guarded assignments
    [if server not in ...: ... = {}] and
    [if channel not in ...[server]: ...[server][channel] = ChatModel()]. *)
Definition ensure_model (server channel : string) (now : Z)
    (cm : gmap string (gmap string ChatModel)) : gmap string (gmap string ChatModel) :=
  let cm1 := ensure_server server cm in
  match model_of server channel cm1 with
  | Some _ => cm1
  | None => put_model server channel (new_ChatModel "" now) cm1
  end.

Definition add_server (server : string) (st : ChatListModel) : bool * ChatListModel :=
  if chat_exists server server st then (false, st)
  else
    (true,
     set_chat_models (ensure_server server (_chat_models st))
       (set_chats (_chats st ++ [new_chat server server false]) st)).

Definition add_channel (server channel : string) (is_private : bool) (now : Z)
    (st : ChatListModel) : bool * ChatListModel :=
  if chat_exists server channel st then
    (true, set_chat_models (ensure_model server channel now (_chat_models st)) st)
  else
    let st1 := if chat_exists server server st then st else snd (add_server server st) in
    let st2 := set_chats (_chats st1 ++ [new_chat channel server is_private]) st1 in
    (true,
     set_chat_models
       (put_model server channel (new_ChatModel "" now)
          (ensure_server server (_chat_models st2))) st2).

(** [del self._chats[i]] *)
Definition del_index (i : nat) (l : list Chat) : list Chat := take i l ++ drop (S i) l.

(** [indices_to_remove]: the rows whose server is [server], in order. *)
Fixpoint indices_of_server (server' : string) (i : nat) (l : list Chat) : list nat :=
  match l with
  | [] => []
  | chat :: l' =>
      if (server chat =? server')%string then i :: indices_of_server server' (S i) l'
      else indices_of_server server' (S i) l'
  end.

Definition remove_server (server : string) (st : ChatListModel)
    : bool * ChatListModel * list Signal :=
  let indices_to_remove := indices_of_server server 0 (_chats st) in
  match indices_to_remove with
  | [] => (false, st, [])
  | _ :: _ =>
      let chats := fold_left (fun l i => del_index i l) (rev indices_to_remove) (_chats st) in
      let st1 := set_chat_models (delete server (_chat_models st)) (set_chats chats st) in
      if negb (opt_str_ne (_active_server st1) server) then
        (true, set_active None None st1, [activeChannelChanged "" ""])
      else (true, st1, [])
  end.

(** [index_to_remove]: the first row of the chat, if any. *)
Fixpoint index_of_chat (server channel : string) (i : nat) (l : list Chat) : option nat :=
  match l with
  | [] => None
  | chat :: l' =>
      if is_chat server channel chat then Some i else index_of_chat server channel (S i) l'
  end.

Definition remove_channel (server channel : string) (st : ChatListModel)
    : bool * ChatListModel * list Signal :=
  match index_of_chat server channel 0 (_chats st) with
  | None => (false, st, [])
  | Some index_to_remove =>
      let st1 := set_chats (del_index index_to_remove (_chats st)) st in
      let cm := _chat_models st1 in
      let st2 :=
        match cm !! server with
        | Some inner =>
            match inner !! channel with
            | Some _ => set_chat_models (<[server := delete channel inner]> cm) st1
            | None => st1
            end
        | None => st1
        end in
      if negb (opt_str_ne (_active_server st2) server)
         && negb (opt_str_ne (_active_channel st2) channel) then
        (true, set_active None None st2, [activeChannelChanged "" ""])
      else (true, st2, [])
  end.

(** [get_chat_model] creates the model when it is missing and returns the
    one stored; it never returns [None]. *)
Definition get_chat_model (server channel : string) (now : Z) (st : ChatListModel)
    : ChatModel * ChatListModel :=
  match model_of server channel (_chat_models st) with
  | Some model => (model, st)
  | None =>
      let model := new_ChatModel "" now in
      (model,
       set_chat_models
         (put_model server channel model (ensure_server server (_chat_models st))) st)
  end.

Definition clear_unread (chat : Chat) : Chat :=
  if (0 <? unread_count chat)%nat then
    {| name := name chat; server := server chat; is_private := is_private chat;
       unread_count := 0;
       last_message := last_message chat; last_message_time := last_message_time chat |}
  else chat.

Definition set_active_chat (server channel : string) (now : Z) (st : ChatListModel)
    : bool * ChatListModel * list Signal :=
  let activate (st : ChatListModel) :=
    let old_server := _active_server st in
    let old_channel := _active_channel st in
    let st1 := set_active (Some server) (Some channel) st in
    let st2 :=
      if truthy server && truthy channel then
        set_chat_models (ensure_model server channel now (_chat_models st1)) st1
      else st1 in
    let st3 :=
      if truthy server && truthy channel then
        set_chats (update_first (is_chat server channel) clear_unread (_chats st2)) st2
      else st2 in
    (true, st3,
     if opt_str_ne old_server server || opt_str_ne old_channel channel
     then [activeChannelChanged server channel] else []) in
  if negb (chat_exists server channel st) && truthy channel then
    if truthy server then activate (snd (add_channel server channel false now st))
    else (false, st, [])
  else activate st.

(** The row update of [add_message_to_chat] and [update_channel_info]. *)
Definition touch_chat (preview time_str : string) (count_unread : bool) (chat : Chat) : Chat :=
  {| name := name chat; server := server chat; is_private := is_private chat;
     unread_count := if count_unread then S (unread_count chat) else unread_count chat;
     last_message := preview;
     last_message_time := time_str |}.

(** [self._active_server != server or self._active_channel != channel] *)
Definition not_active (server channel : string) (st : ChatListModel) : bool :=
  opt_str_ne (_active_server st) server || opt_str_ne (_active_channel st) channel.

(** The guard [if not chat_model: return False] never fires: the object
    returned by [get_chat_model] is always a model. *)
Definition add_message_to_chat (server channel sender content : string) (now : Z)
    (st : ChatListModel) : bool * ChatListModel :=
  let '(chat_model, st1) := get_chat_model server channel now st in
  let chat_model' := snd (add_message sender content false now now chat_model) in
  let st2 := set_chat_models (put_model server channel chat_model' (_chat_models st1)) st1 in
  let time_str := strftime_HM now in
  (true,
   set_chats
     (update_first (is_chat server channel)
        (touch_chat (sender +:+ ": " +:+ content) time_str (not_active server channel st2))
        (_chats st2)) st2).

Definition add_system_message_to_chat (server channel content : string) (now : Z)
    (st : ChatListModel) : bool * ChatListModel :=
  let '(chat_model, st1) := get_chat_model server channel now st in
  let chat_model' := snd (add_system_message content now now chat_model) in
  (true, set_chat_models (put_model server channel chat_model' (_chat_models st1)) st1).

Definition get_active_chat (st : ChatListModel) : option string * option string :=
  (_active_server st, _active_channel st).

(** [update_channel_info]; [sender] is [None] when the argument is left
    out, and [if sender:] also rejects the empty string. *)
Definition update_channel_info (server channel last_message : string)
    (sender : option string) (is_unread : bool) (now : Z) (st : ChatListModel)
    : bool * ChatListModel :=
  let time_str := strftime_HM now in
  let preview :=
    match sender with
    | Some s => if truthy s then s +:+ ": " +:+ last_message else last_message
    | None => last_message
    end in
  if chat_exists server channel st then
    (true,
     set_chats
       (update_first (is_chat server channel)
          (touch_chat preview time_str (is_unread && not_active server channel st))
          (_chats st)) st)
  else (false, st).

(** *** The accessors the views read

    A [QModelIndex] is [None] when invalid and its row otherwise; a role
    is the integer Qt passes. *)

Definition UserRole : Z := 256.

Inductive Variant :=
  | v_str (s : string)
  | v_bool (b : bool)
  | v_int (n : nat)
  | v_secs (t : Z).

(** [ChatModel.rowCount]; [parent_valid] is [parent.isValid()]. *)
Definition ChatModel_rowCount (parent_valid : bool) (m : ChatModel) : nat :=
  if parent_valid then 0%nat else length (_messages m).

(** [ChatModel.data]. [TimestampRole] gives whole seconds. *)
Definition ChatModel_data (index : option nat) (role : Z) (m : ChatModel) : option Variant :=
  match index with
  | None => None
  | Some row =>
      match _messages m !! row with
      | None => None
      | Some message =>
          if role =? UserRole + 1 then Some (v_str (sender message))
          else if role =? UserRole + 2 then Some (v_str (content message))
          else if role =? UserRole + 3 then Some (v_secs (Z.quot (timestamp message) 1000000))
          else if role =? UserRole + 4 then Some (v_bool (is_system message))
          else if role =? UserRole + 5 then Some (v_str (strftime_HM (timestamp message)))
          else if role =? UserRole + 6
               then Some (v_bool (sender message =? _own_nickname m)%string)
          else None
      end
  end.

(** [ChatListModel.rowCount] and [ChatListModel.data]. *)
Definition ChatListModel_rowCount (parent_valid : bool) (st : ChatListModel) : nat :=
  if parent_valid then 0%nat else length (_chats st).

Definition ChatListModel_data (index : option nat) (role : Z) (st : ChatListModel)
    : option Variant :=
  match index with
  | None => None
  | Some row =>
      match _chats st !! row with
      | None => None
      | Some chat =>
          if role =? UserRole + 1 then Some (v_str (name chat))
          else if role =? UserRole + 2 then Some (v_int (unread_count chat))
          else if role =? UserRole + 3 then Some (v_str (server chat))
          else if role =? UserRole + 4 then Some (v_bool (is_private chat))
          else if role =? UserRole + 5 then Some (v_str (last_message chat))
          else if role =? UserRole + 6 then Some (v_str (last_message_time chat))
          else None
      end
  end.

End models.

(** ** irc_client.py *)

Module irc_client.

(** What the code inspects of [client.connection.socket]: [None], a
    socket whose [fileno()] is [-1], or a valid descriptor. *)
Inductive Socket := no_socket | closed_fd | open_fd.

(** The part of [client.connection] the code reads: [get_nickname()] and
    the socket. *)
Record Connection := {
  nickname : string;
  socket : Socket }.

(** Decoded protocol events handed to [_IRCClientImpl] by the protocol
    library; [nick] is [event.source.nick], [target] is [event.target],
    [text] is [event.arguments[0]]. *)
Inductive Event :=
  | welcome
  | join (target nick : string)
  | part (target nick : string)
  | privmsg (nick text : string)
  | pubmsg (nick target text : string).

(** Outcome of a call into the protocol library. *)
Inductive Outcome := returns | raises.

(** The calls made on the connection of a server, as a test double of the
    protocol library would record them. *)
Inductive Call :=
  | call_disconnect (server message : string)
  | call_join (server channel : string)
  | call_part (server channel message : string)
  | call_privmsg (server target message : string).

(** Outcome of the socket layer during one [process_once]:
    [setblocking]/[select] raised; the socket was not readable; or it was
    readable and [process_data] dispatched [events], raising afterwards
    when [failed]. *)
Inductive Readiness :=
  | select_raises
  | not_readable
  | readable (events : list Event) (failed : bool).

(** Result of a method from which an exception may escape. *)
Inductive Result (A : Type) :=
  | returned (a : A)
  | raised.
Arguments returned {A} a.
Arguments raised {A}.

(** [clients] is a dict; its keys are kept in insertion order, which is
    the order of [get_servers]. *)
Record IRCClient := {
  clients : list (string * Connection);
  running : bool }.

Definition new_IRCClient : IRCClient := {| clients := []; running := false |}.

(** [self.clients[server]] / [server in self.clients] *)
Fixpoint lookup_client (server : string) (l : list (string * Connection))
    : option Connection :=
  match l with
  | [] => None
  | (k, client) :: l' => if (k =? server)%string then Some client else lookup_client server l'
  end.

(** [del self.clients[server]] *)
Definition del_client (server : string) (l : list (string * Connection))
    : list (string * Connection) :=
  List.filter (fun kv => negb (fst kv =? server)%string) l.

Definition get_servers (st : IRCClient) : list string := map fst (clients st).

(** [_IRCClientImpl.on_welcome], [on_join], [on_part], [on_privmsg],
    [on_pubmsg] of the client of [server]. *)
Definition on_event (server : string) (connection : Connection) (e : Event) : list Signal :=
  match e with
  | welcome => [server_connected server]
  | join channel nick =>
      if (nick =? nickname connection)%string then [channel_joined server channel] else []
  | part channel nick =>
      if (nick =? nickname connection)%string then [channel_left server channel] else []
  | privmsg sender message => [message_received server sender sender message]
  | pubmsg sender channel message => [message_received server channel sender message]
  end.

Definition process_once (server : string) (ready : Readiness) (st : IRCClient)
    : bool * list Signal :=
  match lookup_client server (clients st) with
  | None => (false, [])
  | Some client =>
      match socket client with
      | no_socket => (false, [])
      | closed_fd => (false, [])
      | open_fd =>
          match ready with
          | select_raises => (false, [])
          | not_readable => (true, [])
          | readable events failed =>
              (negb failed, flat_map (on_event server client) events)
          end
      end
  end.

(** [connect_to_server]; [connected] is the outcome of [client.connect],
    which raises [ServerConnectionError] on failure. *)
Definition connect_to_server (server : string) (nickname : string) (connected : Outcome)
    (st : IRCClient) : bool * IRCClient :=
  match lookup_client server (clients st) with
  | Some _ => (false, st)
  | None =>
      match connected with
      | raises => (false, st)
      | returns =>
          (true,
           {| clients := clients st ++ [(server, {| nickname := nickname; socket := open_fd |})];
              running := true |})
      end
  end.

(** [disconnect_from_server]; [quit] is the outcome of
    [client.connection.disconnect(message)]. The call is not guarded, so
    an exception escapes before the registry is touched. *)
Definition disconnect_from_server (server message : string) (quit : Outcome)
    (st : IRCClient) : Result unit * IRCClient * list Call * list Signal :=
  match lookup_client server (clients st) with
  | None => (returned (), st, [], [])
  | Some client =>
      match quit with
      | raises => (raised, st, [call_disconnect server message], [])
      | returns =>
          (returned (),
           {| clients := del_client server (clients st); running := running st |},
           [call_disconnect server message],
           [server_disconnected server])
      end
  end.

Definition join_channel (server channel : string) (st : IRCClient) : bool * list Call :=
  match lookup_client server (clients st) with
  | None => (false, [])
  | Some _ => (true, [call_join server channel])
  end.

Definition leave_channel (server channel message : string) (st : IRCClient) : list Call :=
  match lookup_client server (clients st) with
  | None => []
  | Some _ => [call_part server channel message]
  end.

(** [send_message]; [sent] is the outcome of [client.connection.privmsg],
    which is called only after both guards have passed. *)
Definition send_message (server target message : string) (sent : Outcome)
    (st : IRCClient) : bool * list Call * list Signal :=
  match lookup_client server (clients st) with
  | None => (false, [], [])
  | Some client =>
      if (target =? server)%string then (false, [], [])
      else
        match sent with
        | raises => (false, [call_privmsg server target message], [])
        | returns =>
            (true, [call_privmsg server target message],
             [message_received server target (nickname client) message])
        end
  end.

End irc_client.

(** ** app_controller.py

    The persistence collaborator ([DatabaseManager]) only records
    preferences and is left out; [QTimer.singleShot] callbacks wait in
    [timers] until [fire_timer] runs the oldest one. *)

Module app_controller.
Import models.

Record AppController := {
  _irc_client : irc_client.IRCClient;
  _chat_list_model : ChatListModel;
  _nickname : string;
  _updating : bool;
  _last_update_time : gmap string Z;
  timers : list (string * string) }.

Definition new_AppController (nickname : string) : AppController :=
  {| _irc_client := irc_client.new_IRCClient;
     _chat_list_model := new_ChatListModel;
     _nickname := nickname;
     _updating := false;
     _last_update_time := ∅;
     timers := [] |}.

Definition with_irc_client (c : irc_client.IRCClient) (st : AppController) : AppController :=
  {| _irc_client := c; _chat_list_model := _chat_list_model st; _nickname := _nickname st;
     _updating := _updating st; _last_update_time := _last_update_time st;
     timers := timers st |}.

Definition with_chat_list_model (m : ChatListModel) (st : AppController) : AppController :=
  {| _irc_client := _irc_client st; _chat_list_model := m; _nickname := _nickname st;
     _updating := _updating st; _last_update_time := _last_update_time st;
     timers := timers st |}.

Definition with_nickname (n : string) (st : AppController) : AppController :=
  {| _irc_client := _irc_client st; _chat_list_model := _chat_list_model st; _nickname := n;
     _updating := _updating st; _last_update_time := _last_update_time st;
     timers := timers st |}.

Definition with_updating (b : bool) (st : AppController) : AppController :=
  {| _irc_client := _irc_client st; _chat_list_model := _chat_list_model st;
     _nickname := _nickname st; _updating := b;
     _last_update_time := _last_update_time st; timers := timers st |}.

Definition with_last_update_time (m : gmap string Z) (st : AppController) : AppController :=
  {| _irc_client := _irc_client st; _chat_list_model := _chat_list_model st;
     _nickname := _nickname st; _updating := _updating st;
     _last_update_time := m; timers := timers st |}.

Definition with_timers (l : list (string * string)) (st : AppController) : AppController :=
  {| _irc_client := _irc_client st; _chat_list_model := _chat_list_model st;
     _nickname := _nickname st; _updating := _updating st;
     _last_update_time := _last_update_time st; timers := l |}.

(** [not channel.startswith('#') and not channel.startswith('&')] *)
Definition is_private_name (channel : string) : bool :=
  negb (String.prefix "#" channel) && negb (String.prefix "&" channel).

(** *** Slots connected to the signals of [IRCClient] *)

Definition _on_message_received (server channel sender message : string) (now : Z)
    (st : AppController) : AppController * list Signal :=
  let '(chat_model, clm1) := get_chat_model server channel now (_chat_list_model st) in
  let chat_model1 := set_own_nickname (_nickname st) chat_model in
  let chat_model2 := snd (add_message sender message false now now chat_model1) in
  let clm2 := set_chat_models (put_model server channel chat_model2 (_chat_models clm1)) clm1 in
  let clm3 := snd (update_channel_info server channel message (Some sender) true now clm2) in
  (with_chat_list_model clm3 st, [messagesUpdated server channel]).

Definition _on_server_connected (server : string) (now : Z) (st : AppController)
    : AppController * list Signal :=
  let clm := snd (add_system_message_to_chat server server
                    ("Connected to server " +:+ server) now (_chat_list_model st)) in
  (with_chat_list_model clm st, [connectionStatusChanged server true]).

Definition _on_server_disconnected (server : string) (st : AppController)
    : AppController * list Signal :=
  (st, [connectionStatusChanged server false]).

Definition _on_channel_joined (server channel : string) (now : Z) (st : AppController)
    : AppController * list Signal :=
  let is_private := is_private_name channel in
  let clm1 := snd (add_channel server channel is_private now (_chat_list_model st)) in
  let '(chat_model, clm2) := get_chat_model server channel now clm1 in
  let chat_model1 := set_own_nickname (_nickname st) chat_model in
  let chat_model2 :=
    snd (add_system_message ("You joined channel " +:+ channel) now now chat_model1) in
  let clm3 := set_chat_models (put_model server channel chat_model2 (_chat_models clm2)) clm2 in
  (with_chat_list_model clm3 st, [channelJoined server channel]).

Definition _on_channel_left (server channel : string) (now : Z) (st : AppController)
    : AppController * list Signal :=
  let clm := snd (add_system_message_to_chat server channel
                    ("You left channel " +:+ channel) now (_chat_list_model st)) in
  (with_timers (timers st ++ [(server, channel)]) (with_chat_list_model clm st), []).

(** The callback of the oldest pending [QTimer.singleShot]. *)
Definition fire_timer (st : AppController) : AppController * list Signal :=
  match timers st with
  | [] => (st, [])
  | (server, channel) :: rest =>
      let '(_, clm, sigs) := remove_channel server channel (_chat_list_model st) in
      (with_timers rest (with_chat_list_model clm st), sigs)
  end.

(** The connections made in [__init__]: a signal of [IRCClient] runs its
    slot. *)
Definition deliver (now : Z) (sig : Signal) (st : AppController)
    : AppController * list Signal :=
  match sig with
  | message_received server channel sender text =>
      _on_message_received server channel sender text now st
  | server_connected server => _on_server_connected server now st
  | server_disconnected server => _on_server_disconnected server st
  | channel_joined server channel => _on_channel_joined server channel now st
  | channel_left server channel => _on_channel_left server channel now st
  | _ => (st, [])
  end.

(** Each emitted signal, followed by what its slot emits. *)
Fixpoint deliver_all (now : Z) (sigs : list Signal) (st : AppController)
    : AppController * list Signal :=
  match sigs with
  | [] => (st, [])
  | sig :: rest =>
      let '(st1, out1) := deliver now sig st in
      let '(st2, out2) := deliver_all now rest st1 in
      (st2, sig :: out1 ++ out2)
  end.

(** *** Commands *)

(** [_update_chat_models_nickname] *)
Definition _update_chat_models_nickname (st : AppController) : AppController :=
  let clm := _chat_list_model st in
  with_chat_list_model
    (set_chat_models
       ((fun channels : gmap string ChatModel => set_own_nickname (_nickname st) <$> channels)
          <$> _chat_models clm) clm) st.

(** The [nickname] property setter. *)
Definition set_nickname (nickname : string) (st : AppController) : AppController :=
  if negb (truthy nickname) || (nickname =? _nickname st)%string then st
  else _update_chat_models_nickname (with_nickname nickname st).

Definition connect_to_server (server nickname : string) (connected : irc_client.Outcome)
    (st : AppController) : bool * AppController * list Signal :=
  if negb (truthy server) then (false, st, [errorOccurred "Server address not specified"])
  else
    let '(nickname, st1) :=
      if negb (truthy nickname) then (_nickname st, st) else (nickname, set_nickname nickname st) in
    let '(result, irc) :=
      irc_client.connect_to_server server nickname connected (_irc_client st1) in
    let st2 := with_irc_client irc st1 in
    if result then
      (true, with_chat_list_model (snd (add_server server (_chat_list_model st2))) st2, [])
    else (false, st2, [errorOccurred ("Failed to connect to server " +:+ server)]).

Definition disconnect_from_server (server : string) (quit : irc_client.Outcome) (now : Z)
    (st : AppController)
    : irc_client.Result bool * AppController * list irc_client.Call * list Signal :=
  if negb (truthy server) then (irc_client.returned false, st, [], [])
  else
    match irc_client.disconnect_from_server server "Goodbye!" quit (_irc_client st) with
    | (irc_client.raised, irc, calls, sigs) =>
        (irc_client.raised, with_irc_client irc st, calls, sigs)
    | (irc_client.returned _, irc, calls, sigs) =>
        let '(st1, out) := deliver_all now sigs (with_irc_client irc st) in
        let '(_, clm, sigs') := remove_server server (_chat_list_model st1) in
        (irc_client.returned true, with_chat_list_model clm st1, calls, out ++ sigs')
    end.

Definition join_channel (server channel : string) (st : AppController)
    : bool * list irc_client.Call * list Signal :=
  if negb (truthy server) || negb (truthy channel) then (false, [], [])
  else
    let '(result, calls) := irc_client.join_channel server channel (_irc_client st) in
    if result then (true, calls, [])
    else (false, calls,
          [errorOccurred ("Failed to join channel " +:+ channel +:+ " on server " +:+ server)]).

Definition leave_channel (server channel : string) (st : AppController)
    : bool * AppController * list irc_client.Call * list Signal :=
  if negb (truthy server) || negb (truthy channel) then (false, st, [], [])
  else
    let calls := irc_client.leave_channel server channel "Goodbye!" (_irc_client st) in
    let '(_, clm, sigs) := remove_channel server channel (_chat_list_model st) in
    (true, with_chat_list_model clm st, calls, sigs).

Definition send_message (server channel message : string) (sent : irc_client.Outcome)
    (now : Z) (st : AppController)
    : bool * AppController * list irc_client.Call * list Signal :=
  if negb (truthy server) || negb (truthy channel) || negb (truthy message) then
    (false, st, [], [])
  else if negb (chat_exists server channel (_chat_list_model st)) then
    (false, st, [],
     [errorOccurred ("Channel " +:+ channel +:+ " not found on server " +:+ server
                     +:+ ". You may need to join it first.")])
  else
    let '(result, calls, sigs) :=
      irc_client.send_message server channel message sent (_irc_client st) in
    let '(st1, out) := deliver_all now sigs st in
    (result, st1, calls, out).

Definition set_active_chat (server channel : string) (now : Z) (st : AppController)
    : bool * AppController * list Signal :=
  let '(result, clm, sigs) := models.set_active_chat server channel now (_chat_list_model st) in
  (result, with_chat_list_model clm st, sigs).

Definition activate_channel (server channel : string) (now : Z) (st : AppController)
    : bool * AppController * list Signal :=
  let '(result, clm, sigs) := models.set_active_chat server channel now (_chat_list_model st) in
  (result, with_chat_list_model clm st,
   if result then sigs ++ [channelJoined server channel] else sigs).

(** *** The periodic check *)

(** The body of [_check_for_new_messages] that follows a successful
    [process_once(server)]: the active chat is checked and announced,
    every chat whose name is not the active channel's is checked. *)
Definition reconcile (server : string) (clm : ChatListModel) : ChatListModel * list Signal :=
  match _chat_models clm !! server with
  | None => (clm, [])
  | Some channels =>
      let '(active_server, active_channel) := get_active_chat clm in
      let '(channels1, sigs) :=
        match active_channel with
        | Some channel =>
            if negb (opt_str_ne active_server server) then
              match channels !! channel with
              | Some chat_model =>
                  let '(changed, chat_model') := update_messages_if_needed chat_model in
                  (<[channel := chat_model']> channels,
                   if changed then [messagesUpdated server channel] else [])
              | None => (channels, [])
              end
            else (channels, [])
        | None => (channels, [])
        end in
      let channels2 :=
        map_imap (fun channel chat_model =>
                    Some (if opt_str_ne active_channel channel
                          then snd (update_messages_if_needed chat_model)
                          else chat_model)) channels1 in
      (set_chat_models (<[server := channels2]> (_chat_models clm)) clm, sigs)
  end.

(** One iteration of [for server in servers]. The accumulator carries the
    controller, the servers on which [process_once] was called, and the
    signals emitted. [time.time()] is [current_time]; two seconds are
    [2000000] microseconds. *)
Definition check_server (current_time now : Z) (poll : string -> irc_client.Readiness)
    (acc : AppController * list string * list Signal) (server : string)
    : AppController * list string * list Signal :=
  let '(st, polled, sigs) := acc in
  let last_update := default 0 (_last_update_time st !! server) in
  if current_time - last_update <? 2000000 then acc
  else
    let st1 := with_last_update_time (<[server := current_time]> (_last_update_time st)) st in
    let '(update_result, received) :=
      irc_client.process_once server (poll server) (_irc_client st1) in
    let '(st2, out) := deliver_all now received st1 in
    if negb update_result then (st2, polled ++ [server], sigs ++ out)
    else
      let '(clm, sigs') := reconcile server (_chat_list_model st2) in
      (with_chat_list_model clm st2, polled ++ [server], sigs ++ out ++ sigs').

Definition _check_for_new_messages (current_time now : Z)
    (poll : string -> irc_client.Readiness) (st : AppController)
    : AppController * list string * list Signal :=
  if _updating st then (st, [], [])
  else
    let st0 := with_updating true st in
    let servers := irc_client.get_servers (_irc_client st0) in
    let '(st1, polled, sigs) :=
      fold_left (check_server current_time now poll) servers (st0, [], []) in
    (with_updating false st1, polled, sigs).

(** *** Runs of the controller

    What reaches the controller on its own thread: the timer of the
    periodic check, a signal of [IRCClient] raised while the reactor
    processes data, a pending single-shot timer, and the commands of the
    user. A run records every [process_once] the periodic check makes,
    with the time of the check. *)

Inductive Command :=
  | do_check (current_time now : Z) (poll : string -> irc_client.Readiness)
  | do_deliver (now : Z) (sig : Signal)
  | do_fire_timer
  | do_connect (server nickname : string) (connected : irc_client.Outcome)
  | do_disconnect (server : string) (quit : irc_client.Outcome) (now : Z)
  | do_leave (server channel : string)
  | do_send (server channel message : string) (sent : irc_client.Outcome) (now : Z)
  | do_set_active (server channel : string) (now : Z).

Definition exec (c : Command) (st : AppController) : AppController * list (Z * string) :=
  match c with
  | do_check current_time now poll =>
      let '(st', polled, _) := _check_for_new_messages current_time now poll st in
      (st', map (fun server => (current_time, server)) polled)
  | do_deliver now sig => ((deliver now sig st).1, [])
  | do_fire_timer => ((fire_timer st).1, [])
  | do_connect server nickname connected =>
      ((connect_to_server server nickname connected st).1.2, [])
  | do_disconnect server quit now => ((disconnect_from_server server quit now st).1.1.2, [])
  | do_leave server channel => ((leave_channel server channel st).1.1.2, [])
  | do_send server channel message sent now =>
      ((send_message server channel message sent now st).1.1.2, [])
  | do_set_active server channel now => ((set_active_chat server channel now st).1.2, [])
  end.

Fixpoint run (cs : list Command) (st : AppController) : AppController * list (Z * string) :=
  match cs with
  | [] => (st, [])
  | c :: cs' =>
      let '(st1, log1) := exec c st in
      let '(st2, log2) := run cs' st1 in
      (st2, log1 ++ log2)
  end.

(** *** Reading and refreshing one chat *)

(** [getChatModel]: the chat's model, made if missing, under the
    controller's nickname. *)
Definition getChatModel (server channel : string) (now : Z) (st : AppController)
    : ChatModel * AppController :=
  let '(chat_model, clm) := get_chat_model server channel now (_chat_list_model st) in
  let chat_model' := set_own_nickname (_nickname st) chat_model in
  (chat_model',
   with_chat_list_model
     (set_chat_models (put_model server channel chat_model' (_chat_models clm)) clm) st).

Definition get_servers (st : AppController) : list string :=
  irc_client.get_servers (_irc_client st).

(** [channel == self._chat_list_model._active_channel]: only the name of
    the active channel is compared. *)
Definition is_active_name (channel : string) (clm : ChatListModel) : bool :=
  negb (opt_str_ne (_active_channel clm) channel).

(** [refresh_chat]. The result says whether [process_once] was called. *)
Definition refresh_chat (server channel : string) (now : Z)
    (poll : string -> irc_client.Readiness) (st : AppController)
    : bool * AppController * list string * list Signal :=
  if _updating st then (false, st, [], [])
  else if negb (truthy server) || negb (truthy channel)
          || negb (existsb (String.eqb server) (irc_client.get_servers (_irc_client st)))
  then (false, st, [], [])
  else
    let '(update_result, received) :=
      irc_client.process_once server (poll server) (_irc_client st) in
    let '(st1, out) := deliver_all now received (with_updating true st) in
    let '(chat_model, clm) := get_chat_model server channel now (_chat_list_model st1) in
    let chat_model' :=
      if is_active_name channel clm then force_data_changed now chat_model
      else snd (update_messages_if_needed chat_model) in
    let clm' := set_chat_models (put_model server channel chat_model' (_chat_models clm)) clm in
    (true, with_updating false (with_chat_list_model clm' st1), [server],
     out ++ (if is_active_name channel clm' then [messagesUpdated server channel] else [])).

End app_controller.

(** ** database.py

    The three tables of the SQLite file, each as the list of its rows in
    the order of insertion ([user_settings], of which only the key and
    the value are ever read, as a map). [AUTOINCREMENT] hands out the
    successor of the largest id ever used. Every method opens its own
    connection and commits at the end; [sqlite3.Error] raised by a
    statement before the commit is an outcome of the call, and leaves the
    file as it was. [CURRENT_TIMESTAMP] is a reading [now] of the clock. *)

Module database.

Inductive Sqlite := sql_ok | sql_error.

Record ServerRow := {
  id : nat;
  server_name : string;
  port : Z;
  nickname : string;
  username : string;
  realname : string;
  last_connected : Z }.

Record ChannelRow := {
  channel_id : nat;
  server_id : nat;
  channel_name : string;
  is_private : bool;
  auto_join : bool }.

Record DatabaseManager := {
  servers : list ServerRow;
  servers_seq : nat;
  channels : list ChannelRow;
  channels_seq : nat;
  user_settings : gmap string string }.

(** The file after [_create_tables] on a new path. *)
Definition new_DatabaseManager : DatabaseManager :=
  {| servers := []; servers_seq := 0; channels := []; channels_seq := 0;
     user_settings := ∅ |}.

Definition with_servers (l : list ServerRow) (seq : nat) (db : DatabaseManager)
    : DatabaseManager :=
  {| servers := l; servers_seq := seq; channels := channels db;
     channels_seq := channels_seq db; user_settings := user_settings db |}.

Definition with_channels (l : list ChannelRow) (seq : nat) (db : DatabaseManager)
    : DatabaseManager :=
  {| servers := servers db; servers_seq := servers_seq db; channels := l;
     channels_seq := seq; user_settings := user_settings db |}.

Definition with_user_settings (m : gmap string string) (db : DatabaseManager)
    : DatabaseManager :=
  {| servers := servers db; servers_seq := servers_seq db; channels := channels db;
     channels_seq := channels_seq db; user_settings := m |}.

(** [SELECT id FROM servers WHERE server_name = ?] with [fetchone()] *)
Definition select_server (server_name' : string) (db : DatabaseManager) : option ServerRow :=
  List.find (fun row => (server_name row =? server_name')%string) (servers db).

(** [SELECT id FROM channels WHERE server_id = ? AND channel_name = ?] *)
Definition select_channel (server_id' : nat) (channel_name' : string) (db : DatabaseManager)
    : option ChannelRow :=
  List.find (fun row => (server_id row =? server_id')%nat
                        && (channel_name row =? channel_name')%string) (channels db).

Definition save_server (server_name' : string) (port' : Z)
    (nickname' username' realname' : string) (now : Z) (outcome : Sqlite)
    (db : DatabaseManager) : bool * DatabaseManager :=
  match outcome with
  | sql_error => (false, db)
  | sql_ok =>
      match select_server server_name' db with
      | Some result =>
          (true,
           with_servers
             (map (fun row =>
                     if (id row =? id result)%nat then
                       {| id := id row; server_name := server_name row; port := port';
                          nickname := nickname'; username := username';
                          realname := realname'; last_connected := now |}
                     else row) (servers db))
             (servers_seq db) db)
      | None =>
          (true,
           with_servers
             (servers db ++ [{| id := S (servers_seq db); server_name := server_name';
                                port := port'; nickname := nickname';
                                username := username'; realname := realname';
                                last_connected := now |}])
             (S (servers_seq db)) db)
      end
  end.

Definition save_channel (server_name' channel_name' : string) (is_private' auto_join' : bool)
    (outcome : Sqlite) (db : DatabaseManager) : bool * DatabaseManager :=
  match outcome with
  | sql_error => (false, db)
  | sql_ok =>
      match select_server server_name' db with
      | None => (false, db)
      | Some server =>
          match select_channel (id server) channel_name' db with
          | Some result =>
              (true,
               with_channels
                 (map (fun row =>
                         if (channel_id row =? channel_id result)%nat then
                           {| channel_id := channel_id row; server_id := server_id row;
                              channel_name := channel_name row;
                              is_private := is_private'; auto_join := auto_join' |}
                         else row) (channels db))
                 (channels_seq db) db)
          | None =>
              (true,
               with_channels
                 (channels db ++ [{| channel_id := S (channels_seq db);
                                     server_id := id server;
                                     channel_name := channel_name';
                                     is_private := is_private';
                                     auto_join := auto_join' |}])
                 (S (channels_seq db)) db)
          end
      end
  end.





(** [delete_server]. The schema asks for [ON DELETE CASCADE]; whether
    SQLite applies it depends on the foreign-key setting of the
    connection, which the source leaves at its default: [foreign_keys]. *)
Definition delete_server (server_name' : string) (foreign_keys : bool) (outcome : Sqlite)
    (db : DatabaseManager) : bool * DatabaseManager :=
  match outcome with
  | sql_error => (false, db)
  | sql_ok =>
      let deleted :=
        List.filter (fun row => (server_name row =? server_name')%string) (servers db) in
      let kept :=
        List.filter (fun row => negb (server_name row =? server_name')%string) (servers db) in
      let channels' :=
        if foreign_keys then
          List.filter (fun c => negb (existsb (fun s => (server_id c =? id s)%nat) deleted))
            (channels db)
        else channels db in
      ((0 <? length deleted)%nat,
       with_channels channels' (channels_seq db) (with_servers kept (servers_seq db) db))
  end.

Definition delete_channel (server_name' channel_name' : string) (outcome : Sqlite)
    (db : DatabaseManager) : bool * DatabaseManager :=
  match outcome with
  | sql_error => (false, db)
  | sql_ok =>
      match select_server server_name' db with
      | None => (false, db)
      | Some server =>
          let matches row :=
            (server_id row =? id server)%nat && (channel_name row =? channel_name')%string in
          ((0 <? length (List.filter matches (channels db)))%nat,
           with_channels (List.filter (fun row => negb (matches row)) (channels db))
             (channels_seq db) db)
      end
  end.

Definition save_user_setting (key value : string) (outcome : Sqlite) (db : DatabaseManager)
    : bool * DatabaseManager :=
  match outcome with
  | sql_error => (false, db)
  | sql_ok => (true, with_user_settings (<[key := value]> (user_settings db)) db)
  end.

Definition get_user_setting (key : string) (default_value : option string)
    (outcome : Sqlite) (db : DatabaseManager) : option string :=
  match outcome with
  | sql_error => default_value
  | sql_ok =>
      match user_settings db !! key with
      | Some value => Some value
      | None => default_value
      end
  end.

(** [if not username: username = nickname], for an argument that may be
    left out. *)
Definition or_nickname (value : option string) (nickname' : string) : string :=
  match value with
  | Some v => if truthy v then v else nickname'
  | None => nickname'
  end.

(** [save_user_profile]: three calls of [save_user_setting], each with
    its own outcome. *)
Definition save_user_profile (nickname' : string) (username' realname' : option string)
    (o1 o2 o3 : Sqlite) (db : DatabaseManager) : bool * DatabaseManager :=
  let '(result1, db1) := save_user_setting "nickname" nickname' o1 db in
  let '(result2, db2) := save_user_setting "username" (or_nickname username' nickname') o2 db1 in
  let '(result3, db3) := save_user_setting "realname" (or_nickname realname' nickname') o3 db2 in
  (result1 && result2 && result3, db3).

(** [get_user_profile]; [fresh] is the random nickname drawn for the
    default. The result is (nickname, username, realname). *)
Definition get_user_profile (fresh : string) (o1 o2 o3 : Sqlite) (db : DatabaseManager)
    : string * string * string :=
  let nickname' := default fresh (get_user_setting "nickname" (Some fresh) o1 db) in
  let username' := default nickname' (get_user_setting "username" (Some nickname') o2 db) in
  let realname' := default nickname' (get_user_setting "realname" (Some nickname') o3 db) in
  (nickname', username', realname').

(** What the schema demands of the tables: server names are unique, ids
    are unique and were handed out by the counter, a server has at most
    one channel of a name, and a channel refers to an id that was handed
    out. *)
Definition schema_ok (db : DatabaseManager) : Prop :=
  NoDup (map server_name (servers db))
  /\ NoDup (map id (servers db))
  /\ (forall row, In row (servers db) -> (id row <= servers_seq db)%nat)
  /\ NoDup (map (fun c => (server_id c, channel_name c)) (channels db))
  /\ NoDup (map channel_id (channels db))
  /\ (forall c, In c (channels db) ->
        (channel_id c <= channels_seq db)%nat /\ (server_id c <= servers_seq db)%nat).


(** The methods that write the file. *)
Inductive DbOp :=
  | do_save_server (server_name : string) (port : Z) (nickname username realname : string)
      (now : Z) (outcome : Sqlite)
  | do_save_channel (server_name channel_name : string) (is_private auto_join : bool)
      (outcome : Sqlite)
  | do_delete_server (server_name : string) (foreign_keys : bool) (outcome : Sqlite)
  | do_delete_channel (server_name channel_name : string) (outcome : Sqlite)
  | do_save_user_setting (key value : string) (outcome : Sqlite).

Definition apply_db_op (db : DatabaseManager) (op : DbOp) : DatabaseManager :=
  match op with
  | do_save_server name port' nick user real now outcome =>
      (save_server name port' nick user real now outcome db).2
  | do_save_channel name channel private join outcome =>
      (save_channel name channel private join outcome db).2
  | do_delete_server name foreign_keys outcome =>
      (delete_server name foreign_keys outcome db).2
  | do_delete_channel name channel outcome => (delete_channel name channel outcome db).2
  | do_save_user_setting key value outcome => (save_user_setting key value outcome db).2
  end.

End database.

(** ** Observations on the store

    What a reader of the store sees of one chat. Every loop of the source
    that looks a chat up stops at the first row with its server and name,
    so that row is the chat's row. *)

Module observe.
Import models.

Definition find_chat (server channel : string) (st : ChatListModel) : option Chat :=
  List.find (is_chat server channel) (_chats st).

Definition unread_of (server channel : string) (st : ChatListModel) : option nat :=
  unread_count <$> find_chat server channel st.

(** The rows with the identity [(server, channel)]. *)
Definition count_chats (server channel : string) (st : ChatListModel) : nat :=
  length (List.filter (is_chat server channel) (_chats st)).

Definition chat_model_of (server channel : string) (st : ChatListModel) : option ChatModel :=
  model_of server channel (_chat_models st).

(** The message history of a chat, empty when it has no model. *)
Definition history (server channel : string) (st : ChatListModel) : list Message :=
  from_option _messages [] (chat_model_of server channel st).

Definition active_chat (st : ChatListModel) : option string * option string :=
  (_active_server st, _active_channel st).

(** A model whose stamp no message of its history is later than. *)
Definition stamp_covers (m : ChatModel) : Prop :=
  forall msg, In msg (_messages m) -> timestamp msg <= _last_update_timestamp m.

(** The server a signal is about. *)
Definition sig_server (sig : Signal) : option string :=
  match sig with
  | activeChannelChanged server _ => Some server
  | message_received server _ _ _ => Some server
  | server_connected server => Some server
  | server_disconnected server => Some server
  | channel_joined server _ => Some server
  | channel_left server _ => Some server
  | errorOccurred _ => None
  | connectionStatusChanged server _ => Some server
  | channelJoined server _ => Some server
  | messagesUpdated server _ => Some server
  end.

(** Nothing of [server] differs between two states of the controller:
    the time of its last check, the models and the rows of its chats, and
    the active-chat pointer. *)
Definition untouched (server : string) (st st' : app_controller.AppController) : Prop :=
  app_controller._last_update_time st' !! server
  = app_controller._last_update_time st !! server
  /\ (forall channel,
        chat_model_of server channel (app_controller._chat_list_model st')
        = chat_model_of server channel (app_controller._chat_list_model st))
  /\ (forall channel,
        find_chat server channel (app_controller._chat_list_model st')
        = find_chat server channel (app_controller._chat_list_model st))
  /\ active_chat (app_controller._chat_list_model st')
     = active_chat (app_controller._chat_list_model st).

(** What one pass over the servers does: the servers it polls are
    distinct, each was last checked at least two seconds before and is
    stamped with the time of this check; a server it does not poll is
    left untouched and no signal about it is emitted. *)
Definition pass_ok (current_time : Z) (st st' : app_controller.AppController)
    (polled : list string) (sigs : list Signal) : Prop :=
  NoDup polled
  /\ (forall server, In server polled ->
        2000000 <= current_time - default 0 (app_controller._last_update_time st !! server)
        /\ app_controller._last_update_time st' !! server = Some current_time)
  /\ (forall server, ~ In server polled ->
        untouched server st st'
        /\ forall out, In out sigs -> sig_server out <> Some server).

(** Two checks of one server in a log are at least two seconds apart. *)
Definition spaced (log : list (Z * string)) : Prop :=
  forall i j t1 t2 server,
    (i < j)%nat -> log !! i = Some (t1, server) -> log !! j = Some (t2, server) ->
    t1 + 2000000 <= t2.

(** The invariant of a run: the checks logged so far are spaced, and none
    is later than the time the controller remembers for its server. *)
Definition remembered (st : app_controller.AppController) (log : list (Z * string)) : Prop :=
  forall t server, In (t, server) log ->
    exists last, app_controller._last_update_time st !! server = Some last /\ t <= last.

(** A sequence of [add_message_to_chat] calls on one chat; each call
    brings its sender, its content and the reading of the clock. *)
Definition append_all (server channel : string) (calls : list (string * string * Z))
    (st : ChatListModel) : ChatListModel :=
  fold_left (fun st call =>
               snd (add_message_to_chat server channel call.1.1 call.1.2 call.2 st))
            calls st.

End observe.

(** ** Histories of the chat list

    The methods of [ChatListModel] that write the store, as operations,
    and the stores they build from the empty one. *)

Module store_ops.
Import models observe.

Inductive ListOp :=
  | op_add_server (server : string)
  | op_add_channel (server channel : string) (is_private : bool) (now : Z)
  | op_remove_server (server : string)
  | op_remove_channel (server channel : string)
  | op_get_chat_model (server channel : string) (now : Z)
  | op_set_active_chat (server channel : string) (now : Z)
  | op_add_message_to_chat (server channel sender content : string) (now : Z)
  | op_add_system_message_to_chat (server channel content : string) (now : Z)
  | op_update_channel_info (server channel last_message : string)
      (sender : option string) (is_unread : bool) (now : Z).

Definition apply_op (st : ChatListModel) (op : ListOp) : ChatListModel :=
  match op with
  | op_add_server server => (add_server server st).2
  | op_add_channel server channel is_private now =>
      (add_channel server channel is_private now st).2
  | op_remove_server server => (remove_server server st).1.2
  | op_remove_channel server channel => (remove_channel server channel st).1.2
  | op_get_chat_model server channel now => (get_chat_model server channel now st).2
  | op_set_active_chat server channel now => (set_active_chat server channel now st).1.2
  | op_add_message_to_chat server channel sender content now =>
      (add_message_to_chat server channel sender content now st).2
  | op_add_system_message_to_chat server channel content now =>
      (add_system_message_to_chat server channel content now st).2
  | op_update_channel_info server channel last_message sender is_unread now =>
      (update_channel_info server channel last_message sender is_unread now st).2
  end.

Definition apply_ops (ops : list ListOp) (st : ChatListModel) : ChatListModel :=
  fold_left apply_op ops st.

(** A chat identity has at most one row; only the identity of a server's
    own row, whose name is the server's, may have two. *)
Definition rows_unique (st : ChatListModel) : Prop :=
  forall server channel,
    (count_chats server channel st <= if (server =? channel)%string then 2 else 1)%nat.

(** The pointer is empty or names a pair, and a pair of non-empty names
    has a row. *)
Definition pointer_ok (st : ChatListModel) : Prop :=
  match _active_server st, _active_channel st with
  | None, None => True
  | Some server, Some channel =>
      server <> "" -> channel <> "" -> chat_exists server channel st = true
  | _, _ => False
  end.

(** A sequence of operations on one [ChatModel], each with the readings
    of the clock it makes. *)
Inductive ModelOp :=
  | op_add_message (sender content : string) (is_system : bool) (t_msg t_upd : Z)
  | op_set_own_nickname (nickname : string)
  | op_clear (now : Z)
  | op_force_data_changed (now : Z)
  | op_update_messages_if_needed.

Definition apply_model_op (m : ChatModel) (op : ModelOp) : ChatModel :=
  match op with
  | op_add_message sender content is_system t_msg t_upd =>
      (add_message sender content is_system t_msg t_upd m).2
  | op_set_own_nickname nickname => set_own_nickname nickname m
  | op_clear now => clear now m
  | op_force_data_changed now => force_data_changed now m
  | op_update_messages_if_needed => (update_messages_if_needed m).2
  end.

(** The readings of an operation, in the order they are made. *)
Definition readings (op : ModelOp) : list Z :=
  match op with
  | op_add_message _ _ _ t_msg t_upd => [t_msg; t_upd]
  | op_clear now => [now]
  | op_force_data_changed now => [now]
  | _ => []
  end.

(** The clock never runs backwards: the readings of a history, after the
    reading [t0], are in non-decreasing order. *)
Fixpoint forward (t0 : Z) (ts : list Z) : Prop :=
  match ts with
  | [] => True
  | t :: ts' => t0 <= t /\ forward t ts'
  end.

End store_ops.

(** ** Sample stores *)

Module examples.
Import models observe.

Definition irc : string := "irc.example.org".

(** The store after joining [#general] on [irc]: the server's row and the
    channel's row. *)
Definition joined : ChatListModel :=
  (add_channel irc "#general" false 0 new_ChatListModel).2.

(** The store after a message for [(irc, bob)] while that chat has no
    row: a model holds the message, the list is empty. *)
Definition unlisted : ChatListModel :=
  (add_message_to_chat irc "bob" "bob" "hi" 0 new_ChatListModel).2.

(** [unlisted] after [set_active_chat(irc, "")]: the pointer names the
    server, which has no row. *)
Definition unlisted_active : ChatListModel :=
  (set_active_chat irc "" 0 unlisted).1.2.

(** A registry with one session, to [irc], under the nickname [nick]. *)
Definition connected : irc_client.IRCClient :=
  (irc_client.connect_to_server irc "nick" irc_client.returns irc_client.new_IRCClient).2.

(** A controller after [connect_to_server(irc)] has succeeded. *)
Definition online : app_controller.AppController :=
  (app_controller.connect_to_server irc "nick" irc_client.returns
     (app_controller.new_AppController "nick")).1.2.

(** A model whose only message is later than its stamp: the clock
    stepped back between the two readings of [add_message]. *)
Definition due_model : ChatModel :=
  (add_message "bob" "hi" false 10 5 (new_ChatModel "nick" 0)).2.

(** [online] with [(irc, #general)] active and holding [due_model], ten
    seconds after the epoch, [irc] having just been checked. *)
Definition watching : app_controller.AppController :=
  let st := (app_controller.set_active_chat irc "#general" 0 online).1.2 in
  let clm := app_controller._chat_list_model st in
  app_controller.with_last_update_time {[irc := 10000000]}
    (app_controller.with_chat_list_model
       (set_chat_models (put_model irc "#general" due_model (_chat_models clm)) clm) st).

End examples.

(** * Properties *)

(** ** Rows of the chat list *)

Section rows.
Import models observe.

Lemma is_chat_true server channel chat :
  is_chat server channel chat = true <-> models.server chat = server /\ name chat = channel.
Proof.
  unfold is_chat. rewrite andb_true_iff, !String.eqb_eq. tauto.
Qed.

Lemma opt_str_ne_false a b : opt_str_ne a b = false <-> a = Some b.
Proof.
  destruct a as [a|]; simpl.
  - rewrite negb_false_iff, String.eqb_eq. split; congruence.
  - split; discriminate.
Qed.

Lemma not_active_false server channel st :
  not_active server channel st = false <->
  active_chat st = (Some server, Some channel).
Proof.
  unfold not_active, active_chat. rewrite orb_false_iff, !opt_str_ne_false.
  split; [intros [-> ->]; reflexivity | intros [= -> ->]; auto].
Qed.

Lemma truthy_true s : truthy s = true <-> s <> "".
Proof.
  unfold truthy. rewrite negb_true_iff. apply String.eqb_neq.
Qed.

Variables (p : Chat -> bool) (f : Chat -> Chat).

Lemma update_first_length l : length (update_first p f l) = length l.
Proof.
  induction l as [|c l IH]; simpl; [reflexivity|].
  destruct (p c); simpl; congruence.
Qed.

(** The rows the loop does not select are left as they were. *)
Lemma update_first_lookup_other l i c :
  l !! i = Some c -> p c = false -> update_first p f l !! i = Some c.
Proof.
  revert i. induction l as [|c0 l IH]; intros i Hi Hp; [discriminate|].
  simpl. destruct (p c0) eqn:Hc0.
  - destruct i as [|i]; simpl in *; [congruence | assumption].
  - destruct i as [|i]; simpl in *; [assumption | auto].
Qed.

Lemma update_first_none l : existsb p l = false -> update_first p f l = l.
Proof.
  induction l as [|c l IH]; simpl; [reflexivity|].
  destruct (p c); simpl; [discriminate | intros H; f_equal; auto].
Qed.

(** An update that keeps the selected row selected is seen by a lookup
    with the same test. *)
Lemma find_update_first l :
  (forall c, p c = true -> p (f c) = true) ->
  List.find p (update_first p f l) = f <$> List.find p l.
Proof.
  intros Hf. induction l as [|c l IH]; simpl; [reflexivity|].
  destruct (p c) eqn:Hc; simpl.
  - rewrite (Hf c Hc). reflexivity.
  - rewrite Hc. exact IH.
Qed.

(** A lookup with a test that the update cannot switch, and that never
    holds of the selected row, does not see the update. *)
Lemma find_update_first_other (q : Chat -> bool) l :
  (forall c, q (f c) = q c) ->
  (forall c, p c = true -> q c = false) ->
  List.find q (update_first p f l) = List.find q l.
Proof.
  intros Hf Hpq. induction l as [|c l IH]; simpl; [reflexivity|].
  destruct (p c) eqn:Hc; simpl.
  - rewrite Hf, (Hpq c Hc). reflexivity.
  - destruct (q c); [reflexivity | exact IH].
Qed.

Lemma filter_update_first (q : Chat -> bool) l :
  (forall c, q (f c) = q c) ->
  length (List.filter q (update_first p f l)) = length (List.filter q l).
Proof.
  intros Hf. induction l as [|c l IH]; simpl; [reflexivity|].
  destruct (p c); simpl.
  - rewrite Hf. destruct (q c); reflexivity.
  - destruct (q c); simpl; congruence.
Qed.

Lemma existsb_update_first (q : Chat -> bool) l :
  (forall c, q (f c) = q c) ->
  existsb q (update_first p f l) = existsb q l.
Proof.
  intros Hf. induction l as [|c l IH]; simpl; [reflexivity|].
  destruct (p c); simpl; [rewrite Hf | rewrite IH]; reflexivity.
Qed.

End rows.

Lemma existsb_find {A} (q : A -> bool) l : existsb q l = true <-> is_Some (List.find q l).
Proof.
  induction l as [|c l IH]; simpl.
  - split; [discriminate | intros [? [=]]].
  - destruct (q c); simpl; [split; eauto | exact IH].
Qed.

Lemma existsb_filter_length {A} (q : A -> bool) l :
  existsb q l = false -> length (List.filter q l) = 0%nat.
Proof.
  induction l as [|c l IH]; simpl; [reflexivity|].
  destruct (q c); simpl; [discriminate | exact IH].
Qed.

(** ** The map from identities to chat models *)

Section chat_models.
Import models observe.
Implicit Types cm : gmap string (gmap string ChatModel).

Lemma model_of_ensure_server server server' channel cm :
  model_of server' channel (ensure_server server cm) = model_of server' channel cm.
Proof.
  unfold ensure_server, model_of.
  destruct (cm !! server) eqn:Hs; [reflexivity|].
  destruct (decide (server = server')) as [->|Hne].
  - rewrite lookup_insert_eq, Hs. simpl. apply lookup_empty.
  - rewrite lookup_insert_ne by assumption. reflexivity.
Qed.

Lemma model_of_put_model server channel model cm :
  model_of server channel (put_model server channel model cm) = Some model.
Proof.
  unfold model_of, put_model. rewrite lookup_insert_eq. simpl. apply lookup_insert_eq.
Qed.

Lemma model_of_put_model_ne server channel server' channel' model cm :
  (server', channel') <> (server, channel) ->
  model_of server' channel' (put_model server channel model cm) = model_of server' channel' cm.
Proof.
  intros Hne. unfold model_of, put_model.
  destruct (decide (server = server')) as [->|Hs].
  - rewrite lookup_insert_eq. simpl.
    rewrite lookup_insert_ne by congruence.
    destruct (cm !! server'); simpl; [reflexivity | apply lookup_empty].
  - rewrite lookup_insert_ne by assumption. reflexivity.
Qed.

Lemma model_of_ensure_model server channel now cm :
  model_of server channel (ensure_model server channel now cm)
  = Some (default (new_ChatModel "" now) (model_of server channel cm)).
Proof.
  unfold ensure_model.
  destruct (model_of server channel (ensure_server server cm)) eqn:H.
  - rewrite H. rewrite model_of_ensure_server in H. rewrite H. reflexivity.
  - rewrite model_of_put_model. rewrite model_of_ensure_server in H. rewrite H. reflexivity.
Qed.

Lemma model_of_ensure_model_ne server channel server' channel' now cm :
  (server', channel') <> (server, channel) ->
  model_of server' channel' (ensure_model server channel now cm) = model_of server' channel' cm.
Proof.
  intros Hne. unfold ensure_model.
  destruct (model_of server channel (ensure_server server cm)).
  - apply model_of_ensure_server.
  - rewrite model_of_put_model_ne by assumption. apply model_of_ensure_server.
Qed.

(** A model that is there is left alone. *)
Lemma ensure_model_present server channel now cm :
  is_Some (model_of server channel cm) -> ensure_model server channel now cm = cm.
Proof.
  intros [m Hm]. unfold ensure_model, ensure_server.
  assert (is_Some (cm !! server)) as [inner Hin].
  { unfold model_of in Hm. destruct (cm !! server); [eauto | discriminate]. }
  rewrite Hin, Hm. reflexivity.
Qed.

Lemma get_chat_model_chats server channel now st :
  _chats (get_chat_model server channel now st).2 = _chats st.
Proof. unfold get_chat_model. destruct (model_of _ _ _); reflexivity. Qed.

Lemma get_chat_model_active server channel now st :
  active_chat (get_chat_model server channel now st).2 = active_chat st.
Proof. unfold get_chat_model. destruct (model_of _ _ _); reflexivity. Qed.

Lemma get_chat_model_fst server channel now st :
  (get_chat_model server channel now st).1
  = default (new_ChatModel "" now) (chat_model_of server channel st).
Proof. unfold get_chat_model, chat_model_of. destruct (model_of _ _ _); reflexivity. Qed.

(** The model handed out is the one the store holds afterwards. *)
Lemma get_chat_model_stored server channel now st :
  chat_model_of server channel (get_chat_model server channel now st).2
  = Some (get_chat_model server channel now st).1.
Proof.
  unfold get_chat_model, chat_model_of.
  destruct (model_of server channel (_chat_models st)) eqn:H; simpl; [assumption|].
  apply model_of_put_model.
Qed.

Lemma get_chat_model_other server channel server' channel' now st :
  (server', channel') <> (server, channel) ->
  chat_model_of server' channel' (get_chat_model server channel now st).2
  = chat_model_of server' channel' st.
Proof.
  intros Hne. unfold get_chat_model, chat_model_of.
  destruct (model_of server channel (_chat_models st)); simpl; [reflexivity|].
  rewrite model_of_put_model_ne by assumption. apply model_of_ensure_server.
Qed.

End chat_models.

(** ** Appending a message *)

Section append.
Import models observe.

Lemma touch_chat_is_chat server channel preview time_str b chat :
  is_chat server channel (touch_chat preview time_str b chat) = is_chat server channel chat.
Proof. reflexivity. Qed.

Lemma add_message_to_chat_chats server channel sender content now st :
  _chats (add_message_to_chat server channel sender content now st).2
  = update_first (is_chat server channel)
      (touch_chat (sender +:+ ": " +:+ content) (strftime_HM now)
         (not_active server channel st)) (_chats st).
Proof.
  unfold add_message_to_chat.
  pose proof (get_chat_model_chats server channel now st) as Hc.
  pose proof (get_chat_model_active server channel now st) as Ha.
  destruct (get_chat_model server channel now st) as [chat_model st1]. simpl in *.
  rewrite Hc. unfold not_active. simpl.
  injection Ha as -> ->. reflexivity.
Qed.

Lemma add_message_to_chat_active server channel sender content now st :
  active_chat (add_message_to_chat server channel sender content now st).2 = active_chat st.
Proof.
  unfold add_message_to_chat.
  pose proof (get_chat_model_active server channel now st) as Ha.
  destruct (get_chat_model server channel now st) as [chat_model st1]. exact Ha.
Qed.

Lemma add_message_to_chat_model server channel sender content now st :
  chat_model_of server channel (add_message_to_chat server channel sender content now st).2
  = Some (add_message sender content false now now
            (default (new_ChatModel "" now) (chat_model_of server channel st))).2.
Proof.
  unfold add_message_to_chat.
  pose proof (get_chat_model_fst server channel now st) as Hf.
  destruct (get_chat_model server channel now st) as [chat_model st1]. simpl in *.
  unfold chat_model_of. simpl. rewrite model_of_put_model. rewrite Hf. reflexivity.
Qed.

Lemma add_message_to_chat_history server channel sender content now st :
  history server channel (add_message_to_chat server channel sender content now st).2
  = history server channel st
    ++ [{| sender := sender; content := content; timestamp := now; is_system := false |}].
Proof.
  unfold history. rewrite add_message_to_chat_model. simpl.
  destruct (chat_model_of server channel st); reflexivity.
Qed.

Lemma add_message_to_chat_model_other server channel server' channel' sender content now st :
  (server', channel') <> (server, channel) ->
  chat_model_of server' channel' (add_message_to_chat server channel sender content now st).2
  = chat_model_of server' channel' st.
Proof.
  intros Hne. unfold add_message_to_chat.
  pose proof (get_chat_model_other server channel server' channel' now st Hne) as Ho.
  destruct (get_chat_model server channel now st) as [chat_model st1]. simpl in *.
  unfold chat_model_of in *. simpl. rewrite model_of_put_model_ne by assumption. exact Ho.
Qed.

Lemma add_message_to_chat_find server channel sender content now st :
  find_chat server channel (add_message_to_chat server channel sender content now st).2
  = touch_chat (sender +:+ ": " +:+ content) (strftime_HM now) (not_active server channel st)
    <$> find_chat server channel st.
Proof.
  unfold find_chat. rewrite add_message_to_chat_chats.
  apply find_update_first. intros c Hc. exact Hc.
Qed.

Lemma is_chat_distinct server channel server' channel' chat :
  (server', channel') <> (server, channel) ->
  is_chat server channel chat = true -> is_chat server' channel' chat = false.
Proof.
  intros Hne [Hs Hn]%is_chat_true.
  destruct (is_chat server' channel' chat) eqn:H; [|reflexivity].
  apply is_chat_true in H as [Hs' Hn']. congruence.
Qed.

Lemma add_message_to_chat_find_other server channel server' channel' sender content now st :
  (server', channel') <> (server, channel) ->
  find_chat server' channel' (add_message_to_chat server channel sender content now st).2
  = find_chat server' channel' st.
Proof.
  intros Hne. unfold find_chat. rewrite add_message_to_chat_chats.
  apply find_update_first_other.
  - intros c. reflexivity.
  - intros c. apply is_chat_distinct. assumption.
Qed.

End append.

(** ** Creating a chat *)

Section create.
Import models observe.

Lemma chat_exists_find server channel st :
  chat_exists server channel st = true <-> is_Some (find_chat server channel st).
Proof. apply existsb_find. Qed.

Lemma chat_exists_app server channel st l :
  existsb (is_chat server channel) (_chats st ++ l)
  = chat_exists server channel st || existsb (is_chat server channel) l.
Proof. apply existsb_app. Qed.

Lemma is_chat_new_chat server channel is_private :
  is_chat server channel (new_chat channel server is_private) = true.
Proof. apply is_chat_true. split; reflexivity. Qed.

Lemma add_server_active server st : active_chat (add_server server st).2 = active_chat st.
Proof. unfold add_server. destruct (chat_exists server server st); reflexivity. Qed.

Lemma add_server_chats server st :
  _chats (add_server server st).2
  = _chats st ++ (if chat_exists server server st then [] else [new_chat server server false]).
Proof.
  unfold add_server. destruct (chat_exists server server st); simpl;
    [rewrite app_nil_r|]; reflexivity.
Qed.

Lemma add_server_model_of server server' channel st :
  chat_model_of server' channel (add_server server st).2 = chat_model_of server' channel st.
Proof.
  unfold add_server, chat_model_of. destruct (chat_exists server server st); simpl;
    [reflexivity | apply model_of_ensure_server].
Qed.

Lemma add_channel_active server channel is_private now st :
  active_chat (add_channel server channel is_private now st).2 = active_chat st.
Proof.
  unfold add_channel. destruct (chat_exists server channel st); [reflexivity|].
  destruct (chat_exists server server st); [reflexivity|].
  simpl. apply add_server_active.
Qed.

(** The rows after [add_channel]: nothing is added when the chat has a
    row; otherwise the server's row is added when it is missing, and then
    the row of the chat. *)
Lemma add_channel_chats server channel is_private now st :
  _chats (add_channel server channel is_private now st).2
  = if chat_exists server channel st then _chats st
    else _chats st
         ++ (if chat_exists server server st then [] else [new_chat server server false])
         ++ [new_chat channel server is_private].
Proof.
  unfold add_channel. destruct (chat_exists server channel st); [reflexivity|].
  simpl. destruct (chat_exists server server st) eqn:Hs; simpl.
  - reflexivity.
  - rewrite add_server_chats, Hs, <- app_assoc. reflexivity.
Qed.

Lemma add_channel_model server channel is_private now st :
  chat_model_of server channel (add_channel server channel is_private now st).2
  = Some (if chat_exists server channel st
          then default (new_ChatModel "" now) (chat_model_of server channel st)
          else new_ChatModel "" now).
Proof.
  unfold add_channel, chat_model_of. destruct (chat_exists server channel st); simpl.
  - apply model_of_ensure_model.
  - apply model_of_put_model.
Qed.

Lemma add_channel_model_other server channel server' channel' is_private now st :
  (server', channel') <> (server, channel) ->
  chat_model_of server' channel' (add_channel server channel is_private now st).2
  = chat_model_of server' channel' st.
Proof.
  intros Hne. unfold add_channel, chat_model_of.
  destruct (chat_exists server channel st); simpl.
  - apply model_of_ensure_model_ne. assumption.
  - rewrite model_of_put_model_ne, model_of_ensure_server by assumption.
    destruct (chat_exists server server st); [reflexivity|].
    apply add_server_model_of.
Qed.

Lemma add_channel_exists server channel is_private now st :
  chat_exists server channel (add_channel server channel is_private now st).2 = true.
Proof.
  unfold chat_exists at 1. rewrite add_channel_chats.
  destruct (chat_exists server channel st) eqn:He; [exact He|].
  rewrite !existsb_app. simpl. rewrite is_chat_new_chat.
  rewrite !orb_true_r. reflexivity.
Qed.

(** A chat that had no row gets a row with no unread message. *)
Lemma add_channel_find_fresh server channel is_private now st :
  chat_exists server channel st = false ->
  exists chat, find_chat server channel (add_channel server channel is_private now st).2
               = Some chat /\ unread_count chat = 0%nat.
Proof.
  intros He. unfold find_chat. rewrite add_channel_chats, He.
  assert (List.find (is_chat server channel) (_chats st) = None) as Hnone.
  { destruct (List.find (is_chat server channel) (_chats st)) eqn:Hf; [|reflexivity].
    assert (chat_exists server channel st = true) as Ht.
    { apply chat_exists_find. unfold find_chat. rewrite Hf. eauto. }
    congruence. }
  assert (forall l1 l2 : list Chat, List.find (is_chat server channel) l1 = None ->
            List.find (is_chat server channel) (l1 ++ l2) = List.find (is_chat server channel) l2)
    as Happ.
  { induction l1 as [|c l1 IH]; simpl; intros l2 H; [reflexivity|].
    destruct (is_chat server channel c); [discriminate | auto]. }
  rewrite (Happ _ _ Hnone).
  destruct (chat_exists server server st); simpl.
  - rewrite is_chat_new_chat. eauto.
  - destruct (is_chat server channel (new_chat server server false)); [eauto|].
    rewrite is_chat_new_chat. eauto.
Qed.

(** A chat that has a row keeps its rows and its model: the call changes
    nothing once the model is there. *)
Lemma add_channel_present server channel is_private now st :
  chat_exists server channel st = true ->
  is_Some (chat_model_of server channel st) ->
  (add_channel server channel is_private now st).2 = st.
Proof.
  intros He Hm. unfold add_channel. rewrite He. simpl.
  rewrite ensure_model_present by exact Hm. destruct st; reflexivity.
Qed.

(** [add_channel] twice is [add_channel] once. *)
Lemma add_channel_idempotent server channel is_private is_private' now now' st :
  (add_channel server channel is_private' now'
     (add_channel server channel is_private now st).2).2
  = (add_channel server channel is_private now st).2.
Proof.
  apply add_channel_present.
  - apply add_channel_exists.
  - rewrite add_channel_model. eauto.
Qed.

Lemma count_chats_app server channel (l1 l2 : list Chat) :
  length (List.filter (is_chat server channel) (l1 ++ l2))
  = (length (List.filter (is_chat server channel) l1)
     + length (List.filter (is_chat server channel) l2))%nat.
Proof. rewrite List.filter_app, length_app. reflexivity. Qed.

(** Rows of a chat whose name is not its server's: one after the call
    when there was none. *)
Lemma add_channel_count_fresh server channel is_private now st :
  chat_exists server channel st = false ->
  server <> channel ->
  count_chats server channel (add_channel server channel is_private now st).2 = 1%nat.
Proof.
  intros He Hne. unfold count_chats. rewrite add_channel_chats, He.
  rewrite !count_chats_app. rewrite (existsb_filter_length _ _ He).
  assert (is_chat server channel (new_chat server server false) = false) as Hs.
  { destruct (is_chat server channel (new_chat server server false)) eqn:H; [|reflexivity].
    apply is_chat_true in H as [_ H]. simpl in H. congruence. }
  destruct (chat_exists server server st); simpl; [|rewrite Hs];
    rewrite is_chat_new_chat; reflexivity.
Qed.

End create.

(** ** Activating a chat *)

Section activate.
Import models observe.

Lemma not_active_eq server channel st st' :
  active_chat st' = active_chat st ->
  not_active server channel st' = not_active server channel st.
Proof. unfold active_chat, not_active. intros [= -> ->]. reflexivity. Qed.

Lemma clear_unread_is_chat server channel chat :
  is_chat server channel (clear_unread chat) = is_chat server channel chat.
Proof. unfold clear_unread. destruct (0 <? unread_count chat)%nat; reflexivity. Qed.

Lemma clear_unread_unread chat : unread_count (clear_unread chat) = 0%nat.
Proof.
  unfold clear_unread. destruct (0 <? unread_count chat)%nat eqn:H; [reflexivity|].
  apply Nat.ltb_ge in H. lia.
Qed.

Lemma clear_unread_zero chat : unread_count chat = 0%nat -> clear_unread chat = chat.
Proof. unfold clear_unread. intros ->. reflexivity. Qed.

Lemma update_first_fixed (p : Chat -> bool) (f : Chat -> Chat) l chat :
  List.find p l = Some chat -> f chat = chat -> update_first p f l = l.
Proof.
  induction l as [|c l IH]; simpl; [discriminate|].
  destruct (p c); [intros [= ->] ->; reflexivity | intros H1 H2; f_equal; auto].
Qed.

(** What [set_active_chat] does when both names are non-empty: the chat
    is created by [add_channel] when it has no row, the pointer is set,
    the model is made sure of, the unread count of the chat's row is
    cleared, and the change of the pointer is announced. *)
Lemma set_active_chat_truthy server channel now st :
  server <> "" -> channel <> "" ->
  set_active_chat server channel now st =
    let st0 := if chat_exists server channel st then st
               else (add_channel server channel false now st).2 in
    (true,
     set_chats (update_first (is_chat server channel) clear_unread (_chats st0))
       (set_chat_models (ensure_model server channel now (_chat_models st0))
          (set_active (Some server) (Some channel) st0)),
     if not_active server channel st then [activeChannelChanged server channel] else []).
Proof.
  intros Hs%truthy_true Hc%truthy_true. unfold set_active_chat. rewrite Hs, Hc.
  destruct (chat_exists server channel st) eqn:He; simpl.
  - reflexivity.
  - pose proof (add_channel_active server channel false now st) as Ha.
    unfold active_chat in Ha. injection Ha as Ha1 Ha2.
    unfold not_active. rewrite Ha1, Ha2. reflexivity.
Qed.

(** With an empty channel name the pointer is set and nothing else
    changes; no chat is created and no unread count is cleared. *)
Lemma set_active_chat_empty_channel server now st :
  set_active_chat server "" now st =
    (true, set_active (Some server) (Some "") st,
     if not_active server "" st then [activeChannelChanged server ""] else []).
Proof.
  unfold set_active_chat. simpl. rewrite !andb_false_r. reflexivity.
Qed.

(** With an empty server name and a channel that has no row the call is
    refused. *)
Lemma set_active_chat_empty_server channel now st :
  channel <> "" -> chat_exists "" channel st = false ->
  set_active_chat "" channel now st = (false, st, []).
Proof.
  intros Hc%truthy_true He. unfold set_active_chat. rewrite He, Hc. reflexivity.
Qed.

Lemma set_active_chat_unread server channel now st :
  server <> "" -> channel <> "" ->
  unread_of server channel (set_active_chat server channel now st).1.2 = Some 0%nat.
Proof.
  intros Hs Hc. rewrite set_active_chat_truthy by assumption. simpl.
  unfold unread_of, find_chat. simpl.
  rewrite find_update_first by (intros c; rewrite clear_unread_is_chat; auto).
  assert (is_Some (List.find (is_chat server channel)
            (_chats (if chat_exists server channel st then st
                     else (add_channel server channel false now st).2)))) as [chat Hf].
  { apply existsb_find. destruct (chat_exists server channel st) eqn:He; [exact He|].
    apply add_channel_exists. }
  rewrite Hf. simpl. rewrite clear_unread_unread. reflexivity.
Qed.

End activate.

(** ** Unread counts *)

Section unread.
Import models observe.

Lemma add_message_to_chat_unread server channel sender content now st u :
  unread_of server channel st = Some u ->
  unread_of server channel (add_message_to_chat server channel sender content now st).2
  = Some (if not_active server channel st then S u else u).
Proof.
  unfold unread_of. rewrite add_message_to_chat_find.
  destruct (find_chat server channel st) as [chat|]; simpl; [|discriminate].
  intros [= <-]. destruct (not_active server channel st); reflexivity.
Qed.

Lemma append_all_cons server channel call calls st :
  append_all server channel (call :: calls) st
  = append_all server channel calls
      (add_message_to_chat server channel call.1.1 call.1.2 call.2 st).2.
Proof. reflexivity. Qed.

Lemma append_all_active server channel calls st :
  active_chat (append_all server channel calls st) = active_chat st.
Proof.
  revert st. induction calls as [|call calls IH]; intros st; [reflexivity|].
  rewrite append_all_cons, IH. apply add_message_to_chat_active.
Qed.

Lemma append_all_unread server channel calls st u :
  unread_of server channel st = Some u ->
  unread_of server channel (append_all server channel calls st)
  = Some (if not_active server channel st then (u + length calls)%nat else u).
Proof.
  revert st u. induction calls as [|call calls IH]; intros st u Hu.
  - simpl. rewrite Hu, Nat.add_0_r. destruct (not_active server channel st); reflexivity.
  - rewrite append_all_cons.
    rewrite (IH _ _ (add_message_to_chat_unread _ _ _ _ _ _ _ Hu)).
    rewrite (not_active_eq _ _ _ _ (add_message_to_chat_active _ _ _ _ _ _)).
    destruct (not_active server channel st); [simpl; f_equal; lia | reflexivity].
Qed.

Lemma append_all_history_length server channel calls st :
  length (history server channel (append_all server channel calls st))
  = (length (history server channel st) + length calls)%nat.
Proof.
  revert st. induction calls as [|call calls IH]; intros st; [simpl; lia|].
  rewrite append_all_cons, IH, add_message_to_chat_history, length_app. simpl. lia.
Qed.

End unread.

(** ** Claims on the chat store *)

Section store_claims.
Import models observe examples.

(** C10. Frame of [add_message_to_chat]: for a chat identity other than
    the one addressed, the call leaves its model (history and stamps) and
    its row (unread count and fields) as they were; every row that is not
    a row of the addressed chat stays in its place, no row is added or
    removed, and the active-chat pointer is unchanged. In the addressed
    row only the unread count, the preview and its time may change. *)
Theorem C10_add_message_to_chat_frame
    server channel sender content now st server' channel' :
  (server', channel') <> (server, channel) ->
  let st' := (add_message_to_chat server channel sender content now st).2 in
  chat_model_of server' channel' st' = chat_model_of server' channel' st
  /\ history server' channel' st' = history server' channel' st
  /\ find_chat server' channel' st' = find_chat server' channel' st
  /\ (forall i chat, _chats st !! i = Some chat ->
        is_chat server channel chat = false -> _chats st' !! i = Some chat)
  /\ length (_chats st') = length (_chats st)
  /\ active_chat st' = active_chat st
  /\ (forall chat', find_chat server channel st' = Some chat' ->
        exists chat, find_chat server channel st = Some chat
                     /\ name chat' = name chat
                     /\ models.server chat' = models.server chat
                     /\ is_private chat' = is_private chat).
Proof.
  intros Hne st'. subst st'.
  repeat split.
  - apply add_message_to_chat_model_other. assumption.
  - unfold history. rewrite add_message_to_chat_model_other by assumption. reflexivity.
  - apply add_message_to_chat_find_other. assumption.
  - intros i chat Hi Hc. rewrite add_message_to_chat_chats.
    apply update_first_lookup_other; assumption.
  - rewrite add_message_to_chat_chats. apply update_first_length.
  - apply add_message_to_chat_active.
  - intros chat'. rewrite add_message_to_chat_find.
    destruct (find_chat server channel st) as [chat|]; simpl; [|discriminate].
    intros [= <-]. exists chat. repeat split.
Qed.

Lemma C10_add_message_to_chat_frame_witness :
  (irc, irc) <> (irc, "#general")
  /\ let st' := (add_message_to_chat irc "#general" "bob" "hi" 0 joined).2 in
     find_chat irc irc st' = find_chat irc irc joined
     /\ active_chat st' = active_chat joined.
Proof.
  split; [discriminate|].
  pose proof (C10_add_message_to_chat_frame irc "#general" "bob" "hi" 0 joined irc irc)
    as H.
  destruct H as (_ & _ & Hrow & _ & _ & Hact & _); [discriminate|].
  split; [exact Hrow | exact Hact].
Defined.

(** C1 (as amended). For a chat that has a row in the chat list, a
    sequence of [add_message_to_chat] calls addressed to it raises its
    unread count by the number of calls when the chat is not the active
    one, and leaves the count as it was when the chat is the active one;
    the history grows by the number of calls either way. When the names of
    the server and of the channel are not empty, [set_active_chat] on the
    chat then brings the count to zero. *)
Theorem C1_unread_counts_appends server channel calls st chat :
  find_chat server channel st = Some chat ->
  let st' := append_all server channel calls st in
  (not_active server channel st = true ->
     unread_of server channel st' = Some (unread_count chat + length calls)%nat)
  /\ (not_active server channel st = false ->
        unread_of server channel st' = Some (unread_count chat))
  /\ length (history server channel st')
     = (length (history server channel st) + length calls)%nat
  /\ (server <> "" -> channel <> "" -> forall now,
        unread_of server channel (set_active_chat server channel now st').1.2 = Some 0%nat).
Proof.
  intros Hf st'. subst st'.
  assert (unread_of server channel st = Some (unread_count chat)) as Hu.
  { unfold unread_of. rewrite Hf. reflexivity. }
  pose proof (append_all_unread server channel calls st _ Hu) as H.
  repeat split.
  - intros Hn. rewrite Hn in H. exact H.
  - intros Hn. rewrite Hn in H. exact H.
  - apply append_all_history_length.
  - intros Hs Hc now. apply set_active_chat_unread; assumption.
Qed.

Lemma C1_unread_counts_appends_witness :
  find_chat irc "#general" joined = Some (new_chat "#general" irc false)
  /\ not_active irc "#general" joined = true
  /\ unread_of irc "#general"
       (append_all irc "#general" [("bob", "hi", 1); ("eve", "yo", 2)] joined)
     = Some 2%nat
  /\ unread_of irc "#general"
       (set_active_chat irc "#general" 3
          (append_all irc "#general" [("bob", "hi", 1); ("eve", "yo", 2)] joined)).1.2
     = Some 0%nat.
Proof.
  pose proof (C1_unread_counts_appends irc "#general"
                [("bob", "hi", 1); ("eve", "yo", 2)] joined
                (new_chat "#general" irc false) eq_refl) as (Hcount & _ & _ & Hreset).
  split; [reflexivity|]. split; [reflexivity|].
  split; [exact (Hcount eq_refl)|].
  apply Hreset; discriminate.
Defined.

(** C1 fails as stated. A message appended to a chat that has no row is
    stored in its history, but no unread count is kept for it; and a chat
    with an empty channel name keeps its unread count when it is
    activated. *)
Lemma C1_counterexample :
  (let st := append_all irc "#general" [("bob", "hi", 0)] new_ChatListModel in
   not_active irc "#general" new_ChatListModel = true
   /\ length (history irc "#general" st) = 1%nat
   /\ unread_of irc "#general" st <> Some 1%nat)
  /\ (let st := append_all irc "" [("bob", "hi", 0)]
                  (add_channel irc "" false 0 new_ChatListModel).2 in
      not_active irc "" (add_channel irc "" false 0 new_ChatListModel).2 = true
      /\ unread_of irc "" st = Some 1%nat
      /\ unread_of irc "" (set_active_chat irc "" 0 st).1.2 <> Some 0%nat).
Proof.
  split; vm_compute; repeat split; discriminate.
Qed.

End store_claims.

(** ** Removing a server *)

Section remove.
Import models observe.

Lemma del_index_cons i c (l : list Chat) : del_index (S i) (c :: l) = c :: del_index i l.
Proof. reflexivity. Qed.

Lemma indices_of_server_shift server i l :
  indices_of_server server (S i) l = map S (indices_of_server server i l).
Proof.
  revert i. induction l as [|c l IH]; intros i; simpl; [reflexivity|].
  destruct (models.server c =? server)%string; simpl; rewrite IH; reflexivity.
Qed.

Lemma fold_del_index_shift js c (l : list Chat) :
  fold_left (fun l i => del_index i l) (map S js) (c :: l)
  = c :: fold_left (fun l i => del_index i l) js l.
Proof.
  revert l. induction js as [|j js IH]; intros l; simpl; [reflexivity|].
  rewrite del_index_cons. apply IH.
Qed.

(** Deleting the collected rows from the last to the first leaves the
    rows of the other servers, in their order. *)
Lemma remove_rows_filter server l :
  fold_left (fun l i => del_index i l) (rev (indices_of_server server 0 l)) l
  = List.filter (fun chat => negb (models.server chat =? server)%string) l.
Proof.
  induction l as [|c l IH]; simpl; [reflexivity|].
  rewrite indices_of_server_shift.
  destruct (models.server c =? server)%string; simpl.
  - rewrite fold_left_app, <- map_rev, fold_del_index_shift. simpl.
    unfold del_index. simpl. rewrite drop_0. exact IH.
  - rewrite <- map_rev, fold_del_index_shift. f_equal. exact IH.
Qed.

Lemma indices_of_server_nil server i l :
  indices_of_server server i l = [] <->
  existsb (fun chat => (models.server chat =? server)%string) l = false.
Proof.
  revert i. induction l as [|c l IH]; intros i; simpl; [tauto|].
  destruct (models.server c =? server)%string; simpl; [split; discriminate | apply IH].
Qed.

Lemma remove_server_no_row server st :
  existsb (fun chat => (models.server chat =? server)%string) (_chats st) = false ->
  remove_server server st = (false, st, []).
Proof.
  intros H. unfold remove_server.
  apply (indices_of_server_nil server 0) in H. rewrite H. reflexivity.
Qed.

Lemma remove_server_rows server st :
  existsb (fun chat => (models.server chat =? server)%string) (_chats st) = true ->
  remove_server server st =
    let st1 :=
      set_chat_models (delete server (_chat_models st))
        (set_chats
           (List.filter (fun chat => negb (models.server chat =? server)%string) (_chats st))
           st) in
    if negb (opt_str_ne (_active_server st) server)
    then (true, set_active None None st1, [activeChannelChanged "" ""])
    else (true, st1, []).
Proof.
  intros H. unfold remove_server.
  destruct (indices_of_server server 0 (_chats st)) eqn:Hi.
  - apply indices_of_server_nil in Hi. congruence.
  - rewrite <- Hi, remove_rows_filter. reflexivity.
Qed.

Lemma filter_no_row server l :
  existsb (fun chat => (models.server chat =? server)%string) l = false ->
  List.filter (fun chat => negb (models.server chat =? server)%string) l = l.
Proof.
  induction l as [|c l IH]; simpl; [reflexivity|].
  destruct (models.server c =? server)%string; simpl; [discriminate|].
  intros H. f_equal. auto.
Qed.

End remove.

(** ** Claims on activation, creation and removal *)

Section store_claims_2.
Import models observe examples.

(** C4 (as amended). For a server name and a channel name that are both
    non-empty, [set_active_chat] succeeds; when the chat has no row it is
    first created by [add_channel] with a fresh model, otherwise its rows
    are kept and only the unread count of its row is cleared; afterwards
    the chat has a row and a model, its unread count is zero, the pointer
    names the pair, and [activeChannelChanged(server, channel)] is emitted
    exactly when the pointer named another pair (or none) before. *)
Theorem C4_set_active_chat server channel now st :
  server <> "" -> channel <> "" ->
  let r := set_active_chat server channel now st in
  let st' := r.1.2 in
  r.1.1 = true
  /\ (chat_exists server channel st = false ->
        _chats st' = _chats (add_channel server channel false now st).2
        /\ chat_model_of server channel st' = Some (new_ChatModel "" now))
  /\ (chat_exists server channel st = true ->
        _chats st' = update_first (is_chat server channel) clear_unread (_chats st)
        /\ chat_model_of server channel st'
           = Some (default (new_ChatModel "" now) (chat_model_of server channel st)))
  /\ chat_exists server channel st' = true
  /\ unread_of server channel st' = Some 0%nat
  /\ active_chat st' = (Some server, Some channel)
  /\ (active_chat st <> (Some server, Some channel) ->
        r.2 = [activeChannelChanged server channel])
  /\ (active_chat st = (Some server, Some channel) -> r.2 = []).
Proof.
  intros Hs Hc r st'.
  pose proof (set_active_chat_unread server channel now st Hs Hc) as Hu.
  subst st' r. rewrite set_active_chat_truthy in * by assumption. simpl in *.
  split; [reflexivity|].
  split; [|split; [|split; [|split; [exact Hu|split; [reflexivity|split]]]]].
  - intros He. rewrite He. split.
    + destruct (add_channel_find_fresh server channel false now st He) as (chat & Hf & H0).
      apply (update_first_fixed _ _ _ chat); [exact Hf | apply clear_unread_zero; exact H0].
    + unfold chat_model_of. simpl. rewrite model_of_ensure_model.
      pose proof (add_channel_model server channel false now st) as Hm.
      unfold chat_model_of in Hm. rewrite Hm, He. reflexivity.
  - intros He. rewrite He. split; [reflexivity|].
    unfold chat_model_of. simpl. apply model_of_ensure_model.
  - destruct (chat_exists server channel st) eqn:He; unfold chat_exists; simpl;
      rewrite existsb_update_first by (intros c; apply clear_unread_is_chat);
      [exact He | apply add_channel_exists].
  - intros Ha. destruct (not_active server channel st) eqn:Hn; [reflexivity|].
    apply not_active_false in Hn. contradiction.
  - intros Ha. apply not_active_false in Ha. rewrite Ha. reflexivity.
Qed.

Lemma C4_set_active_chat_witness :
  irc <> "" /\ "#general" <> ""
  /\ unread_of irc "#general" (set_active_chat irc "#general" 0 new_ChatListModel).1.2
     = Some 0%nat
  /\ (set_active_chat irc "#general" 0 new_ChatListModel).2
     = [activeChannelChanged irc "#general"].
Proof.
  assert (irc <> "") as Hs by discriminate.
  assert ("#general" <> "") as Hc by discriminate.
  pose proof (C4_set_active_chat irc "#general" 0 new_ChatListModel Hs Hc) as H.
  destruct H as (_ & _ & _ & _ & Hu & _ & He & _).
  split; [exact Hs|]. split; [exact Hc|]. split; [exact Hu|].
  apply He. discriminate.
Defined.

(** C4 fails as stated. With an empty server name the call is refused:
    the chat is not created and nothing is announced although the pair
    differs from the active one. With an empty channel name the pointer
    moves but no chat is created. *)
Lemma C4_counterexample :
  (set_active_chat "" "#general" 0 new_ChatListModel = (false, new_ChatListModel, [])
   /\ active_chat new_ChatListModel <> (Some "", Some "#general"))
  /\ (let st' := (set_active_chat irc "" 0 new_ChatListModel).1.2 in
      chat_exists irc "" st' = false /\ chat_model_of irc "" st' = None).
Proof.
  split; split; try reflexivity. discriminate.
Qed.

(** C3 (the code misses a case). [add_channel] called twice with one
    identity leaves the store as the first call left it, but when the
    channel is named as its server and the server has no row yet, the
    first call adds the server's row and then a second row with the same
    identity: two rows, not one. *)
Theorem C3_add_channel_twice_same_name :
  let st1 := (add_channel irc irc false 0 new_ChatListModel).2 in
  let st2 := (add_channel irc irc false 1 st1).2 in
  st2 = st1 /\ count_chats irc irc st2 = 2%nat.
Proof.
  split; [apply add_channel_idempotent | reflexivity].
Qed.

(** C5 (as amended). [remove_server] leaves exactly the rows of the other
    servers, in their order. When the server has a row, the call
    succeeds, drops the server's models and keeps those of the other
    servers, and, if the pointer names the server, empties the pointer
    and emits [activeChannelChanged("", "")] once. When the pointer does
    not name the server it is left alone and nothing is emitted. When the
    server has no row the call fails and changes nothing. *)
Theorem C5_remove_server server st :
  let r := remove_server server st in
  let st' := r.1.2 in
  _chats st'
  = List.filter (fun chat => negb (models.server chat =? server)%string) (_chats st)
  /\ (forall chat, In chat (_chats st') -> models.server chat <> server)
  /\ (existsb (fun chat => (models.server chat =? server)%string) (_chats st) = true ->
        r.1.1 = true
        /\ _chat_models st' !! server = None
        /\ (forall server', server' <> server ->
              _chat_models st' !! server' = _chat_models st !! server')
        /\ (_active_server st = Some server ->
              active_chat st' = (None, None) /\ r.2 = [activeChannelChanged "" ""]))
  /\ (_active_server st <> Some server -> active_chat st' = active_chat st /\ r.2 = [])
  /\ (existsb (fun chat => (models.server chat =? server)%string) (_chats st) = false ->
        r = (false, st, [])).
Proof.
  intros r st'. subst st' r.
  destruct (existsb (fun chat => (models.server chat =? server)%string) (_chats st)) eqn:He.
  - rewrite (remove_server_rows _ _ He). simpl.
    assert (forall l, forall chat,
              In chat (List.filter (fun chat => negb (models.server chat =? server)%string) l)
              -> models.server chat <> server) as Hin.
    { intros l chat [_ H]%List.filter_In. apply negb_true_iff, String.eqb_neq in H. exact H. }
    destruct (opt_str_ne (_active_server st) server) eqn:Ha; simpl.
    + assert (_active_server st <> Some server) as Hne.
      { intros H. apply opt_str_ne_false in H. congruence. }
      repeat split; try (apply Hin); try discriminate; try contradiction.
      * apply lookup_delete_eq.
      * intros s' Hs'. apply lookup_delete_ne. congruence.
    + apply opt_str_ne_false in Ha.
      repeat split; try (apply Hin); try discriminate; try contradiction.
      * apply lookup_delete_eq.
      * intros s' Hs'. apply lookup_delete_ne. congruence.
  - rewrite (remove_server_no_row _ _ He). simpl.
    rewrite (filter_no_row _ _ He).
    repeat split; try discriminate.
    intros chat Hin Heq.
    assert (existsb (fun chat => (models.server chat =? server)%string) (_chats st) = true).
    { apply existsb_exists. exists chat. split; [exact Hin | apply String.eqb_eq; exact Heq]. }
    congruence.
Qed.

Lemma C5_remove_server_witness :
  existsb (fun chat => (models.server chat =? irc)%string) (_chats joined) = true
  /\ _chats (remove_server irc joined).1.2 = []
  /\ _chat_models (remove_server irc joined).1.2 !! irc = None.
Proof.
  pose proof (C5_remove_server irc joined) as (Hrows & _ & Hhas & _).
  destruct (Hhas eq_refl) as (_ & Hm & _).
  split; [reflexivity|]. split; [exact Hrows | exact Hm].
Defined.

(** C5 fails as stated. In [unlisted_active] the pointer names the server
    and a chat of the server holds a message, but the server has no row:
    [remove_server] fails, the pointer and the chat stay, nothing is
    emitted. *)
Lemma C5_counterexample :
  _active_server unlisted_active = Some irc
  /\ length (history irc "bob" unlisted_active) = 1%nat
  /\ remove_server irc unlisted_active = (false, unlisted_active, []).
Proof.
  repeat split.
Qed.

End store_claims_2.

(** ** The refresh check of a chat model *)

Section refresh.
Import models observe.

(** [newest] is a message of the list and no message is later. *)
Lemma newest_in m0 rest : In (newest m0 rest) (m0 :: rest).
Proof.
  unfold newest. revert m0. induction rest as [|x rest IH]; intros m0; simpl.
  - left. reflexivity.
  - destruct (IH (if timestamp m0 <? timestamp x then x else m0)) as [H|H].
    + rewrite <- H. destruct (timestamp m0 <? timestamp x); auto.
    + right. right. exact H.
Qed.

Lemma newest_ge_first m0 rest : timestamp m0 <= timestamp (newest m0 rest).
Proof.
  unfold newest. revert m0. induction rest as [|x rest IH]; intros m0; simpl; [lia|].
  specialize (IH (if timestamp m0 <? timestamp x then x else m0)).
  destruct (timestamp m0 <? timestamp x) eqn:H; [apply Z.ltb_lt in H; lia | exact IH].
Qed.

Lemma newest_max m0 rest msg :
  In msg (m0 :: rest) -> timestamp msg <= timestamp (newest m0 rest).
Proof.
  revert m0. induction rest as [|x rest IH]; intros m0 Hin.
  - destruct Hin as [<-|[]]. simpl. lia.
  - unfold newest. simpl. fold (newest (if timestamp m0 <? timestamp x then x else m0) rest).
    destruct Hin as [<-|[<-|Hin]].
    + pose proof (newest_ge_first (if timestamp m0 <? timestamp x then x else m0) rest) as H.
      destruct (timestamp m0 <? timestamp x) eqn:Hlt; [apply Z.ltb_lt in Hlt; lia | exact H].
    + pose proof (newest_ge_first (if timestamp m0 <? timestamp x then x else m0) rest) as H.
      destruct (timestamp m0 <? timestamp x) eqn:Hlt; [exact H | apply Z.ltb_ge in Hlt; lia].
    + apply IH. right. exact Hin.
Qed.

(** The check succeeds exactly when some message is later than the
    model's stamp. *)
Lemma update_messages_if_needed_true m :
  (update_messages_if_needed m).1 = true <->
  exists msg, In msg (_messages m) /\ _last_update_timestamp m < timestamp msg.
Proof.
  unfold update_messages_if_needed.
  destruct (_messages m) as [|m0 rest] eqn:Hm; simpl.
  - split; [discriminate | intros (msg & [] & _)].
  - destruct (_last_update_timestamp m <? timestamp (newest m0 rest)) eqn:Hlt; simpl.
    + apply Z.ltb_lt in Hlt. split; [|reflexivity].
      intros _. exists (newest m0 rest). split; [apply newest_in | exact Hlt].
    + apply Z.ltb_ge in Hlt. split; [discriminate|].
      intros (msg & Hin & Hmsg). pose proof (newest_max m0 rest msg Hin). lia.
Qed.

Lemma new_ChatModel_covers own now : stamp_covers (new_ChatModel own now).
Proof. intros msg []. Qed.

Lemma add_message_covers sender content is_system t_msg t_upd m :
  stamp_covers m -> _last_update_timestamp m <= t_upd -> t_msg <= t_upd ->
  stamp_covers (add_message sender content is_system t_msg t_upd m).2.
Proof.
  intros Hc Hle Hmsg msg. simpl. rewrite in_app_iff. intros [Hin|[<-|[]]]; simpl.
  - specialize (Hc msg Hin). lia.
  - exact Hmsg.
Qed.

Lemma update_messages_if_needed_covered m :
  stamp_covers m -> update_messages_if_needed m = (false, m).
Proof.
  intros Hc. destruct (update_messages_if_needed m) as [b m'] eqn:H.
  destruct b.
  - assert ((update_messages_if_needed m).1 = true) as Ht by (rewrite H; reflexivity).
    apply update_messages_if_needed_true in Ht as (msg & Hin & Hlt).
    specialize (Hc msg Hin). lia.
  - unfold update_messages_if_needed in H. destruct (_messages m); [congruence|].
    destruct (_last_update_timestamp m <? _); congruence.
Qed.

(** C2 (as amended). [update_messages_if_needed] returns true exactly
    when some message of the history has a timestamp strictly after the
    model's own last-update stamp, and it then moves the stamp to the
    newest timestamp and leaves the history alone. [add_message] stamps
    the model itself, after the message has taken its timestamp: when no
    message is later than the new stamp, the check made after an append
    reports nothing and changes nothing. *)
Theorem C2_update_messages_if_needed m :
  ((update_messages_if_needed m).1 = true <->
   exists msg, In msg (_messages m) /\ _last_update_timestamp m < timestamp msg)
  /\ ((update_messages_if_needed m).1 = true ->
        _messages (update_messages_if_needed m).2 = _messages m
        /\ (forall msg, In msg (_messages m) ->
              timestamp msg <= _last_update_timestamp (update_messages_if_needed m).2)
        /\ exists msg, In msg (_messages m)
             /\ _last_update_timestamp (update_messages_if_needed m).2 = timestamp msg)
  /\ (forall sender content is_system t_msg t_upd,
        (forall msg, In msg (_messages m) -> timestamp msg <= t_upd) ->
        t_msg <= t_upd ->
        let m' := (add_message sender content is_system t_msg t_upd m).2 in
        update_messages_if_needed m' = (false, m')).
Proof.
  split; [apply update_messages_if_needed_true|]. split.
  - unfold update_messages_if_needed.
    destruct (_messages m) as [|m0 rest] eqn:Hm; simpl; [discriminate|].
    destruct (_last_update_timestamp m <? timestamp (newest m0 rest)); simpl; [|discriminate].
    intros _. split; [reflexivity|]. split.
    + intros msg Hin. apply newest_max. exact Hin.
    + exists (newest m0 rest). split; [apply newest_in | reflexivity].
  - intros sender content is_system t_msg t_upd Hall Hmsg m'. subst m'.
    apply update_messages_if_needed_covered.
    intros msg. simpl. rewrite in_app_iff. intros [Hin|[<-|[]]]; simpl; auto.
Qed.

Lemma C2_update_messages_if_needed_witness :
  let m' := (add_message "bob" "hi" false 5 6 (new_ChatModel "" 0)).2 in
  update_messages_if_needed m' = (false, m').
Proof.
  pose proof (C2_update_messages_if_needed (new_ChatModel "" 0)) as (_ & _ & H).
  apply (H "bob" "hi" false 5 6); [intros msg [] | lia].
Defined.

(** C2 fails as stated. A model made at time 0 receives a message at
    time 5; the message is later than the stamp the model had, yet the
    check made after the append reports nothing. *)
Lemma C2_counterexample :
  let m0 := new_ChatModel "" 0 in
  let m1 := (add_message "bob" "hi" false 5 5 m0).2 in
  _last_update_timestamp m0 < 5
  /\ (exists msg, In msg (_messages m1) /\ timestamp msg = 5)
  /\ (update_messages_if_needed m1).1 = false.
Proof.
  simpl. split; [lia|]. split; [|reflexivity].
  eexists. split; [left; reflexivity | reflexivity].
Qed.

End refresh.

(** ** The session registry *)

Section registry.
Import irc_client examples.

Lemma lookup_del_client server l : lookup_client server (del_client server l) = None.
Proof.
  induction l as [|[k client] l IH]; simpl; [reflexivity|].
  destruct (k =? server)%string eqn:Hk; simpl; [exact IH|].
  rewrite Hk. exact IH.
Qed.

Lemma lookup_del_client_ne server server' l :
  server' <> server ->
  lookup_client server' (del_client server l) = lookup_client server' l.
Proof.
  intros Hne. induction l as [|[k client] l IH]; simpl; [reflexivity|].
  destruct (k =? server)%string eqn:Hk; simpl.
  - apply String.eqb_eq in Hk. subst k.
    destruct (server =? server')%string eqn:Hs; [|exact IH].
    apply String.eqb_eq in Hs. congruence.
  - rewrite IH. reflexivity.
Qed.

(** C7 (as amended). [disconnect_from_server] on a server that has no
    session does nothing. On a server that has one it calls
    [connection.disconnect(message)]; when that call returns, the session
    is removed from the registry, the other sessions are kept, and
    [server_disconnected(server)] is emitted once; when that call raises,
    the exception escapes, the session stays in the registry and nothing
    is emitted. *)
Theorem C7_disconnect_from_server server message quit st :
  let r := disconnect_from_server server message quit st in
  (lookup_client server (clients st) = None -> r = (returned (), st, [], []))
  /\ (is_Some (lookup_client server (clients st)) -> quit = returns ->
        r.1.1.1 = returned ()
        /\ lookup_client server (clients r.1.1.2) = None
        /\ (forall server', server' <> server ->
              lookup_client server' (clients r.1.1.2) = lookup_client server' (clients st))
        /\ r.1.2 = [call_disconnect server message]
        /\ r.2 = [server_disconnected server])
  /\ (is_Some (lookup_client server (clients st)) -> quit = raises ->
        r = (raised, st, [call_disconnect server message], [])).
Proof.
  intros r. subst r. unfold disconnect_from_server.
  destruct (lookup_client server (clients st)) as [client|] eqn:Hl.
  - split; [discriminate|]. split; intros _ ->; simpl.
    + repeat split.
      * apply lookup_del_client.
      * intros server' Hne. apply lookup_del_client_ne. exact Hne.
    + reflexivity.
  - split; [reflexivity|]. split; intros [? [=]].
Qed.

Lemma C7_disconnect_from_server_witness :
  is_Some (lookup_client irc (clients connected))
  /\ lookup_client irc
       (clients (disconnect_from_server irc "Goodbye!" returns connected).1.1.2) = None
  /\ (disconnect_from_server irc "Goodbye!" returns connected).2 = [server_disconnected irc].
Proof.
  assert (is_Some (lookup_client irc (clients connected))) as Hs by (simpl; eauto).
  pose proof (C7_disconnect_from_server irc "Goodbye!" returns connected) as (_ & H & _).
  destruct (H Hs eq_refl) as (_ & Hgone & _ & _ & Hsig).
  split; [exact Hs|]. split; [exact Hgone | exact Hsig].
Defined.

(** C7 fails as stated. When the quit notification raises, the session
    is still in the registry afterwards and no [server_disconnected] is
    emitted. *)
Lemma C7_counterexample :
  let r := disconnect_from_server irc "Goodbye!" raises connected in
  r.1.1.1 = raised
  /\ is_Some (lookup_client irc (clients r.1.1.2))
  /\ r.2 = [].
Proof.
  simpl. repeat split. eauto.
Qed.

End registry.

(** ** Slots of the controller *)

Section slots.
Import models observe app_controller.

Lemma set_own_nickname_messages nickname m :
  _messages (set_own_nickname nickname m) = _messages m.
Proof. unfold set_own_nickname. destruct (negb _); reflexivity. Qed.

Lemma update_channel_info_models server channel last_message sender is_unread now st :
  _chat_models (update_channel_info server channel last_message sender is_unread now st).2
  = _chat_models st.
Proof. unfold update_channel_info. destruct (chat_exists server channel st); reflexivity. Qed.

Lemma update_channel_info_missing server channel last_message sender is_unread now st :
  chat_exists server channel st = false ->
  update_channel_info server channel last_message sender is_unread now st = (false, st).
Proof. unfold update_channel_info. intros ->. reflexivity. Qed.

Lemma update_channel_info_active server channel last_message sender is_unread now st :
  active_chat (update_channel_info server channel last_message sender is_unread now st).2
  = active_chat st.
Proof. unfold update_channel_info. destruct (chat_exists server channel st); reflexivity. Qed.

(** The model of the chat after [_on_message_received]: the one that was
    there (or a fresh one), under the controller's nickname, with the
    message appended. *)
Lemma _on_message_received_model server channel sender message now st :
  chat_model_of server channel
    (_chat_list_model (_on_message_received server channel sender message now st).1)
  = Some (add_message sender message false now now
            (set_own_nickname (_nickname st)
               (default (new_ChatModel "" now)
                  (chat_model_of server channel (_chat_list_model st))))).2.
Proof.
  unfold _on_message_received.
  pose proof (get_chat_model_fst server channel now (_chat_list_model st)) as Hf.
  destruct (get_chat_model server channel now (_chat_list_model st)) as [chat_model clm1].
  simpl in *. unfold chat_model_of. rewrite update_channel_info_models. simpl.
  rewrite model_of_put_model, Hf. reflexivity.
Qed.

Lemma _on_message_received_history server channel sender message now st :
  history server channel
    (_chat_list_model (_on_message_received server channel sender message now st).1)
  = history server channel (_chat_list_model st)
    ++ [{| sender := sender; content := message; timestamp := now; is_system := false |}].
Proof.
  unfold history. rewrite _on_message_received_model. simpl.
  rewrite set_own_nickname_messages.
  destruct (chat_model_of server channel (_chat_list_model st)); reflexivity.
Qed.

(** A chat without a row gets none from an incoming message. *)
Lemma _on_message_received_no_row server channel sender message now st :
  chat_exists server channel (_chat_list_model st) = false ->
  _chats (_chat_list_model (_on_message_received server channel sender message now st).1)
  = _chats (_chat_list_model st).
Proof.
  intros He. unfold _on_message_received.
  pose proof (get_chat_model_chats server channel now (_chat_list_model st)) as Hc.
  destruct (get_chat_model server channel now (_chat_list_model st)) as [chat_model clm1].
  simpl in *. rewrite update_channel_info_missing; [exact Hc|].
  unfold chat_exists. simpl. rewrite Hc. exact He.
Qed.

Lemma _on_message_received_signals server channel sender message now st :
  (_on_message_received server channel sender message now st).2
  = [messagesUpdated server channel].
Proof.
  unfold _on_message_received.
  destruct (get_chat_model server channel now (_chat_list_model st)). reflexivity.
Qed.

(** The rows and the model of the chat after [_on_channel_joined]. *)
Lemma _on_channel_joined_chats server channel now st :
  _chats (_chat_list_model (_on_channel_joined server channel now st).1)
  = _chats (add_channel server channel (is_private_name channel) now (_chat_list_model st)).2.
Proof.
  unfold _on_channel_joined.
  pose proof (get_chat_model_chats server channel now
                (add_channel server channel (is_private_name channel) now
                   (_chat_list_model st)).2) as Hc.
  destruct (get_chat_model server channel now _) as [chat_model clm2]. exact Hc.
Qed.

Lemma _on_channel_joined_model server channel now st :
  is_Some (chat_model_of server channel
             (_chat_list_model (_on_channel_joined server channel now st).1)).
Proof.
  unfold _on_channel_joined.
  destruct (get_chat_model server channel now _) as [chat_model clm2]. simpl.
  unfold chat_model_of. simpl. rewrite model_of_put_model. eauto.
Qed.

End slots.

(** ** Claims on sending and on first reference *)

Section controller_claims.
Import models observe app_controller examples.

(** C6 (as amended). [send_message] fails, without calling the
    connection and without emitting anything, when the server has no
    session and when the target is the server itself; the controller is
    then unchanged. Otherwise it calls [privmsg] once. When that call
    returns, the result is true and one [message_received] with the
    session's own nickname as sender is emitted; its slot appends exactly
    that one message to the history of the target chat. When that call
    raises, the result is false, nothing is emitted and nothing is
    appended. *)
Theorem C6_send_message server target message sent now st :
  let r := irc_client.send_message server target message sent (_irc_client st) in
  let st' := (deliver_all now r.2 st).1 in
  (irc_client.lookup_client server (irc_client.clients (_irc_client st)) = None ->
     r = (false, [], []) /\ st' = st)
  /\ (forall client,
        irc_client.lookup_client server (irc_client.clients (_irc_client st)) = Some client ->
        (target = server -> r = (false, [], []) /\ st' = st)
        /\ (target <> server -> sent = irc_client.returns ->
              r = (true, [irc_client.call_privmsg server target message],
                   [message_received server target (irc_client.nickname client) message])
              /\ history server target (_chat_list_model st')
                 = history server target (_chat_list_model st)
                   ++ [{| sender := irc_client.nickname client; content := message;
                          timestamp := now; is_system := false |}])
        /\ (target <> server -> sent = irc_client.raises ->
              r = (false, [irc_client.call_privmsg server target message], [])
              /\ st' = st)).
Proof.
  intros r st'. subst st' r. unfold irc_client.send_message.
  destruct (irc_client.lookup_client server (irc_client.clients (_irc_client st)))
    as [client|].
  - split; [discriminate|]. intros ? [= <-].
    destruct (target =? server)%string eqn:Ht.
    + apply String.eqb_eq in Ht. repeat split; congruence.
    + apply String.eqb_neq in Ht. split; [congruence|]. split; intros _ ->; simpl.
      * split; [reflexivity|].
        pose proof (_on_message_received_history server target
                      (irc_client.nickname client) message now st) as Hh.
        destruct (_on_message_received server target _ message now st) as [st1 out].
        exact Hh.
      * split; reflexivity.
  - split; [split; reflexivity | discriminate].
Qed.

Lemma C6_send_message_witness :
  irc_client.lookup_client irc (irc_client.clients (_irc_client online))
  = Some {| irc_client.nickname := "nick"; irc_client.socket := irc_client.open_fd |}
  /\ "#general" <> irc
  /\ history irc "#general"
       (_chat_list_model
          (deliver_all 7
             (irc_client.send_message irc "#general" "hi" irc_client.returns
                (_irc_client online)).2 online).1)
     = history irc "#general" (_chat_list_model online)
       ++ [{| sender := "nick"; content := "hi"; timestamp := 7; is_system := false |}].
Proof.
  assert ("#general" <> irc) as Hne by discriminate.
  pose proof (C6_send_message irc "#general" "hi" irc_client.returns 7 online) as (_ & H).
  destruct (H _ eq_refl) as (_ & Hok & _).
  destruct (Hok Hne eq_refl) as (_ & Hh).
  split; [reflexivity|]. split; [exact Hne | exact Hh].
Defined.

(** C6 fails as stated. The server has a session and the target is not
    the server, but [privmsg] raises: the call fails and no message is
    appended. *)
Lemma C6_counterexample :
  let r := irc_client.send_message irc "#general" "hi" irc_client.raises
             (_irc_client online) in
  is_Some (irc_client.lookup_client irc (irc_client.clients (_irc_client online)))
  /\ "#general" <> irc
  /\ r.1.1 = false
  /\ history irc "#general" (_chat_list_model (deliver_all 7 r.2 online).1) = [].
Proof.
  simpl. repeat split; [eauto | discriminate].
Qed.

End controller_claims.

Section first_reference.
Import models observe app_controller examples.

(** Activation of a chat that has no row: the rows and the model are
    those [add_channel] makes. *)
Lemma set_active_chat_fresh server channel now st :
  server <> "" -> channel <> "" -> chat_exists server channel st = false ->
  _chats (models.set_active_chat server channel now st).1.2
  = _chats (add_channel server channel false now st).2
  /\ chat_model_of server channel (models.set_active_chat server channel now st).1.2
     = Some (new_ChatModel "" now).
Proof.
  intros Hs Hc He. rewrite set_active_chat_truthy by assumption. simpl. rewrite He. split.
  - destruct (add_channel_find_fresh server channel false now st He) as (chat & Hf & H0).
    apply (update_first_fixed _ _ _ chat); [exact Hf | apply clear_unread_zero; exact H0].
  - unfold chat_model_of. simpl. rewrite model_of_ensure_model.
    pose proof (add_channel_model server channel false now st) as Hm.
    unfold chat_model_of in Hm. rewrite Hm, He. reflexivity.
Qed.

(** C8 (as amended). For a chat that has no row in the chat list:
    an incoming message appends itself to the chat's history, creating
    the model when there is none, and leaves the chat list as it was, so
    the chat still has no row; an own join gives the chat a row and a
    model; an activation with non-empty names gives the chat a row and a
    model. After the join and after the activation the chat has exactly
    one row when its name is not its server's. *)
Theorem C8_created_on_first_reference server target now st :
  chat_exists server target (_chat_list_model st) = false ->
  (forall sender text,
     let clm' := _chat_list_model (_on_message_received server target sender text now st).1 in
     history server target clm'
     = history server target (_chat_list_model st)
       ++ [{| sender := sender; content := text; timestamp := now; is_system := false |}]
     /\ is_Some (chat_model_of server target clm')
     /\ _chats clm' = _chats (_chat_list_model st)
     /\ count_chats server target clm' = 0%nat)
  /\ (let clm' := _chat_list_model (_on_channel_joined server target now st).1 in
      chat_exists server target clm' = true
      /\ is_Some (chat_model_of server target clm')
      /\ (server <> target -> count_chats server target clm' = 1%nat))
  /\ (server <> "" -> target <> "" ->
      let clm' := (models.set_active_chat server target now (_chat_list_model st)).1.2 in
      chat_exists server target clm' = true
      /\ is_Some (chat_model_of server target clm')
      /\ (server <> target -> count_chats server target clm' = 1%nat)).
Proof.
  intros He. split; [|split].
  - intros sender text clm'. subst clm'.
    split; [apply _on_message_received_history|]. split; [|split].
    + rewrite _on_message_received_model. eauto.
    + apply _on_message_received_no_row. exact He.
    + unfold count_chats. rewrite _on_message_received_no_row by exact He.
      apply existsb_filter_length. exact He.
  - intros clm'. subst clm'. split; [|split].
    + unfold chat_exists. rewrite _on_channel_joined_chats. apply add_channel_exists.
    + apply _on_channel_joined_model.
    + intros Hne. unfold count_chats. rewrite _on_channel_joined_chats.
      apply add_channel_count_fresh; assumption.
  - intros Hs Ht clm'. subst clm'.
    destruct (set_active_chat_fresh server target now (_chat_list_model st) Hs Ht He)
      as [Hrows Hmodel].
    split; [unfold chat_exists; rewrite Hrows; apply add_channel_exists|].
    split; [rewrite Hmodel; eauto|].
    intros Hne. unfold count_chats. rewrite Hrows.
    apply add_channel_count_fresh; assumption.
Qed.

Lemma C8_created_on_first_reference_witness :
  chat_exists irc "bob" (_chat_list_model online) = false
  /\ (let clm' := _chat_list_model (_on_message_received irc "bob" "bob" "hi" 3 online).1 in
      history irc "bob" clm'
      = [{| sender := "bob"; content := "hi"; timestamp := 3; is_system := false |}]
      /\ count_chats irc "bob" clm' = 0%nat)
  /\ count_chats irc "bob" (_chat_list_model (_on_channel_joined irc "bob" 3 online).1)
     = 1%nat.
Proof.
  pose proof (C8_created_on_first_reference irc "bob" 3 online eq_refl) as (Hmsg & Hjoin & _).
  destruct (Hmsg "bob" "hi") as (Hh & _ & _ & Hc).
  destruct Hjoin as (_ & _ & Hone).
  split; [reflexivity|]. split; [split; [exact Hh | exact Hc]|].
  apply Hone. discriminate.
Defined.

(** C8 fails as stated. After an incoming message for a chat that has no
    row, the message is in the chat's history but the chat list has no
    row for the chat. After an activation with an empty channel name the
    chat has neither a row nor a model. *)
Lemma C8_counterexample :
  (let clm' := _chat_list_model (_on_message_received irc "bob" "bob" "hi" 3 online).1 in
   chat_exists irc "bob" (_chat_list_model online) = false
   /\ length (history irc "bob" clm') = 1%nat
   /\ count_chats irc "bob" clm' = 0%nat)
  /\ (let clm' := (models.set_active_chat irc "" 3 (_chat_list_model online)).1.2 in
      chat_exists irc "" clm' = false /\ chat_model_of irc "" clm' = None).
Proof.
  split; repeat split.
Qed.

End first_reference.

(** ** The periodic check *)

Section check.
Import models observe app_controller.

Lemma untouched_refl server st : untouched server st st.
Proof. repeat split. Qed.

Lemma untouched_trans server st1 st2 st3 :
  untouched server st1 st2 -> untouched server st2 st3 -> untouched server st1 st3.
Proof.
  intros (H1 & H2 & H3 & H4) (G1 & G2 & G3 & G4). repeat split.
  - congruence.
  - intros c. rewrite G2. apply H2.
  - intros c. rewrite G3. apply H3.
  - congruence.
Qed.

(** A change of the chat list that keeps the models and rows of [server]
    and the pointer is a change that leaves [server] untouched. *)
Lemma untouched_chat_list server st clm :
  (forall channel, chat_model_of server channel clm
                   = chat_model_of server channel (_chat_list_model st)) ->
  (forall channel, find_chat server channel clm
                   = find_chat server channel (_chat_list_model st)) ->
  active_chat clm = active_chat (_chat_list_model st) ->
  untouched server st (with_chat_list_model clm st).
Proof. intros H1 H2 H3. repeat split; assumption. Qed.

Lemma find_app_other (q : Chat -> bool) (l1 l2 : list Chat) :
  existsb q l2 = false -> List.find q (l1 ++ l2) = List.find q l1.
Proof.
  intros H. induction l1 as [|c l1 IH]; simpl.
  - induction l2 as [|c l2 IH]; simpl in *; [reflexivity|].
    destruct (q c); [discriminate | auto].
  - destruct (q c); [reflexivity | exact IH].
Qed.

Lemma is_chat_other_server server server' channel channel' is_private :
  server <> server' -> is_chat server channel (new_chat channel' server' is_private) = false.
Proof.
  intros Hne. destruct (is_chat _ _ _) eqn:H; [|reflexivity].
  apply is_chat_true in H as [H _]. simpl in H. congruence.
Qed.

Lemma add_channel_find_other_server server server' channel channel' is_private now st :
  server <> server' ->
  find_chat server channel (add_channel server' channel' is_private now st).2
  = find_chat server channel st.
Proof.
  intros Hne. unfold find_chat. rewrite add_channel_chats.
  destruct (chat_exists server' channel' st); [reflexivity|].
  apply find_app_other. rewrite existsb_app. simpl.
  rewrite (is_chat_other_server _ _ _ _ _ Hne), orb_false_r.
  destruct (chat_exists server' server' st); simpl; [reflexivity|].
  rewrite (is_chat_other_server _ _ _ _ _ Hne). reflexivity.
Qed.

Lemma update_channel_info_find_other server channel server' channel'
    last_message sender is_unread now st :
  (server, channel) <> (server', channel') ->
  find_chat server channel
    (update_channel_info server' channel' last_message sender is_unread now st).2
  = find_chat server channel st.
Proof.
  intros Hne. unfold update_channel_info.
  destruct (chat_exists server' channel' st); [|reflexivity].
  unfold find_chat. simpl. apply find_update_first_other.
  - intros c. reflexivity.
  - intros c. apply is_chat_distinct. exact Hne.
Qed.

Lemma add_system_message_to_chat_chats server channel content now st :
  _chats (add_system_message_to_chat server channel content now st).2 = _chats st.
Proof.
  unfold add_system_message_to_chat.
  pose proof (get_chat_model_chats server channel now st) as Hc.
  destruct (get_chat_model server channel now st). exact Hc.
Qed.

Lemma add_system_message_to_chat_active server channel content now st :
  active_chat (add_system_message_to_chat server channel content now st).2 = active_chat st.
Proof.
  unfold add_system_message_to_chat.
  pose proof (get_chat_model_active server channel now st) as Ha.
  destruct (get_chat_model server channel now st). exact Ha.
Qed.

Lemma add_system_message_to_chat_model_other server channel server' channel' content now st :
  (server', channel') <> (server, channel) ->
  chat_model_of server' channel' (add_system_message_to_chat server channel content now st).2
  = chat_model_of server' channel' st.
Proof.
  intros Hne. unfold add_system_message_to_chat.
  pose proof (get_chat_model_other server channel server' channel' now st Hne) as Ho.
  destruct (get_chat_model server channel now st) as [chat_model st1]. simpl in *.
  unfold chat_model_of in *. simpl. rewrite model_of_put_model_ne by assumption. exact Ho.
Qed.

(** *** The slots leave the other servers untouched *)

Lemma _on_message_received_untouched server server' channel sender message now st :
  server <> server' ->
  untouched server st (_on_message_received server' channel sender message now st).1.
Proof.
  intros Hne. unfold _on_message_received.
  pose proof (get_chat_model_chats server' channel now (_chat_list_model st)) as Hc.
  pose proof (get_chat_model_active server' channel now (_chat_list_model st)) as Ha.
  pose proof (fun c => get_chat_model_other server' channel server c now (_chat_list_model st))
    as Ho.
  destruct (get_chat_model server' channel now (_chat_list_model st)) as [chat_model clm1].
  simpl in *. apply untouched_chat_list.
  - intros c. unfold chat_model_of in *. rewrite update_channel_info_models. simpl.
    rewrite model_of_put_model_ne by congruence. apply Ho. congruence.
  - intros c. rewrite update_channel_info_find_other by congruence.
    unfold find_chat. simpl. rewrite Hc. reflexivity.
  - rewrite update_channel_info_active. exact Ha.
Qed.

Lemma _on_server_connected_untouched server server' now st :
  server <> server' -> untouched server st (_on_server_connected server' now st).1.
Proof.
  intros Hne. unfold _on_server_connected. simpl. apply untouched_chat_list.
  - intros c. apply add_system_message_to_chat_model_other. congruence.
  - intros c. unfold find_chat. rewrite add_system_message_to_chat_chats. reflexivity.
  - apply add_system_message_to_chat_active.
Qed.

Lemma _on_channel_joined_untouched server server' channel now st :
  server <> server' -> untouched server st (_on_channel_joined server' channel now st).1.
Proof.
  intros Hne. unfold _on_channel_joined.
  set (clm1 := (add_channel server' channel (is_private_name channel) now
                  (_chat_list_model st)).2).
  pose proof (get_chat_model_chats server' channel now clm1) as Hc.
  pose proof (get_chat_model_active server' channel now clm1) as Ha.
  pose proof (fun c => get_chat_model_other server' channel server c now clm1) as Ho.
  destruct (get_chat_model server' channel now clm1) as [chat_model clm2].
  simpl in *. apply untouched_chat_list.
  - intros c. unfold chat_model_of in *. simpl.
    rewrite model_of_put_model_ne by congruence. rewrite Ho by congruence.
    apply add_channel_model_other. congruence.
  - intros c. unfold find_chat. simpl. rewrite Hc.
    apply add_channel_find_other_server. exact Hne.
  - unfold active_chat in *. simpl. rewrite Ha. apply add_channel_active.
Qed.

Lemma _on_channel_left_untouched server server' channel now st :
  server <> server' -> untouched server st (_on_channel_left server' channel now st).1.
Proof.
  intros Hne. unfold _on_channel_left. simpl.
  repeat split; simpl.
  - intros c. apply add_system_message_to_chat_model_other. congruence.
  - intros c. unfold find_chat. rewrite add_system_message_to_chat_chats. reflexivity.
  - apply add_system_message_to_chat_active.
Qed.

Lemma deliver_untouched server now sig st :
  sig_server sig <> Some server -> untouched server st (deliver now sig st).1.
Proof.
  intros Hne. destruct sig; simpl in *; try apply untouched_refl.
  - apply _on_message_received_untouched. congruence.
  - apply _on_server_connected_untouched. congruence.
  - apply _on_channel_joined_untouched. congruence.
  - apply _on_channel_left_untouched. congruence.
Qed.

Lemma deliver_sig_server now sig st out :
  In out (deliver now sig st).2 -> sig_server out = sig_server sig.
Proof.
  destruct sig; simpl; try solve [intros []].
  - rewrite _on_message_received_signals. intros [<-|[]]. reflexivity.
  - intros [<-|[]]. reflexivity.
  - intros [<-|[]]. reflexivity.
  - unfold _on_channel_joined. destruct (get_chat_model _ _ _ _).
    intros [<-|[]]. reflexivity.
Qed.

Lemma deliver_all_untouched server now sigs st :
  (forall sig, In sig sigs -> sig_server sig <> Some server) ->
  untouched server st (deliver_all now sigs st).1
  /\ (forall out, In out (deliver_all now sigs st).2 -> sig_server out <> Some server).
Proof.
  revert st. induction sigs as [|sig sigs IH]; intros st Hall; simpl.
  - split; [apply untouched_refl | intros out []].
  - pose proof (deliver_untouched server now sig st (Hall sig (or_introl eq_refl))) as Hu.
    pose proof (deliver_sig_server now sig st) as Hs.
    destruct (deliver now sig st) as [st1 out1]. simpl in *.
    destruct (IH st1 (fun s H => Hall s (or_intror H))) as [Hu2 Hs2].
    destruct (deliver_all now sigs st1) as [st2 out2]. simpl in *.
    split; [eapply untouched_trans; eassumption|].
    intros out [<-|Hin]; [apply Hall; left; reflexivity|].
    apply in_app_iff in Hin as [Hin|Hin]; [|auto].
    rewrite (Hs out Hin). apply Hall. left. reflexivity.
Qed.

Lemma on_event_sig_server server connection e sig :
  In sig (irc_client.on_event server connection e) -> sig_server sig = Some server.
Proof.
  destruct e; simpl.
  - intros [<-|[]]. reflexivity.
  - destruct (_ =? _)%string; [intros [<-|[]]; reflexivity | intros []].
  - destruct (_ =? _)%string; [intros [<-|[]]; reflexivity | intros []].
  - intros [<-|[]]. reflexivity.
  - intros [<-|[]]. reflexivity.
Qed.

Lemma process_once_sig_server server ready irc sig :
  In sig (irc_client.process_once server ready irc).2 -> sig_server sig = Some server.
Proof.
  unfold irc_client.process_once.
  destruct (irc_client.lookup_client _ _) as [client|]; [|intros []].
  destruct (irc_client.socket client); try solve [intros []].
  destruct ready; try solve [intros []]. simpl.
  intros (e & He & Hin)%in_flat_map. eapply on_event_sig_server. exact Hin.
Qed.

End check.

Section check_server.
Import models observe app_controller.

(** The slots write neither the registry, nor the guard of the check,
    nor the times of the last checks. *)
Lemma deliver_fields now sig st :
  _last_update_time (deliver now sig st).1 = _last_update_time st
  /\ _irc_client (deliver now sig st).1 = _irc_client st
  /\ _updating (deliver now sig st).1 = _updating st.
Proof.
  destruct sig; simpl; try (repeat split; fail).
  - unfold _on_message_received. destruct (get_chat_model _ _ _ _). repeat split.
  - unfold _on_channel_joined. destruct (get_chat_model _ _ _ _). repeat split.
Qed.

Lemma deliver_all_fields now sigs st :
  _last_update_time (deliver_all now sigs st).1 = _last_update_time st
  /\ _irc_client (deliver_all now sigs st).1 = _irc_client st
  /\ _updating (deliver_all now sigs st).1 = _updating st.
Proof.
  revert st. induction sigs as [|sig sigs IH]; intros st; simpl; [repeat split|].
  pose proof (deliver_fields now sig st) as (H1 & H2 & H3).
  destruct (deliver now sig st) as [st1 out1]. simpl in *.
  specialize (IH st1) as (G1 & G2 & G3).
  destruct (deliver_all now sigs st1) as [st2 out2]. simpl in *.
  repeat split; congruence.
Qed.

(** [reconcile] writes the models of its server only, and announces
    that server only. *)
Lemma reconcile_frame server clm :
  _chats (reconcile server clm).1 = _chats clm
  /\ active_chat (reconcile server clm).1 = active_chat clm
  /\ (forall server' channel, server' <> server ->
        chat_model_of server' channel (reconcile server clm).1
        = chat_model_of server' channel clm)
  /\ (forall out, In out (reconcile server clm).2 -> sig_server out = Some server).
Proof.
  unfold reconcile. destruct (_chat_models clm !! server) as [channels|];
    [|repeat split; intros out []].
  simpl.
  match goal with
  | |- context [let '(_, _) := ?e in _] => destruct e as [channels1 sigs] eqn:He
  end.
  simpl. split; [reflexivity|]. split; [reflexivity|]. split.
  - intros server' channel Hne. unfold chat_model_of, model_of. simpl.
    rewrite lookup_insert_ne by congruence. reflexivity.
  - intros out Hin.
    destruct (_active_channel clm) as [channel|]; [|injection He as <- <-; destruct Hin].
    destruct (negb (opt_str_ne (_active_server clm) server));
      [|injection He as <- <-; destruct Hin].
    destruct (channels !! channel) as [chat_model|]; [|injection He as <- <-; destruct Hin].
    destruct (update_messages_if_needed chat_model) as [changed chat_model'].
    injection He as <- <-.
    destruct changed; [destruct Hin as [<-|[]]; reflexivity | destruct Hin].
Qed.

Lemma untouched_stamp server server' t st :
  server <> server' ->
  untouched server st (with_last_update_time (<[server' := t]> (_last_update_time st)) st).
Proof.
  intros Hne. repeat split. simpl. apply lookup_insert_ne. congruence.
Qed.

(** One iteration of the loop of the check: either the server was checked
    less than two seconds before and nothing at all happens, or it is
    stamped and polled, and whatever follows concerns this server only. *)
Lemma check_server_cases current_time now poll st polled sigs server :
  let r := check_server current_time now poll (st, polled, sigs) server in
  (current_time - default 0 (_last_update_time st !! server) < 2000000
   /\ r = (st, polled, sigs))
  \/ (2000000 <= current_time - default 0 (_last_update_time st !! server)
      /\ r.1.2 = polled ++ [server]
      /\ _last_update_time r.1.1 = <[server := current_time]> (_last_update_time st)
      /\ _irc_client r.1.1 = _irc_client st
      /\ _updating r.1.1 = _updating st
      /\ (forall server', server' <> server -> untouched server' st r.1.1)
      /\ exists new, r.2 = sigs ++ new
                     /\ forall out, In out new -> sig_server out = Some server).
Proof.
  intros r. subst r. unfold check_server.
  destruct (current_time - default 0 (_last_update_time st !! server) <? 2000000) eqn:Hlt.
  - left. apply Z.ltb_lt in Hlt. split; [exact Hlt | reflexivity].
  - right. apply Z.ltb_ge in Hlt. split; [exact Hlt|].
    set (st1 := with_last_update_time
                  (<[server := current_time]> (_last_update_time st)) st).
    pose proof (process_once_sig_server server (poll server) (_irc_client st1)) as Hp.
    destruct (irc_client.process_once server (poll server) (_irc_client st1))
      as [update_result received].
    simpl in Hp.
    pose proof (deliver_all_fields now received st1) as (F1 & F2 & F3).
    assert (forall server', server' <> server ->
              untouched server' st1 (deliver_all now received st1).1
              /\ forall out, In out (deliver_all now received st1).2 ->
                             sig_server out <> Some server') as Hd.
    { intros server' Hne. apply deliver_all_untouched.
      intros sig Hin. rewrite (Hp sig Hin). congruence. }
    assert (forall out, In out (deliver_all now received st1).2 ->
                        sig_server out = Some server) as Hout.
    { clear Hd F1 F2 F3. revert Hp. generalize st1. clear.
      induction received as [|sig sigs IH]; intros st1 Hp out; simpl; [intros []|].
      pose proof (deliver_sig_server now sig st1) as Hs.
      destruct (deliver now sig st1) as [st2 out1]. simpl in *.
      specialize (IH st2 (fun s H => Hp s (or_intror H))).
      destruct (deliver_all now sigs st2) as [st3 out2]. simpl in *.
      intros [<-|Hin]; [apply Hp; left; reflexivity|].
      apply in_app_iff in Hin as [Hin|Hin]; [|auto].
      rewrite (Hs out Hin). apply Hp. left. reflexivity. }
    destruct (deliver_all now received st1) as [st2 out]. simpl in *.
    destruct update_result; simpl.
    + pose proof (reconcile_frame server (_chat_list_model st2)) as (R1 & R2 & R3 & R4).
      destruct (reconcile server (_chat_list_model st2)) as [clm sigs']. simpl in *.
      split; [reflexivity|]. split; [exact F1|]. split; [exact F2|]. split; [exact F3|].
      split.
      * intros server' Hne. destruct (Hd server' Hne) as [Hu _].
        eapply untouched_trans; [apply untouched_stamp; exact Hne|].
        eapply untouched_trans; [exact Hu|].
        apply untouched_chat_list; [| |exact R2].
        -- intros c. apply R3. exact Hne.
        -- intros c. unfold find_chat. rewrite R1. reflexivity.
      * exists (out ++ sigs'). split; [reflexivity|].
        intros o [Hin|Hin]%in_app_iff; auto.
    + split; [reflexivity|]. split; [exact F1|]. split; [exact F2|]. split; [exact F3|].
      split.
      * intros server' Hne. destruct (Hd server' Hne) as [Hu _].
        eapply untouched_trans; [apply untouched_stamp; exact Hne | exact Hu].
      * exists out. split; [reflexivity | exact Hout].
Qed.

End check_server.

Section check_loop.
Import models observe app_controller.

Lemma check_loop current_time now poll servers st polled sigs :
  let r := fold_left (check_server current_time now poll) servers (st, polled, sigs) in
  exists new_polled new_sigs,
    r.1.2 = polled ++ new_polled
    /\ r.2 = sigs ++ new_sigs
    /\ _irc_client r.1.1 = _irc_client st
    /\ _updating r.1.1 = _updating st
    /\ pass_ok current_time st r.1.1 new_polled new_sigs.
Proof.
  revert st polled sigs. induction servers as [|server servers IH]; intros st polled sigs.
  - simpl. exists [], []. rewrite !app_nil_r.
    split; [reflexivity|]. split; [reflexivity|]. split; [reflexivity|].
    split; [reflexivity|]. split; [constructor|]. split.
    + intros server [].
    + intros server _. split; [apply untouched_refl | intros out []].
  - cbn [fold_left].
    destruct (check_server_cases current_time now poll st polled sigs server)
      as [[Hlt ->]|(Hge & Hp & Hstamp & Hirc & Hupd & Hother & new1 & Hs & Hnew1)].
    + apply IH.
    + destruct (check_server current_time now poll (st, polled, sigs) server)
        as [[st1 polled1] sigs1]. simpl in *. subst polled1 sigs1.
      destruct (IH st1 (polled ++ [server]) (sigs ++ new1))
        as (new_polled & new_sigs & Hp2 & Hs2 & Hirc2 & Hupd2 & Hnd & Hin & Hout).
      set (r := fold_left (check_server current_time now poll) servers
                  (st1, polled ++ [server], sigs ++ new1)) in *.
      assert (~ In server new_polled) as Hfresh.
      { intros H. destruct (Hin server H) as [Hge2 _].
        rewrite Hstamp, lookup_insert_eq in Hge2. simpl in Hge2. lia. }
      exists (server :: new_polled), (new1 ++ new_sigs).
      split; [rewrite Hp2, <- app_assoc; reflexivity|].
      split; [rewrite Hs2, <- app_assoc; reflexivity|].
      split; [congruence|]. split; [congruence|].
      split; [constructor; [rewrite list_elem_of_In; exact Hfresh | exact Hnd]|]. split.
      * intros s [<-|Hs'].
        -- split; [exact Hge|].
           destruct (Hout server Hfresh) as [(Hu & _) _].
           rewrite Hu, Hstamp. apply lookup_insert_eq.
        -- destruct (Hin s Hs') as [Hge2 Hst]. split; [|exact Hst].
           assert (s <> server) as Hne by (intros ->; contradiction).
           rewrite Hstamp, lookup_insert_ne in Hge2 by congruence. exact Hge2.
      * intros s Hs'.
        assert (s <> server) as Hne by (intros ->; apply Hs'; left; reflexivity).
        assert (~ In s new_polled) as Hs2' by (intros H; apply Hs'; right; exact H).
        destruct (Hout s Hs2') as [Hu Hsig]. split.
        -- eapply untouched_trans; [apply Hother; exact Hne | exact Hu].
        -- intros out [Ho|Ho]%in_app_iff; [|auto].
           rewrite (Hnew1 out Ho). congruence.
Qed.

Lemma untouched_updating server st st' b :
  untouched server st st' -> untouched server st (with_updating b st').
Proof. intros H. exact H. Qed.

(** The periodic check as a whole. *)
Lemma check_for_new_messages_pass current_time now poll st :
  let r := _check_for_new_messages current_time now poll st in
  _updating st = false ->
  _irc_client r.1.1 = _irc_client st
  /\ _updating r.1.1 = false
  /\ pass_ok current_time st r.1.1 r.1.2 r.2.
Proof.
  intros r Hupd. subst r. unfold _check_for_new_messages. rewrite Hupd.
  destruct (check_loop current_time now poll
              (irc_client.get_servers (_irc_client (with_updating true st)))
              (with_updating true st) [] [])
    as (new_polled & new_sigs & Hp & Hs & Hirc & _ & Hnd & Hin & Hout).
  destruct (fold_left _ _ _) as [[st1 polled] sigs]. simpl in *. subst polled sigs.
  split; [exact Hirc|]. split; [reflexivity|].
  split; [exact Hnd|]. split; [exact Hin|].
  intros server Hs. destruct (Hout server Hs) as [Hu Hsig]. split; [exact Hu | exact Hsig].
Qed.

Lemma check_for_new_messages_busy current_time now poll st :
  _updating st = true -> _check_for_new_messages current_time now poll st = (st, [], []).
Proof. unfold _check_for_new_messages. intros ->. reflexivity. Qed.

(** A server checked less than two seconds before is passed over. *)
Lemma check_for_new_messages_skips current_time now poll st server last :
  _last_update_time st !! server = Some last ->
  current_time - last < 2000000 ->
  let r := _check_for_new_messages current_time now poll st in
  ~ In server r.1.2
  /\ untouched server st r.1.1
  /\ (forall out, In out r.2 -> sig_server out <> Some server).
Proof.
  intros Hlast Hlt r. subst r.
  destruct (_updating st) eqn:Hupd.
  - rewrite check_for_new_messages_busy by exact Hupd. simpl.
    split; [tauto|]. split; [apply untouched_refl | intros out []].
  - destruct (check_for_new_messages_pass current_time now poll st Hupd)
      as (_ & _ & _ & Hin & Hout).
    assert (~ In server (_check_for_new_messages current_time now poll st).1.2) as Hn.
    { intros H. destruct (Hin server H) as [Hge _]. rewrite Hlast in Hge. simpl in Hge. lia. }
    split; [exact Hn|]. exact (Hout server Hn).
Qed.

End check_loop.

Section runs.
Import models observe app_controller.

(** Only the periodic check writes the times of the last checks. *)
Lemma exec_other_stamp c st :
  (forall current_time now poll, c <> do_check current_time now poll) ->
  _last_update_time (exec c st).1 = _last_update_time st /\ (exec c st).2 = [].
Proof.
  intros Hc.
  destruct c as [current_time now poll | now sig | | srv nick connected | srv quit now
                | srv chan | srv chan message sent now | srv chan now]; simpl.
  - exfalso. eapply Hc. reflexivity.
  - split; [apply deliver_fields | reflexivity].
  - split; [|reflexivity]. unfold fire_timer.
    destruct (timers st) as [|[srv chan] rest]; [reflexivity|].
    destruct (remove_channel srv chan (_chat_list_model st)) as [[? ?] ?].
    reflexivity.
  - split; [|reflexivity]. unfold connect_to_server.
    destruct (negb (truthy srv)); [reflexivity|].
    destruct (negb (truthy nick)); simpl.
    + destruct (irc_client.connect_to_server _ _ _ _) as [[] irc]; reflexivity.
    + assert (_last_update_time (set_nickname nick st) = _last_update_time st) as Hn.
      { unfold set_nickname. destruct (_ || _); reflexivity. }
      destruct (irc_client.connect_to_server _ _ _ _) as [[] irc]; exact Hn.
  - split; [|reflexivity]. unfold disconnect_from_server.
    destruct (negb (truthy srv)); [reflexivity|].
    destruct (irc_client.disconnect_from_server _ _ _ _) as [[[[[]|] irc] calls] sigs];
      [|reflexivity].
    pose proof (deliver_all_fields now sigs (with_irc_client irc st)) as (H & _ & _).
    destruct (deliver_all now sigs (with_irc_client irc st)) as [st1 out].
    destruct (remove_server srv (_chat_list_model st1)) as [[? ?] ?]. exact H.
  - split; [|reflexivity]. unfold leave_channel.
    destruct (_ || _); [reflexivity|].
    destruct (remove_channel srv chan (_chat_list_model st)) as [[? ?] ?].
    reflexivity.
  - split; [|reflexivity]. unfold send_message.
    destruct (_ || _); [reflexivity|].
    destruct (negb (chat_exists _ _ _)); [reflexivity|].
    destruct (irc_client.send_message _ _ _ _ _) as [[result calls] sigs].
    pose proof (deliver_all_fields now sigs st) as (H & _ & _).
    destruct (deliver_all now sigs st) as [st1 out]. exact H.
  - split; [|reflexivity]. unfold set_active_chat.
    destruct (models.set_active_chat _ _ _ _) as [[? ?] ?]. reflexivity.
Qed.

Lemma check_or_other c :
  (exists current_time now poll, c = do_check current_time now poll)
  \/ (forall current_time now poll, c <> do_check current_time now poll).
Proof. destruct c; [left; eauto | right; discriminate ..]. Qed.

Lemma check_extends current_time now poll st log :
  spaced log -> remembered st log ->
  let r := _check_for_new_messages current_time now poll st in
  let log' := log ++ map (fun server => (current_time, server)) r.1.2 in
  spaced log' /\ remembered r.1.1 log'.
Proof.
  intros Hsp Hrem r log'. subst log' r.
  destruct (_updating st) eqn:Hupd.
  { rewrite check_for_new_messages_busy by exact Hupd. simpl. rewrite app_nil_r. auto. }
  destruct (check_for_new_messages_pass current_time now poll st Hupd)
    as (_ & _ & Hnd & Hin & Hout).
  destruct (_check_for_new_messages current_time now poll st) as [[st' polled] sigs].
  simpl in *. split.
  - intros i j t1 t2 server Hij Hi Hj.
    destruct (decide (j < length log)%nat) as [Hjl|Hjl].
    + rewrite lookup_app_l in Hi by lia. rewrite lookup_app_l in Hj by lia.
      exact (Hsp i j t1 t2 server Hij Hi Hj).
    + rewrite lookup_app_r in Hj by lia.
      rewrite list_lookup_fmap in Hj.
      destruct (polled !! (j - length log)%nat) as [s|] eqn:Hpj; [|discriminate].
      simpl in Hj. injection Hj as <- ->.
      destruct (decide (i < length log)%nat) as [Hil|Hil].
      * rewrite lookup_app_l in Hi by lia.
        assert (In (t1, server) log) as Hi'.
        { apply list_elem_of_In, list_elem_of_lookup. eauto. }
        destruct (Hrem _ _ Hi') as (last & Hlast & Hle).
        assert (In server polled) as Hp.
        { apply list_elem_of_In, list_elem_of_lookup. eauto. }
        destruct (Hin server Hp) as [Hge _]. rewrite Hlast in Hge. simpl in Hge. lia.
      * rewrite lookup_app_r in Hi by lia.
        rewrite list_lookup_fmap in Hi.
        destruct (polled !! (i - length log)%nat) as [s|] eqn:Hpi; [|discriminate].
        simpl in Hi. injection Hi as _ ->.
        pose proof (NoDup_lookup _ _ _ _ Hnd Hpi Hpj). lia.
  - intros t server [Hl|Hn]%in_app_iff.
    + destruct (Hrem _ _ Hl) as (last & Hlast & Hle).
      destruct (in_dec string_dec server polled) as [Hp|Hp].
      * destruct (Hin server Hp) as [Hge Hst]. rewrite Hlast in Hge. simpl in Hge.
        exists current_time. split; [exact Hst | lia].
      * destruct (Hout server Hp) as [(Hu & _) _].
        exists last. split; [rewrite Hu; exact Hlast | exact Hle].
    + apply in_map_iff in Hn as (s & Heq & Hp). injection Heq as Ht Hs. subst t server.
      destruct (Hin s Hp) as [_ Hst]. exists current_time. split; [exact Hst | lia].
Qed.

Lemma exec_extends c st log :
  spaced log -> remembered st log ->
  spaced (log ++ (exec c st).2) /\ remembered (exec c st).1 (log ++ (exec c st).2).
Proof.
  intros Hsp Hrem.
  destruct (check_or_other c) as [(current_time & now & poll & ->)|Hc].
  - simpl.
    pose proof (check_extends current_time now poll st log Hsp Hrem) as H.
    destruct (_check_for_new_messages current_time now poll st) as [[st' polled] sigs].
    exact H.
  - destruct (exec_other_stamp c st Hc) as [Hst Hlog].
    rewrite Hlog, app_nil_r. split; [exact Hsp|].
    intros t server Hin. destruct (Hrem t server Hin) as (last & Hlast & Hle).
    exists last. rewrite Hst. auto.
Qed.

Lemma run_extends cs st log :
  spaced log -> remembered st log ->
  spaced (log ++ (run cs st).2) /\ remembered (run cs st).1 (log ++ (run cs st).2).
Proof.
  revert st log. induction cs as [|c cs IH]; intros st log Hsp Hrem.
  - simpl. rewrite app_nil_r. auto.
  - simpl. destruct (exec_extends c st log Hsp Hrem) as [Hsp1 Hrem1].
    destruct (exec c st) as [st1 log1]. simpl in *.
    specialize (IH st1 (log ++ log1) Hsp1 Hrem1).
    destruct (run cs st1) as [st2 log2]. simpl in *.
    rewrite app_assoc. exact IH.
Qed.

End runs.

Section scheduler_claims.
Import models observe app_controller examples.

(** C9 (as amended). A check made less than two seconds after the last
    check of a server passes that server over entirely: [process_once] is
    not called for it, nothing of the server changes (the models and rows
    of its chats, the active chat's among them, and the pointer), and no
    signal about it is emitted, so the active chat is not reconciled on
    that check either. In particular this holds for the second of two
    checks less than two seconds apart when the first polled the server.
    Whatever commands and signals come between the checks, two polls of
    one server by the periodic check are at least two seconds apart. *)
Theorem C9_check_rate_limit :
  (forall current_time now poll st server last,
     _last_update_time st !! server = Some last ->
     current_time - last < 2000000 ->
     let r := _check_for_new_messages current_time now poll st in
     ~ In server r.1.2
     /\ untouched server st r.1.1
     /\ (forall out, In out r.2 -> sig_server out <> Some server))
  /\ (forall t1 t2 now1 now2 poll1 poll2 st server,
        _updating st = false ->
        let r1 := _check_for_new_messages t1 now1 poll1 st in
        In server r1.1.2 ->
        t2 - t1 < 2000000 ->
        let r2 := _check_for_new_messages t2 now2 poll2 r1.1.1 in
        ~ In server r2.1.2
        /\ untouched server r1.1.1 r2.1.1
        /\ (forall out, In out r2.2 -> sig_server out <> Some server))
  /\ (forall cs st, spaced (run cs st).2).
Proof.
  split; [|split].
  - intros current_time now poll st srv lst Hlast Hlt r.
    exact (check_for_new_messages_skips current_time now poll st srv lst Hlast Hlt).
  - intros t1 t2 now1 now2 poll1 poll2 st srv Hupd r1 Hin Hlt r2. subst r2.
    destruct (check_for_new_messages_pass t1 now1 poll1 st Hupd) as (_ & _ & _ & Hp & _).
    destruct (Hp srv Hin) as [_ Hst].
    exact (check_for_new_messages_skips t2 now2 poll2 _ srv t1 Hst Hlt).
  - intros cs st.
    destruct (run_extends cs st []) as [H _]; [intros i j ? ? ? _ [=] | intros ? ? [] |].
    exact H.
Qed.

Lemma C9_check_rate_limit_witness :
  _last_update_time watching !! irc = Some 10000000
  /\ 11000000 - 10000000 < 2000000
  /\ ~ In irc (_check_for_new_messages 11000000 11000000
                 (fun _ => irc_client.not_readable) watching).1.2.
Proof.
  assert (11000000 - 10000000 < 2000000) as Hlt by lia.
  destruct C9_check_rate_limit as [H _].
  destruct (H 11000000 11000000 (fun _ => irc_client.not_readable) watching irc 10000000
              eq_refl Hlt) as [Hn _].
  split; [reflexivity|]. split; [exact Hlt | exact Hn].
Defined.

(** C9 fails as stated. The server was checked one second ago, its
    session is readable, the active chat is on it and holds a message
    later than its stamp, so that [reconcile] would announce it; yet the
    check does nothing at all. One second later it polls and announces. *)
Lemma C9_counterexample :
  _last_update_time watching !! irc = Some 10000000
  /\ active_chat (_chat_list_model watching) = (Some irc, Some "#general")
  /\ (reconcile irc (_chat_list_model watching)).2 = [messagesUpdated irc "#general"]
  /\ _check_for_new_messages 11000000 11000000 (fun _ => irc_client.not_readable) watching
     = (watching, [], [])
  /\ (let r := _check_for_new_messages 12000000 12000000
                 (fun _ => irc_client.not_readable) watching in
      r.1.2 = [irc] /\ r.2 = [messagesUpdated irc "#general"]).
Proof.
  repeat split.
Qed.

End scheduler_claims.

(** * Further properties of the code *)

(** ** The message model *)

Section chat_model_more.
Import models observe store_ops.

(** X1. [add_message] returns the row of the new message, which is the
    old row count; the count grows by one; the view reads the sender, the
    content and the system flag just given at that row; the rows before
    it read as before and there is no row after it. *)
Theorem X1_add_message_row sender content is_system t_msg t_upd m :
  let r := add_message sender content is_system t_msg t_upd m in
  r.1 = ChatModel_rowCount false m
  /\ ChatModel_rowCount false r.2 = S r.1
  /\ ChatModel_data (Some r.1) (UserRole + 1) r.2 = Some (v_str sender)
  /\ ChatModel_data (Some r.1) (UserRole + 2) r.2 = Some (v_str content)
  /\ ChatModel_data (Some r.1) (UserRole + 4) r.2 = Some (v_bool is_system)
  /\ (forall row role, (row < r.1)%nat ->
        ChatModel_data (Some row) role r.2 = ChatModel_data (Some row) role m)
  /\ (forall row role, (r.1 < row)%nat -> ChatModel_data (Some row) role r.2 = None).
Proof.
  intros r.
  assert (r.1 = length (_messages m)) as H1.
  { subst r. unfold add_message. simpl. rewrite length_app. simpl. lia. }
  assert (_messages r.2
          = _messages m ++ [{| sender := sender; content := content;
                               timestamp := t_msg; is_system := is_system |}]) as H2
    by reflexivity.
  unfold ChatModel_rowCount, ChatModel_data. rewrite H1, H2.
  rewrite lookup_app_r by lia. rewrite Nat.sub_diag. simpl.
  split; [reflexivity|]. split; [rewrite length_app; simpl; lia|].
  split; [reflexivity|]. split; [reflexivity|]. split; [reflexivity|]. split.
  - intros row role Hlt. rewrite lookup_app_l by exact Hlt.
    destruct (_messages m !! row); reflexivity.
  - intros row role Hlt. rewrite lookup_ge_None_2; [reflexivity|].
    rewrite length_app. simpl. lia.
Qed.

(** X2. After [set_own_nickname(n)] a message reads as the user's own
    exactly when its sender is [n]; the messages, their other roles and
    the stamp are as before, and setting the same nickname again changes
    nothing. *)
Theorem X2_set_own_nickname nickname m :
  let m' := set_own_nickname nickname m in
  _own_nickname m' = nickname
  /\ _messages m' = _messages m
  /\ _last_update_timestamp m' = _last_update_timestamp m
  /\ (forall row message, _messages m !! row = Some message ->
        ChatModel_data (Some row) (UserRole + 6) m'
        = Some (v_bool (sender message =? nickname)%string))
  /\ (forall row role, role <> UserRole + 6 ->
        ChatModel_data (Some row) role m' = ChatModel_data (Some row) role m)
  /\ set_own_nickname nickname m' = m'.
Proof.
  intros m'. subst m'. unfold set_own_nickname.
  destruct (_own_nickname m =? nickname)%string eqn:He; simpl.
  - apply String.eqb_eq in He.
    split; [exact He|]. split; [reflexivity|]. split; [reflexivity|].
    split; [|split; [reflexivity|]].
    + intros row message Hm. unfold ChatModel_data. rewrite Hm. simpl. rewrite He.
      reflexivity.
    + rewrite <- He, String.eqb_refl. reflexivity.
  - rewrite String.eqb_refl. simpl.
    split; [reflexivity|]. split; [reflexivity|]. split; [reflexivity|].
    split; [|split; [|reflexivity]].
    + intros row message Hm. unfold ChatModel_data. simpl. rewrite Hm. reflexivity.
    + intros row role Hr. unfold ChatModel_data. simpl.
      destruct (_messages m !! row); [|reflexivity].
      assert ((role =? UserRole + 6) = false) as -> by (apply Z.eqb_neq; exact Hr).
      reflexivity.
Qed.

Lemma X2_set_own_nickname_witness :
  [{| sender := "bob"; content := "hi"; timestamp := 5; is_system := false |}] !! 0%nat
  = Some {| sender := "bob"; content := "hi"; timestamp := 5; is_system := false |}
  /\ ChatModel_data (Some 0%nat) (UserRole + 6)
       (set_own_nickname "bob"
          (add_message "bob" "hi" false 5 6 (new_ChatModel "" 0)).2)
     = Some (v_bool true).
Proof.
  pose proof (X2_set_own_nickname "bob"
                (add_message "bob" "hi" false 5 6 (new_ChatModel "" 0)).2)
    as (_ & _ & _ & H & _).
  split; [reflexivity|]. exact (H 0%nat _ eq_refl).
Defined.

(** X3. [update_messages_if_needed] never changes the history or the
    nickname, and a second call straight after a first reports nothing
    and changes nothing. *)
Theorem X3_update_messages_if_needed_twice m :
  let m1 := (update_messages_if_needed m).2 in
  _messages m1 = _messages m
  /\ _own_nickname m1 = _own_nickname m
  /\ _last_update_timestamp m <= _last_update_timestamp m1
  /\ update_messages_if_needed m1 = (false, m1).
Proof.
  intros m1. subst m1.
  assert (stamp_covers (update_messages_if_needed m).2
          /\ _messages (update_messages_if_needed m).2 = _messages m
          /\ _own_nickname (update_messages_if_needed m).2 = _own_nickname m
          /\ _last_update_timestamp m
             <= _last_update_timestamp (update_messages_if_needed m).2) as (Hc & H1 & H2 & H3).
  { unfold update_messages_if_needed.
    destruct (_messages m) as [|m0 rest] eqn:Hm; simpl.
    - split; [intros msg Hin; simpl in Hin; rewrite Hm in Hin; destruct Hin|].
      split; [auto|]. split; [auto | lia].
    - destruct (_last_update_timestamp m <? timestamp (newest m0 rest)) eqn:Hlt; simpl.
      + apply Z.ltb_lt in Hlt. split; [|split; [auto|split; [auto|lia]]].
        intros msg Hin. simpl in *. apply newest_max. exact Hin.
      + apply Z.ltb_ge in Hlt. split; [|split; [auto|split; [auto|lia]]].
        intros msg Hin. simpl in Hin. rewrite Hm in Hin.
        pose proof (newest_max m0 rest msg Hin). lia. }
  split; [exact H1|]. split; [exact H2|]. split; [exact H3|].
  apply update_messages_if_needed_covered. exact Hc.
Qed.

Lemma last_cons_default (a : Z) l d d' : List.last (a :: l) d = List.last (a :: l) d'.
Proof.
  revert a. induction l as [|b l IH]; intros a; [reflexivity|].
  change (List.last (b :: l) d = List.last (b :: l) d'). apply IH.
Qed.

Lemma forward_app t0 l1 l2 :
  forward t0 (l1 ++ l2) <-> forward t0 l1 /\ forward (List.last l1 t0) l2.
Proof.
  revert t0. induction l1 as [|t l1 IH]; intros t0; [simpl; tauto|].
  change (t0 <= t /\ forward t (l1 ++ l2)
          <-> (t0 <= t /\ forward t l1) /\ forward (List.last (t :: l1) t0) l2).
  rewrite IH. destruct l1 as [|b l1]; [simpl; tauto|].
  change (List.last (t :: b :: l1) t0) with (List.last (b :: l1) t0).
  rewrite (last_cons_default b l1 t t0). tauto.
Qed.

Lemma apply_model_op_covers m op t0 :
  stamp_covers m -> _last_update_timestamp m <= t0 -> forward t0 (readings op) ->
  stamp_covers (apply_model_op m op)
  /\ _last_update_timestamp (apply_model_op m op) <= List.last (readings op) t0.
Proof.
  intros Hc Hle Hf. destruct op as [sender content is_system t_msg t_upd|nick|now|now|];
    simpl in *.
  - destruct Hf as (H1 & H2 & _). split; [|lia].
    apply add_message_covers; [exact Hc | lia | exact H2].
  - unfold set_own_nickname. destruct (negb _); auto.
  - split; [intros msg [] | lia].
  - destruct Hf as [H1 _]. unfold force_data_changed.
    destruct (_messages m) eqn:Hm; simpl; [split; [exact Hc | lia]|].
    split; [|lia]. intros msg. simpl. intros Hin.
    assert (In msg (_messages m)) as Hin' by (rewrite Hm; exact Hin).
    specialize (Hc msg Hin'). lia.
  - rewrite update_messages_if_needed_covered by exact Hc. auto.
Qed.

(** X4. Under a clock that never runs backwards, whatever is done to a
    chat model (messages added, nickname set, cleared, forced, checked),
    the check [update_messages_if_needed] reports nothing and changes
    nothing. *)
Theorem X4_forward_clock_never_reports ops own t0 :
  forward t0 (flat_map readings ops) ->
  let m := fold_left apply_model_op ops (new_ChatModel own t0) in
  update_messages_if_needed m = (false, m).
Proof.
  intros Hf m. subst m. apply update_messages_if_needed_covered.
  assert (forall m t, stamp_covers m -> _last_update_timestamp m <= t ->
            forward t (flat_map readings ops) ->
            stamp_covers (fold_left apply_model_op ops m)) as H.
  { clear. induction ops as [|op ops IH]; intros m t Hc Hle Hf; simpl; [exact Hc|].
    simpl in Hf. apply forward_app in Hf as [Hf1 Hf2].
    destruct (apply_model_op_covers m op t Hc Hle Hf1) as [Hc' Hle'].
    exact (IH _ _ Hc' Hle' Hf2). }
  apply (H _ t0); [apply new_ChatModel_covers | simpl; lia | exact Hf].
Qed.

Lemma X4_forward_clock_never_reports_witness :
  forward 0 (flat_map readings
               [op_add_message "bob" "hi" false 1 2; op_force_data_changed 3;
                op_add_message "eve" "yo" false 3 4])
  /\ (update_messages_if_needed
        (fold_left apply_model_op
           [op_add_message "bob" "hi" false 1 2; op_force_data_changed 3;
            op_add_message "eve" "yo" false 3 4] (new_ChatModel "" 0))).1 = false.
Proof.
  assert (forward 0 (flat_map readings
               [op_add_message "bob" "hi" false 1 2; op_force_data_changed 3;
                op_add_message "eve" "yo" false 3 4])) as Hf by (simpl; lia).
  split; [exact Hf|].
  rewrite (X4_forward_clock_never_reports _ "" 0 Hf). reflexivity.
Defined.

End chat_model_more.

(** ** The chat list *)

Section chat_list_more.
Import models observe store_ops examples.

(** X5. [add_server] adds the server's own row once: on a store without
    that row it returns true and appends exactly one row, with no unread
    message, leaving the rows that were there, the models and the pointer
    as they were; on a store with that row, and so on every repeated
    call, it returns false and changes nothing. *)
Theorem X5_add_server server st :
  (chat_exists server server st = false ->
     (add_server server st).1 = true
     /\ _chats (add_server server st).2 = _chats st ++ [new_chat server server false]
     /\ count_chats server server (add_server server st).2 = 1%nat)
  /\ (chat_exists server server st = true -> add_server server st = (false, st))
  /\ add_server server (add_server server st).2 = (false, (add_server server st).2)
  /\ (forall server' channel,
        chat_model_of server' channel (add_server server st).2
        = chat_model_of server' channel st)
  /\ active_chat (add_server server st).2 = active_chat st.
Proof.
  split; [|split; [|split; [|split]]].
  - intros He. unfold add_server. rewrite He. simpl.
    split; [reflexivity|]. split; [reflexivity|].
    unfold count_chats. simpl. rewrite count_chats_app, (existsb_filter_length _ _ He).
    simpl. rewrite is_chat_new_chat. reflexivity.
  - intros He. unfold add_server. rewrite He. reflexivity.
  - assert (chat_exists server server (add_server server st).2 = true) as He.
    { unfold chat_exists. rewrite add_server_chats.
      destruct (chat_exists server server st) eqn:H; [rewrite app_nil_r; exact H|].
      rewrite existsb_app. simpl. rewrite is_chat_new_chat, orb_true_r. reflexivity. }
    unfold add_server at 1. rewrite He. reflexivity.
  - intros server' channel. apply add_server_model_of.
  - apply add_server_active.
Qed.

Lemma X5_add_server_witness :
  chat_exists irc irc new_ChatListModel = false
  /\ count_chats irc irc (add_server irc new_ChatListModel).2 = 1%nat.
Proof.
  pose proof (X5_add_server irc new_ChatListModel) as (H & _).
  destruct (H eq_refl) as (_ & _ & Hc). split; [reflexivity | exact Hc].
Defined.

(** X6. [add_channel] keeps the history of a chat that has a row, and
    discards the history of a chat that has none: a chat known only by
    its messages starts empty when it is added to the list. *)
Theorem X6_add_channel_history server channel is_private now st :
  (chat_exists server channel st = true ->
     history server channel (add_channel server channel is_private now st).2
     = history server channel st)
  /\ (chat_exists server channel st = false ->
        history server channel (add_channel server channel is_private now st).2 = []).
Proof.
  unfold history. rewrite add_channel_model.
  split; intros ->; simpl; [|reflexivity].
  destruct (chat_model_of server channel st); reflexivity.
Qed.

Lemma X6_add_channel_history_witness :
  chat_exists irc "bob" unlisted = false
  /\ length (history irc "bob" unlisted) = 1%nat
  /\ history irc "bob" (add_channel irc "bob" true 1 unlisted).2 = [].
Proof.
  pose proof (X6_add_channel_history irc "bob" true 1 unlisted) as (_ & H).
  split; [reflexivity|]. split; [reflexivity | exact (H eq_refl)].
Defined.

(** X7. [get_chat_model] makes the model of a chat when it is missing and
    hands out the one the store holds; it never touches the rows, the
    pointer or the model of another chat, and asking again gives the
    same model and changes nothing. *)
Theorem X7_get_chat_model server channel now now' st :
  let r := get_chat_model server channel now st in
  chat_model_of server channel r.2 = Some r.1
  /\ (forall model, chat_model_of server channel st = Some model -> r = (model, st))
  /\ (chat_model_of server channel st = None -> r.1 = new_ChatModel "" now)
  /\ _chats r.2 = _chats st
  /\ active_chat r.2 = active_chat st
  /\ (forall server' channel', (server', channel') <> (server, channel) ->
        chat_model_of server' channel' r.2 = chat_model_of server' channel' st)
  /\ get_chat_model server channel now' r.2 = r.
Proof.
  intros r. subst r.
  split; [apply get_chat_model_stored|].
  split; [|split; [|split; [apply get_chat_model_chats|split;
    [apply get_chat_model_active|split]]]].
  - intros model Hm. unfold get_chat_model. unfold chat_model_of in Hm. rewrite Hm.
    reflexivity.
  - intros Hm. rewrite get_chat_model_fst, Hm. reflexivity.
  - intros server' channel' Hne. apply get_chat_model_other. exact Hne.
  - pose proof (get_chat_model_stored server channel now st) as Hs.
    destruct (get_chat_model server channel now st) as [model st1]. simpl in *.
    unfold get_chat_model. unfold chat_model_of in Hs. rewrite Hs. reflexivity.
Qed.

(** X8. [update_channel_info] on a chat without a row returns false and
    changes nothing. On a chat with a row it returns true and rewrites the
    chat's row only: the preview is the message, led by the sender when
    one is given and not empty; the time is that of the call; the unread
    count grows by one exactly when the update counts as unread and the
    chat is not the active one. *)
Theorem X8_update_channel_info server channel text sender is_unread now st :
  let r := update_channel_info server channel text sender is_unread now st in
  (find_chat server channel st = None -> r = (false, st))
  /\ (forall chat, find_chat server channel st = Some chat ->
        r.1 = true
        /\ exists chat', find_chat server channel r.2 = Some chat'
             /\ last_message chat'
                = match sender with
                  | Some s => if truthy s then s +:+ ": " +:+ text else text
                  | None => text
                  end
             /\ last_message_time chat' = strftime_HM now
             /\ unread_count chat'
                = (if is_unread && not_active server channel st
                   then S (unread_count chat) else unread_count chat)
             /\ name chat' = name chat /\ models.server chat' = models.server chat
             /\ is_private chat' = is_private chat)
  /\ (forall server' channel', (server', channel') <> (server, channel) ->
        find_chat server' channel' r.2 = find_chat server' channel' st)
  /\ length (_chats r.2) = length (_chats st)
  /\ _chat_models r.2 = _chat_models st
  /\ active_chat r.2 = active_chat st.
Proof.
  intros r. subst r.
  split; [|split; [|split; [|split; [|split]]]].
  - intros Hn. apply update_channel_info_missing.
    destruct (chat_exists server channel st) eqn:He; [|reflexivity].
    apply chat_exists_find in He as [chat Hc]. congruence.
  - intros chat Hc.
    assert (chat_exists server channel st = true) as He.
    { apply chat_exists_find. rewrite Hc. eauto. }
    unfold update_channel_info. rewrite He. simpl. split; [reflexivity|].
    unfold find_chat in *. simpl.
    rewrite find_update_first by (intros c H; exact H). rewrite Hc. simpl.
    eexists. split; [reflexivity|]. simpl. repeat split.
  - intros server' channel' Hne. apply update_channel_info_find_other. exact Hne.
  - unfold update_channel_info. destruct (chat_exists server channel st); [|reflexivity].
    simpl. apply update_first_length.
  - apply update_channel_info_models.
  - apply update_channel_info_active.
Qed.

Lemma X8_update_channel_info_witness :
  find_chat irc "#general" joined = Some (new_chat "#general" irc false)
  /\ unread_of irc "#general"
       (update_channel_info irc "#general" "hi" (Some "bob") true 0 joined).2
     = Some 1%nat.
Proof.
  pose proof (X8_update_channel_info irc "#general" "hi" (Some "bob") true 0 joined)
    as (_ & H & _).
  destruct (H _ eq_refl) as (_ & chat' & Hf & _ & _ & Hu & _).
  split; [reflexivity|]. unfold unread_of. rewrite Hf. simpl. rewrite Hu. reflexivity.
Defined.

(** X9. [add_system_message_to_chat] appends one message from "System",
    flagged as a system message, to the chat's history, making the model
    when it is missing; the rows, and so every unread count, and the
    pointer are as before. *)
Theorem X9_add_system_message_to_chat server channel content now st :
  let r := add_system_message_to_chat server channel content now st in
  r.1 = true
  /\ history server channel r.2
     = history server channel st
       ++ [{| sender := "System"; content := content; timestamp := now; is_system := true |}]
  /\ _chats r.2 = _chats st
  /\ active_chat r.2 = active_chat st
  /\ (forall server' channel', (server', channel') <> (server, channel) ->
        chat_model_of server' channel' r.2 = chat_model_of server' channel' st).
Proof.
  intros r. subst r.
  split; [|split; [|split; [apply add_system_message_to_chat_chats|split;
    [apply add_system_message_to_chat_active|]]]].
  - unfold add_system_message_to_chat. destruct (get_chat_model _ _ _ _). reflexivity.
  - unfold add_system_message_to_chat, history.
    pose proof (get_chat_model_fst server channel now st) as Hf.
    destruct (get_chat_model server channel now st) as [chat_model st1]. simpl in *.
    unfold chat_model_of at 1. simpl. rewrite model_of_put_model. simpl. rewrite Hf.
    destruct (chat_model_of server channel st); reflexivity.
  - intros server' channel' Hne. apply add_system_message_to_chat_model_other. exact Hne.
Qed.

End chat_list_more.

(** ** Removing a chat *)

Section remove_channel_more.
Import models observe store_ops examples.

Lemma index_of_chat_split server channel l k i :
  index_of_chat server channel k l = Some i ->
  exists l1 chat l2,
    l = l1 ++ chat :: l2 /\ i = (k + length l1)%nat
    /\ is_chat server channel chat = true
    /\ existsb (is_chat server channel) l1 = false.
Proof.
  revert k. induction l as [|c l IH]; intros k; simpl; [discriminate|].
  destruct (is_chat server channel c) eqn:Hc.
  - intros [= <-]. exists [], c, l. simpl. repeat split; [lia | exact Hc].
  - intros H. destruct (IH _ H) as (l1 & chat & l2 & -> & -> & Hchat & Hl1).
    exists (c :: l1), chat, l2. simpl. rewrite Hc. repeat split; [lia | exact Hchat | exact Hl1].
Qed.

Lemma index_of_chat_none server channel l k :
  index_of_chat server channel k l = None <-> existsb (is_chat server channel) l = false.
Proof.
  revert k. induction l as [|c l IH]; intros k; simpl; [tauto|].
  destruct (is_chat server channel c); simpl; [split; discriminate | apply IH].
Qed.

Lemma del_index_split (l1 l2 : list Chat) chat :
  del_index (length l1) (l1 ++ chat :: l2) = l1 ++ l2.
Proof.
  unfold del_index. induction l1 as [|c l1 IH]; simpl; [rewrite drop_0; reflexivity|].
  f_equal. exact IH.
Qed.

(** The rows after [remove_channel]: the first row of the chat is taken
    out. *)
Lemma remove_channel_rows server channel st :
  chat_exists server channel st = true ->
  exists l1 chat l2,
    _chats st = l1 ++ chat :: l2
    /\ is_chat server channel chat = true
    /\ existsb (is_chat server channel) l1 = false
    /\ _chats (remove_channel server channel st).1.2 = l1 ++ l2
    /\ (remove_channel server channel st).1.1 = true.
Proof.
  intros He. unfold remove_channel.
  destruct (index_of_chat server channel 0 (_chats st)) as [i|] eqn:Hi.
  - destruct (index_of_chat_split _ _ _ _ _ Hi) as (l1 & chat & l2 & Hl & -> & Hc & Hl1).
    exists l1, chat, l2. split; [exact Hl|]. split; [exact Hc|]. split; [exact Hl1|].
    simpl. rewrite Hl, del_index_split.
    destruct (_chat_models st !! server) as [inner|]; [destruct (inner !! channel)|];
      simpl; destruct (_ && _); simpl; auto.
  - apply index_of_chat_none in Hi. unfold chat_exists in He. congruence.
Qed.

Lemma remove_channel_missing server channel st :
  chat_exists server channel st = false -> remove_channel server channel st = (false, st, []).
Proof.
  intros He. unfold remove_channel.
  apply (index_of_chat_none server channel (_chats st) 0) in He. rewrite He. reflexivity.
Qed.

Lemma remove_channel_models server channel server' channel' st :
  chat_model_of server' channel' (remove_channel server channel st).1.2
  = if chat_exists server channel st
    then if decide ((server', channel') = (server, channel)) then None
         else chat_model_of server' channel' st
    else chat_model_of server' channel' st.
Proof.
  destruct (chat_exists server channel st) eqn:He;
    [|rewrite remove_channel_missing by exact He; reflexivity].
  unfold remove_channel.
  destruct (index_of_chat server channel 0 (_chats st)) as [i|] eqn:Hi;
    [|apply index_of_chat_none in Hi; unfold chat_exists in He; congruence].
  assert (forall st2, chat_model_of server' channel'
            (if negb (opt_str_ne (_active_server st2) server)
                && negb (opt_str_ne (_active_channel st2) channel)
             then (true, set_active None None st2, [activeChannelChanged "" ""])
             else (true, st2, [])).1.2 = chat_model_of server' channel' st2) as Hact.
  { intros st2. destruct (_ && _); reflexivity. }
  simpl. rewrite Hact. unfold chat_model_of, model_of. simpl.
  destruct (_chat_models st !! server) as [inner|] eqn:Hs.
  - destruct (inner !! channel) as [model|] eqn:Hc; simpl.
    + destruct (decide ((server', channel') = (server, channel))) as [[= -> ->]|Hne].
      * rewrite lookup_insert_eq. simpl. apply lookup_delete_eq.
      * destruct (decide (server = server')) as [->|Hs'].
        -- rewrite lookup_insert_eq, Hs. simpl. apply lookup_delete_ne. congruence.
        -- rewrite lookup_insert_ne by exact Hs'. reflexivity.
    + destruct (decide ((server', channel') = (server, channel))) as [[= -> ->]|Hne];
        [|reflexivity].
      simpl. rewrite Hs. simpl. exact Hc.
  - destruct (decide ((server', channel') = (server, channel))) as [[= -> ->]|Hne];
      [|reflexivity].
    simpl. rewrite Hs. reflexivity.
Qed.

Lemma remove_channel_active server channel st :
  chat_exists server channel st = true ->
  (active_chat st = (Some server, Some channel) ->
     active_chat (remove_channel server channel st).1.2 = (None, None)
     /\ (remove_channel server channel st).2 = [activeChannelChanged "" ""])
  /\ (active_chat st <> (Some server, Some channel) ->
        active_chat (remove_channel server channel st).1.2 = active_chat st
        /\ (remove_channel server channel st).2 = []).
Proof.
  intros He. unfold remove_channel.
  destruct (index_of_chat server channel 0 (_chats st)) as [i|] eqn:Hi;
    [|apply index_of_chat_none in Hi; unfold chat_exists in He; congruence].
  assert (forall st2, active_chat st2 = active_chat st ->
    let r := (if negb (opt_str_ne (_active_server st2) server)
                 && negb (opt_str_ne (_active_channel st2) channel)
              then (true, set_active None None st2, [activeChannelChanged "" ""])
              else (true, st2, [])) in
    (active_chat st = (Some server, Some channel) ->
       active_chat r.1.2 = (None, None) /\ r.2 = [activeChannelChanged "" ""])
    /\ (active_chat st <> (Some server, Some channel) ->
          active_chat r.1.2 = active_chat st /\ r.2 = [])) as H.
  { intros st2 Ha r. subst r.
    assert (not_active server channel st2 = not_active server channel st) as Hn
      by (apply not_active_eq; exact Ha).
    unfold not_active in Hn at 1.
    rewrite <- negb_orb, Hn.
    destruct (not_active server channel st) eqn:Hna; simpl.
    - split; [|auto]. intros Hst. apply not_active_false in Hst. congruence.
    - apply not_active_false in Hna. split; [auto|]. intros Hst. contradiction. }
  simpl. apply H.
  destruct (_chat_models st !! server) as [inner|]; [destruct (inner !! channel)|];
    reflexivity.
Qed.

(** X10. [remove_channel] on a chat without a row returns false and
    changes nothing. On a chat with a row it returns true, takes out
    exactly one row of the chat (the first) and the chat's model, and
    leaves the rows and models of every other chat as they were; the
    pointer is emptied, with one [activeChannelChanged("", "")], exactly
    when it named the chat. *)
Theorem X10_remove_channel server channel st :
  let r := remove_channel server channel st in
  (chat_exists server channel st = false -> r = (false, st, []))
  /\ (chat_exists server channel st = true ->
        r.1.1 = true
        /\ S (count_chats server channel r.1.2) = count_chats server channel st
        /\ chat_model_of server channel r.1.2 = None
        /\ (forall server' channel', (server', channel') <> (server, channel) ->
              find_chat server' channel' r.1.2 = find_chat server' channel' st
              /\ chat_model_of server' channel' r.1.2 = chat_model_of server' channel' st)
        /\ (active_chat st = (Some server, Some channel) ->
              active_chat r.1.2 = (None, None) /\ r.2 = [activeChannelChanged "" ""])
        /\ (active_chat st <> (Some server, Some channel) ->
              active_chat r.1.2 = active_chat st /\ r.2 = [])).
Proof.
  intros r. subst r. split; [apply remove_channel_missing|].
  intros He.
  destruct (remove_channel_rows server channel st He)
    as (l1 & chat & l2 & Hl & Hc & Hl1 & Hrows & Hres).
  split; [exact Hres|]. split; [|split; [|split]].
  - unfold count_chats. rewrite Hrows, Hl, !count_chats_app. simpl. rewrite Hc. simpl. lia.
  - rewrite remove_channel_models, He. rewrite decide_True by reflexivity. reflexivity.
  - intros server' channel' Hne. split.
    + unfold find_chat. rewrite Hrows, Hl.
      assert (is_chat server' channel' chat = false) as Hq
        by (eapply is_chat_distinct; eassumption).
      clear -Hq. induction l1 as [|c l1 IH]; simpl; [rewrite Hq; reflexivity|].
      destruct (is_chat server' channel' c); [reflexivity | exact IH].
    + rewrite remove_channel_models, He. rewrite decide_False by exact Hne. reflexivity.
  - apply remove_channel_active. exact He.
Qed.

Lemma X10_remove_channel_witness :
  chat_exists irc "#general" joined = true
  /\ count_chats irc "#general" (remove_channel irc "#general" joined).1.2 = 0%nat
  /\ chat_model_of irc "#general" (remove_channel irc "#general" joined).1.2 = None.
Proof.
  pose proof (X10_remove_channel irc "#general" joined) as (_ & H).
  destruct (H eq_refl) as (_ & Hc & Hm & _).
  split; [reflexivity|]. split; [|exact Hm].
  change (count_chats irc "#general" joined) with 1%nat in Hc. lia.
Defined.

End remove_channel_more.

(** ** What every history of the chat list keeps *)

Section invariants.
Import models observe store_ops examples.

Lemma count_new_chat server channel name' server' is_private :
  length (List.filter (is_chat server channel) [new_chat name' server' is_private])
  = if is_chat server channel (new_chat name' server' is_private) then 1%nat else 0%nat.
Proof. simpl. destruct (is_chat _ _ _); reflexivity. Qed.

Lemma count_zero server channel st :
  chat_exists server channel st = false -> count_chats server channel st = 0%nat.
Proof. apply existsb_filter_length. Qed.

Lemma is_chat_new_chat_iff server channel name' server' is_private :
  is_chat server channel (new_chat name' server' is_private) = true
  <-> server' = server /\ name' = channel.
Proof. rewrite is_chat_true. reflexivity. Qed.

Lemma add_server_unique server st : rows_unique st -> rows_unique (add_server server st).2.
Proof.
  intros Hu a b. unfold count_chats. rewrite add_server_chats.
  destruct (chat_exists server server st) eqn:He; [rewrite app_nil_r; apply Hu|].
  rewrite count_chats_app, count_new_chat.
  destruct (is_chat a b (new_chat server server false)) eqn:Hn.
  - apply is_chat_new_chat_iff in Hn as [<- <-].
    fold (count_chats server server st). rewrite (count_zero _ _ _ He).
    rewrite String.eqb_refl. simpl. lia.
  - rewrite Nat.add_0_r. apply Hu.
Qed.

Lemma add_channel_unique server channel is_private now st :
  rows_unique st -> rows_unique (add_channel server channel is_private now st).2.
Proof.
  intros Hu a b. unfold count_chats. rewrite add_channel_chats.
  destruct (chat_exists server channel st) eqn:He; [apply Hu|].
  rewrite !count_chats_app, count_new_chat. fold (count_chats a b st).
  destruct (is_chat a b (new_chat channel server is_private)) eqn:Hn.
  - apply is_chat_new_chat_iff in Hn as [<- <-].
    rewrite (count_zero _ _ _ He).
    destruct (chat_exists server server st); simpl.
    + destruct (server =? channel)%string; lia.
    + destruct (is_chat server channel (new_chat server server false)) eqn:Hs; simpl.
      * apply is_chat_new_chat_iff in Hs as [_ <-]. rewrite String.eqb_refl. lia.
      * destruct (server =? channel)%string; lia.
  - rewrite Nat.add_0_r.
    destruct (chat_exists server server st) eqn:Hss; simpl; [rewrite Nat.add_0_r; apply Hu|].
    destruct (is_chat a b (new_chat server server false)) eqn:Hs; simpl.
    + apply is_chat_new_chat_iff in Hs as [<- <-].
      rewrite (count_zero _ _ _ Hss), String.eqb_refl. lia.
    + rewrite Nat.add_0_r. apply Hu.
Qed.

Lemma filter_filter_le {A} (q r : A -> bool) l :
  (length (List.filter q (List.filter r l)) <= length (List.filter q l))%nat.
Proof.
  induction l as [|c l IH]; simpl; [lia|].
  destruct (r c); simpl; destruct (q c); simpl; lia.
Qed.

Lemma remove_server_chats server st :
  _chats (remove_server server st).1.2
  = List.filter (fun chat => negb (models.server chat =? server)%string) (_chats st).
Proof.
  destruct (existsb (fun chat => (models.server chat =? server)%string) (_chats st)) eqn:He.
  - rewrite (remove_server_rows _ _ He). simpl.
    destruct (negb (opt_str_ne (_active_server st) server)); reflexivity.
  - rewrite (remove_server_no_row _ _ He). simpl. symmetry. apply filter_no_row. exact He.
Qed.

Lemma remove_server_unique server st :
  rows_unique st -> rows_unique (remove_server server st).1.2.
Proof.
  intros Hu a b. pose proof (remove_server_chats server st) as Hrows.
  unfold count_chats. rewrite Hrows.
  etransitivity; [apply filter_filter_le | apply Hu].
Qed.

Lemma remove_channel_unique server channel st :
  rows_unique st -> rows_unique (remove_channel server channel st).1.2.
Proof.
  intros Hu a b.
  destruct (chat_exists server channel st) eqn:He;
    [|rewrite remove_channel_missing by exact He; apply Hu].
  destruct (remove_channel_rows server channel st He)
    as (l1 & chat & l2 & Hl & _ & _ & Hrows & _).
  specialize (Hu a b). unfold count_chats in *. rewrite Hrows. rewrite Hl in Hu.
  rewrite count_chats_app in *. simpl in Hu. destruct (is_chat a b chat); simpl in Hu; lia.
Qed.

Lemma set_active_chat_rows server channel now st :
  let rows := _chats (set_active_chat server channel now st).1.2 in
  rows = _chats st
  \/ rows = update_first (is_chat server channel) clear_unread (_chats st)
  \/ rows = update_first (is_chat server channel) clear_unread
              (_chats (add_channel server channel false now st).2).
Proof.
  unfold set_active_chat.
  destruct (negb (chat_exists server channel st) && truthy channel) eqn:Hc.
  - apply andb_true_iff in Hc as [_ Hc].
    destruct (truthy server) eqn:Hs; [|left; reflexivity].
    simpl. rewrite Hc. simpl. right; right; reflexivity.
  - simpl. destruct (truthy server && truthy channel); simpl; [right; left | left];
      reflexivity.
Qed.

Lemma set_active_chat_unique server channel now st :
  rows_unique st -> rows_unique (set_active_chat server channel now st).1.2.
Proof.
  intros Hu a b. unfold count_chats.
  destruct (set_active_chat_rows server channel now st) as [->|[->| ->]].
  - apply Hu.
  - rewrite filter_update_first by (intros c; apply clear_unread_is_chat). apply Hu.
  - rewrite filter_update_first by (intros c; apply clear_unread_is_chat).
    apply (add_channel_unique server channel false now st Hu).
Qed.

Lemma apply_op_unique st op : rows_unique st -> rows_unique (apply_op st op).
Proof.
  intros Hu.
  destruct op as [s|s c p now|s|s c|s c now|s c now|s c sender content now
                 |s c content now|s c text sender unread now]; simpl.
  - apply add_server_unique. exact Hu.
  - apply add_channel_unique. exact Hu.
  - apply remove_server_unique. exact Hu.
  - apply remove_channel_unique. exact Hu.
  - intros a b. unfold count_chats. rewrite get_chat_model_chats. apply Hu.
  - apply set_active_chat_unique. exact Hu.
  - intros a b. unfold count_chats. rewrite add_message_to_chat_chats.
    rewrite filter_update_first by (intros x; reflexivity). apply Hu.
  - intros a b. unfold count_chats. rewrite add_system_message_to_chat_chats. apply Hu.
  - intros a b. unfold count_chats, update_channel_info.
    destruct (chat_exists s c st); [|apply Hu]. simpl.
    rewrite filter_update_first by (intros x; reflexivity). apply Hu.
Qed.

(** X11. In every store built from the empty one by the methods of the
    chat list, a chat identity has at most one row, except the identity
    of a server's own row (the channel named as its server), which has at
    most two. *)
Theorem X11_rows_unique ops : rows_unique (apply_ops ops new_ChatListModel).
Proof.
  assert (forall st, rows_unique st -> rows_unique (apply_ops ops st)) as H.
  { induction ops as [|op ops IH]; intros st Hu; [exact Hu|].
    apply IH, apply_op_unique, Hu. }
  apply H. intros a b. unfold count_chats. simpl. destruct (a =? b)%string; lia.
Qed.

(** *** The pointer *)

Lemma pointer_ok_keep st st' :
  active_chat st' = active_chat st ->
  (forall s c, chat_exists s c st = true -> chat_exists s c st' = true) ->
  pointer_ok st -> pointer_ok st'.
Proof.
  unfold pointer_ok, active_chat. intros [= -> ->] Hm.
  destruct (_active_server st), (_active_channel st); auto.
Qed.

Lemma pointer_ok_cleared st : pointer_ok (set_active None None st).
Proof. exact I. Qed.

Lemma existsb_filter_keep {A} (q r : A -> bool) l :
  (forall x, q x = true -> r x = true) ->
  existsb q (List.filter r l) = existsb q l.
Proof.
  intros H. induction l as [|x l IH]; simpl; [reflexivity|].
  destruct (r x) eqn:Hr; simpl; [rewrite IH; reflexivity|].
  destruct (q x) eqn:Hq; [rewrite (H x Hq) in Hr; discriminate | exact IH].
Qed.

Lemma remove_server_pointer server st : pointer_ok st -> pointer_ok (remove_server server st).1.2.
Proof.
  intros Hp.
  destruct (existsb (fun chat => (models.server chat =? server)%string) (_chats st)) eqn:He;
    [|rewrite (remove_server_no_row _ _ He); exact Hp].
  rewrite (remove_server_rows _ _ He). simpl.
  destruct (opt_str_ne (_active_server st) server) eqn:Ha; simpl; [|exact I].
  unfold pointer_ok in *. simpl.
  destruct (_active_server st) as [ps|], (_active_channel st) as [pc|]; auto.
  intros H1 H2. specialize (Hp H1 H2). unfold chat_exists in *. simpl.
  rewrite existsb_filter_keep; [exact Hp|].
  intros x [Hx _]%is_chat_true. simpl in Ha. rewrite Hx. exact Ha.
Qed.

Lemma remove_channel_pointer server channel st :
  pointer_ok st -> pointer_ok (remove_channel server channel st).1.2.
Proof.
  intros Hp.
  destruct (chat_exists server channel st) eqn:He;
    [|rewrite remove_channel_missing by exact He; exact Hp].
  destruct (remove_channel_rows server channel st He)
    as (l1 & chat & l2 & Hl & Hc & _ & Hrows & _).
  destruct (remove_channel_active server channel st He) as [Hyes Hno].
  destruct (decide (active_chat st = (Some server, Some channel))) as [Ha|Ha].
  - destruct (Hyes Ha) as [Hnone _]. unfold pointer_ok, active_chat in *.
    injection Hnone as -> ->. exact I.
  - destruct (Hno Ha) as [Hsame _]. unfold pointer_ok, active_chat in *.
    injection Hsame as -> ->.
    destruct (_active_server st) as [ps|], (_active_channel st) as [pc|]; auto.
    intros H1 H2. specialize (Hp H1 H2). unfold chat_exists in *.
    rewrite Hrows. rewrite Hl in Hp. rewrite existsb_app in *. simpl in Hp.
    assert (is_chat ps pc chat = false) as Hq.
    { eapply is_chat_distinct; [|exact Hc]. congruence. }
    rewrite Hq in Hp. exact Hp.
Qed.

Lemma set_active_chat_pointer server channel now st :
  pointer_ok st -> pointer_ok (set_active_chat server channel now st).1.2.
Proof.
  intros Hp.
  destruct (decide (server = "")) as [->|Hs]; [|destruct (decide (channel = "")) as [->|Hc]].
  - unfold set_active_chat. simpl.
    destruct (negb (chat_exists "" channel st) && truthy channel); [exact Hp|].
    simpl. unfold pointer_ok. simpl. intros H. contradiction.
  - rewrite set_active_chat_empty_channel. unfold pointer_ok. simpl. intros _ H. contradiction.
  - rewrite set_active_chat_truthy by assumption. unfold pointer_ok. simpl.
    intros _ _.
    destruct (chat_exists server channel st) eqn:He; unfold chat_exists; simpl;
      rewrite existsb_update_first by (intros x; apply clear_unread_is_chat);
      [exact He | apply add_channel_exists].
Qed.

Lemma apply_op_pointer st op : pointer_ok st -> pointer_ok (apply_op st op).
Proof.
  intros Hp.
  destruct op as [s|s c p now|s|s c|s c now|s c now|s c sender content now
                 |s c content now|s c text sender unread now]; simpl.
  - apply (pointer_ok_keep st); [apply add_server_active | | exact Hp].
    intros a b H. unfold chat_exists in *. rewrite add_server_chats, existsb_app, H.
    reflexivity.
  - apply (pointer_ok_keep st); [apply add_channel_active | | exact Hp].
    intros a b H. unfold chat_exists at 1. rewrite add_channel_chats.
    destruct (chat_exists s c st); [exact H|].
    unfold chat_exists in H. rewrite existsb_app, H. reflexivity.
  - apply remove_server_pointer. exact Hp.
  - apply remove_channel_pointer. exact Hp.
  - apply (pointer_ok_keep st); [apply get_chat_model_active | | exact Hp].
    intros a b H. unfold chat_exists in *. rewrite get_chat_model_chats. exact H.
  - apply set_active_chat_pointer. exact Hp.
  - apply (pointer_ok_keep st); [apply add_message_to_chat_active | | exact Hp].
    intros a b H. unfold chat_exists in *. rewrite add_message_to_chat_chats.
    rewrite existsb_update_first by (intros x; reflexivity). exact H.
  - apply (pointer_ok_keep st); [apply add_system_message_to_chat_active | | exact Hp].
    intros a b H. unfold chat_exists in *. rewrite add_system_message_to_chat_chats. exact H.
  - apply (pointer_ok_keep st); [apply update_channel_info_active | | exact Hp].
    intros a b H. unfold update_channel_info. destruct (chat_exists s c st); [|exact H].
    unfold chat_exists in *. simpl.
    rewrite existsb_update_first by (intros x; reflexivity). exact H.
Qed.

Lemma apply_ops_pointer ops st : pointer_ok st -> pointer_ok (apply_ops ops st).
Proof.
  revert st. induction ops as [|op ops IH]; intros st Hp; [exact Hp|].
  apply IH, apply_op_pointer, Hp.
Qed.

(** X12. In every store built from the empty one by the methods of the
    chat list, the pointer is either empty or names a server and a
    channel together, and when both names are non-empty the chat it names
    has a row: the pointer never outlives its chat. *)
Theorem X12_pointer_ok ops : pointer_ok (apply_ops ops new_ChatListModel).
Proof. apply apply_ops_pointer. exact I. Qed.

(** X13. In such a store, if the pointer names a chat of [server] with
    non-empty names, [remove_server(server)] succeeds, empties the
    pointer and emits [activeChannelChanged("", "")] once; and
    [remove_channel] on the chat it names does the same. *)
Theorem X13_remove_active ops server channel :
  let st := apply_ops ops new_ChatListModel in
  active_chat st = (Some server, Some channel) ->
  server <> "" -> channel <> "" ->
  (remove_server server st).1.1 = true
  /\ active_chat (remove_server server st).1.2 = (None, None)
  /\ (remove_server server st).2 = [activeChannelChanged "" ""]
  /\ (remove_channel server channel st).1.1 = true
  /\ active_chat (remove_channel server channel st).1.2 = (None, None)
  /\ (remove_channel server channel st).2 = [activeChannelChanged "" ""].
Proof.
  intros st Ha Hs Hc.
  pose proof (apply_ops_pointer ops new_ChatListModel I) as Hp. fold st in Hp.
  unfold pointer_ok in Hp. unfold active_chat in Ha. injection Ha as Ha1 Ha2.
  rewrite Ha1, Ha2 in Hp. specialize (Hp Hs Hc).
  assert (existsb (fun chat => (models.server chat =? server)%string) (_chats st) = true)
    as He.
  { unfold chat_exists in Hp. apply existsb_exists in Hp as (chat & Hin & Hchat).
    apply existsb_exists. exists chat. split; [exact Hin|].
    apply is_chat_true in Hchat as [-> _]. apply String.eqb_refl. }
  rewrite (remove_server_rows _ _ He). simpl.
  rewrite Ha1. simpl. rewrite String.eqb_refl. simpl.
  split; [reflexivity|]. split; [reflexivity|]. split; [reflexivity|].
  destruct (remove_channel_rows server channel st Hp) as (_ & _ & _ & _ & _ & _ & _ & Hres).
  destruct (remove_channel_active server channel st Hp) as [Hyes _].
  assert (active_chat st = (Some server, Some channel)) as Hact
    by (unfold active_chat; rewrite Ha1, Ha2; reflexivity).
  destruct (Hyes Hact) as [H1 H2]. auto.
Qed.

Lemma X13_remove_active_witness :
  let ops := [op_add_server irc; op_set_active_chat irc "#general" 0;
              op_add_message_to_chat irc "#general" "bob" "hi" 1] in
  active_chat (apply_ops ops new_ChatListModel) = (Some irc, Some "#general")
  /\ active_chat (remove_server irc (apply_ops ops new_ChatListModel)).1.2 = (None, None).
Proof.
  intros ops.
  assert (active_chat (apply_ops ops new_ChatListModel) = (Some irc, Some "#general"))
    as Ha by reflexivity.
  assert (irc <> "") as Hs by discriminate.
  assert ("#general" <> "") as Hc by discriminate.
  destruct (X13_remove_active ops irc "#general" Ha Hs Hc) as (_ & H & _).
  split; [exact Ha | exact H].
Defined.

End invariants.

(** ** The registry of sessions *)

Section registry_more.
Import irc_client examples.






(** X15. Once [disconnect_from_server] has returned for a server, that
    server has no session: joining it is refused, leaving it and sending
    to it make no call on any connection, sending emits nothing, a poll
    of it reports false and dispatches nothing, and disconnecting it
    again is a no-op. *)
Theorem X15_after_disconnect server message st channel text sent ready :
  let st' := (disconnect_from_server server message returns st).1.1.2 in
  lookup_client server (clients st') = None
  /\ join_channel server channel st' = (false, [])
  /\ leave_channel server channel text st' = []
  /\ send_message server channel text sent st' = (false, [], [])
  /\ process_once server ready st' = (false, [])
  /\ disconnect_from_server server message returns st' = (returned (), st', [], []).
Proof.
  intros st'.
  assert (lookup_client server (clients st') = None) as Hl.
  { subst st'. unfold disconnect_from_server.
    destruct (lookup_client server (clients st)) eqn:H; simpl;
      [apply lookup_del_client | exact H]. }
  split; [exact Hl|].
  unfold join_channel, leave_channel, send_message, process_once, disconnect_from_server.
  rewrite Hl. repeat split.
Qed.

End registry_more.

(** ** The controller *)

Section controller_more.
Import models observe app_controller examples.

(** X16. What one poll of a server with a valid socket brings in. A
    channel message is filed under the channel and a private message
    under the nickname of its sender: the history of that chat grows by
    the message. A join or a part of somebody else dispatches nothing;
    the user's own join gives the channel a row. A poll of a socket that
    is not readable reports true and dispatches nothing; a failure of
    [select] or of the processing reports false. *)
Theorem X16_inbound_events server client now st :
  irc_client.lookup_client server (irc_client.clients (_irc_client st)) = Some client ->
  irc_client.socket client = irc_client.open_fd ->
  (forall nick target text,
     let r := irc_client.process_once server
                (irc_client.readable [irc_client.pubmsg nick target text] false)
                (_irc_client st) in
     r = (true, [message_received server target nick text])
     /\ history server target (_chat_list_model (deliver_all now r.2 st).1)
        = history server target (_chat_list_model st)
          ++ [{| sender := nick; content := text; timestamp := now; is_system := false |}])
  /\ (forall nick text,
        let r := irc_client.process_once server
                   (irc_client.readable [irc_client.privmsg nick text] false)
                   (_irc_client st) in
        r = (true, [message_received server nick nick text])
        /\ history server nick (_chat_list_model (deliver_all now r.2 st).1)
           = history server nick (_chat_list_model st)
             ++ [{| sender := nick; content := text; timestamp := now; is_system := false |}])
  /\ (forall target nick, nick <> irc_client.nickname client ->
        irc_client.process_once server
          (irc_client.readable [irc_client.join target nick; irc_client.part target nick] false)
          (_irc_client st) = (true, []))
  /\ (forall target,
        let r := irc_client.process_once server
                   (irc_client.readable [irc_client.join target (irc_client.nickname client)]
                      false) (_irc_client st) in
        r = (true, [channel_joined server target])
        /\ chat_exists server target (_chat_list_model (deliver_all now r.2 st).1) = true)
  /\ irc_client.process_once server irc_client.not_readable (_irc_client st) = (true, [])
  /\ irc_client.process_once server irc_client.select_raises (_irc_client st) = (false, [])
  /\ (forall events,
        (irc_client.process_once server (irc_client.readable events true)
           (_irc_client st)).1 = false).
Proof.
  intros Hl Hs. unfold irc_client.process_once. rewrite Hl, Hs. simpl.
  split; [|split; [|split; [|split; [|split; [|split]]]]]; try reflexivity.
  - intros nick target text. split; [reflexivity|].
    pose proof (_on_message_received_history server target nick text now st) as Hh.
    destruct (_on_message_received server target nick text now st) as [st1 out]. exact Hh.
  - intros nick text. split; [reflexivity|].
    pose proof (_on_message_received_history server nick nick text now st) as Hh.
    destruct (_on_message_received server nick nick text now st) as [st1 out]. exact Hh.
  - intros target nick Hne.
    assert ((nick =? irc_client.nickname client)%string = false) as ->
      by (apply String.eqb_neq; exact Hne).
    reflexivity.
  - intros target. rewrite String.eqb_refl. simpl. split; [reflexivity|].
    pose proof (_on_channel_joined_chats server target now st) as Hc.
    destruct (_on_channel_joined server target now st) as [st1 out]. simpl in *.
    unfold chat_exists. rewrite Hc. apply add_channel_exists.
Qed.

Lemma X16_inbound_events_witness :
  irc_client.lookup_client irc (irc_client.clients (_irc_client online))
  = Some {| irc_client.nickname := "nick"; irc_client.socket := irc_client.open_fd |}
  /\ history irc "bob"
       (_chat_list_model
          (deliver_all 9
             (irc_client.process_once irc
                (irc_client.readable [irc_client.privmsg "bob" "psst"] false)
                (_irc_client online)).2 online).1)
     = [{| sender := "bob"; content := "psst"; timestamp := 9; is_system := false |}].
Proof.
  pose proof (X16_inbound_events irc _ 9 online eq_refl eq_refl) as (_ & H & _).
  destruct (H "bob" "psst") as [_ Hh]. split; [reflexivity | exact Hh].
Defined.


End controller_more.

Section controller_more_2.
Import models observe app_controller examples.

(** X18. The [nickname] setter. An empty nickname and the current
    nickname are ignored. Any other nickname becomes the controller's and
    the own nickname of every chat model of the store; the histories and
    the rows are as before. *)
Theorem X18_set_nickname nickname st :
  (nickname = "" \/ nickname = _nickname st -> set_nickname nickname st = st)
  /\ (nickname <> "" -> nickname <> _nickname st ->
        let st' := set_nickname nickname st in
        _nickname st' = nickname
        /\ (forall server channel,
              chat_model_of server channel (_chat_list_model st')
              = set_own_nickname nickname
                <$> chat_model_of server channel (_chat_list_model st))
        /\ (forall server channel,
              history server channel (_chat_list_model st')
              = history server channel (_chat_list_model st))
        /\ _chats (_chat_list_model st') = _chats (_chat_list_model st)
        /\ _irc_client st' = _irc_client st).
Proof.
  unfold set_nickname. split.
  - intros [->| ->]; [reflexivity|]. rewrite String.eqb_refl, orb_true_r. reflexivity.
  - intros Hn%truthy_true He%String.eqb_neq. rewrite Hn, He. simpl.
    assert (forall server channel,
              chat_model_of server channel
                (_chat_list_model (_update_chat_models_nickname (with_nickname nickname st)))
              = set_own_nickname nickname
                <$> chat_model_of server channel (_chat_list_model st)) as Hm.
    { intros server channel. unfold chat_model_of, model_of. simpl.
      rewrite lookup_fmap. destruct (_chat_models (_chat_list_model st) !! server); simpl;
        [apply lookup_fmap | reflexivity]. }
    split; [reflexivity|]. split; [exact Hm|]. split; [|split; reflexivity].
    intros server channel. unfold history. rewrite Hm.
    destruct (chat_model_of server channel (_chat_list_model st)); simpl;
      [apply set_own_nickname_messages | reflexivity].
Qed.

Lemma X18_set_nickname_witness :
  "neo" <> "" /\ "neo" <> _nickname watching
  /\ chat_model_of irc "#general" (_chat_list_model (set_nickname "neo" watching))
     = Some (set_own_nickname "neo" due_model).
Proof.
  assert ("neo" <> "") as H1 by discriminate.
  assert ("neo" <> _nickname watching) as H2 by discriminate.
  pose proof (X18_set_nickname "neo" watching) as (_ & H).
  destruct (H H1 H2) as (_ & Hm & _).
  split; [exact H1|]. split; [exact H2|]. rewrite Hm. reflexivity.
Defined.



End controller_more_2.

Section controller_more_3.
Import models observe app_controller examples.




End controller_more_3.

Section controller_more_4.
Import models observe app_controller examples.






End controller_more_4.

Section controller_more_5.
Import models observe app_controller examples.

Lemma in_get_servers server irc :
  existsb (String.eqb server) (irc_client.get_servers irc) = true
  <-> is_Some (irc_client.lookup_client server (irc_client.clients irc)).
Proof.
  unfold irc_client.get_servers.
  induction (irc_client.clients irc) as [|[k client] l IH]; simpl.
  - split; [discriminate | intros [? [=]]].
  - rewrite (String.eqb_sym server k).
    destruct (k =? server)%string; simpl; [split; eauto | exact IH].
Qed.

(** X22. [refresh_chat] is refused, with no change and no poll, while a
    check is running, for an empty server or channel name, and for a
    server without a session. Otherwise it polls the server, whatever the
    time of its last periodic check, succeeds, leaves the guard down and
    the chat with a model; it emits [messagesUpdated(server, channel)]
    last when the channel has the name of the active channel, on
    whichever server that one is. It never writes the times of the last
    checks nor the registry. *)
Theorem X22_refresh_chat server channel now poll st :
  let r := refresh_chat server channel now poll st in
  _last_update_time r.1.1.2 = _last_update_time st
  /\ _irc_client r.1.1.2 = _irc_client st
  /\ (_updating st = true \/ server = "" \/ channel = ""
      \/ irc_client.lookup_client server (irc_client.clients (_irc_client st)) = None ->
      r = (false, st, [], []))
  /\ (_updating st = false -> server <> "" -> channel <> "" ->
      is_Some (irc_client.lookup_client server (irc_client.clients (_irc_client st))) ->
      r.1.1.1 = true
      /\ r.1.2 = [server]
      /\ _updating r.1.1.2 = false
      /\ is_Some (chat_model_of server channel (_chat_list_model r.1.1.2))
      /\ (_active_channel (_chat_list_model r.1.1.2) = Some channel ->
            exists before, r.2 = before ++ [messagesUpdated server channel])).
Proof.
  intros r. subst r. unfold refresh_chat.
  destruct (_updating st) eqn:Hu.
  { split; [reflexivity|]. split; [reflexivity|]. split; [reflexivity | discriminate]. }
  destruct (negb (truthy server) || negb (truthy channel)
            || negb (existsb (String.eqb server) (irc_client.get_servers (_irc_client st))))
    eqn:Hg.
  { split; [reflexivity|]. split; [reflexivity|]. split; [reflexivity|].
    intros _ Hs%truthy_true Hc%truthy_true Hl%in_get_servers.
    rewrite Hs, Hc, Hl in Hg. discriminate. }
  destruct (irc_client.process_once server (poll server) (_irc_client st))
    as [update_result received].
  pose proof (deliver_all_fields now received (with_updating true st)) as (F1 & F2 & _).
  destruct (deliver_all now received (with_updating true st)) as [st1 out].
  pose proof (get_chat_model_active server channel now (_chat_list_model st1)) as Ha.
  destruct (get_chat_model server channel now (_chat_list_model st1)) as [chat_model clm].
  simpl in *.
  split; [exact F1|]. split; [exact F2|]. split.
  - intros [H|[->|[->|H]]]; [discriminate | discriminate | |].
    + rewrite orb_true_r in Hg. discriminate.
    + assert (existsb (String.eqb server) (irc_client.get_servers (_irc_client st)) = false)
        as Hn.
      { destruct (existsb _ _) eqn:Hx; [|reflexivity].
        apply in_get_servers in Hx as [client Hx]. congruence. }
      rewrite Hn, orb_true_r in Hg. discriminate.
  - intros _ _ _ _. split; [reflexivity|]. split; [reflexivity|]. split; [reflexivity|].
    split.
    + unfold chat_model_of. simpl. rewrite model_of_put_model. eauto.
    + intros Hact. exists out. unfold is_active_name. simpl. rewrite Hact. simpl.
      rewrite String.eqb_refl. reflexivity.
Qed.

Lemma X22_refresh_chat_witness :
  _updating watching = false /\ irc <> "" /\ "#general" <> ""
  /\ _last_update_time watching !! irc = Some 10000000
  /\ (refresh_chat irc "#general" 10000001 (fun _ => irc_client.not_readable)
        watching).1.2 = [irc].
Proof.
  assert (irc <> "") as Hs by discriminate.
  assert ("#general" <> "") as Hc by discriminate.
  assert (is_Some (irc_client.lookup_client irc
                     (irc_client.clients (_irc_client watching)))) as Hl
    by (simpl; eauto).
  pose proof (X22_refresh_chat irc "#general" 10000001
                (fun _ => irc_client.not_readable) watching) as (_ & _ & _ & H).
  destruct (H eq_refl Hs Hc Hl) as (_ & Hp & _).
  split; [reflexivity|]. split; [exact Hs|]. split; [exact Hc|].
  split; [reflexivity | exact Hp].
Defined.

(** X23. [getChatModel] hands out the chat's model under the
    controller's nickname, makes it when it is missing, and stores what
    it hands out: the model holds the chat's history, and each of its
    messages reads as the user's own exactly when its sender is the
    controller's nickname. The rows and the pointer are as before. *)
Theorem X23_getChatModel server channel now st :
  let r := getChatModel server channel now st in
  _own_nickname r.1 = _nickname st
  /\ _messages r.1 = history server channel (_chat_list_model st)
  /\ chat_model_of server channel (_chat_list_model r.2) = Some r.1
  /\ (forall row message, _messages r.1 !! row = Some message ->
        ChatModel_data (Some row) (UserRole + 6) r.1
        = Some (v_bool (sender message =? _nickname st)%string))
  /\ _chats (_chat_list_model r.2) = _chats (_chat_list_model st)
  /\ active_chat (_chat_list_model r.2) = active_chat (_chat_list_model st).
Proof.
  intros r. subst r. unfold getChatModel.
  pose proof (get_chat_model_fst server channel now (_chat_list_model st)) as Hf.
  pose proof (get_chat_model_chats server channel now (_chat_list_model st)) as Hc.
  pose proof (get_chat_model_active server channel now (_chat_list_model st)) as Ha.
  destruct (get_chat_model server channel now (_chat_list_model st)) as [chat_model clm].
  simpl in *.
  assert (_own_nickname (set_own_nickname (_nickname st) chat_model) = _nickname st) as Hn.
  { unfold set_own_nickname.
    destruct (_own_nickname chat_model =? _nickname st)%string eqn:He; simpl;
      [apply String.eqb_eq; exact He | reflexivity]. }
  split; [exact Hn|]. split; [|split; [|split; [|split; [exact Hc | exact Ha]]]].
  - rewrite set_own_nickname_messages, Hf. unfold history.
    destruct (chat_model_of server channel (_chat_list_model st)); reflexivity.
  - unfold chat_model_of. simpl. apply model_of_put_model.
  - intros row message Hm. unfold ChatModel_data. rewrite Hm. simpl. rewrite Hn.
    reflexivity.
Qed.

End controller_more_5.

(** ** The settings file *)

Section database_more.
Import database.


(** X25. A profile saved is the profile read: after [save_user_profile]
    has succeeded, [get_user_profile] gives the nickname saved, and the
    username and the real name saved, each replaced by the nickname when
    it was left out or empty; the random default is not used. The save
    reports success exactly when its three writes succeeded, and a write
    that succeeded stays even if a later one fails. *)
Theorem X25_user_profile_round_trip nickname' username' realname' fresh db :
  let r := save_user_profile nickname' username' realname' sql_ok sql_ok sql_ok db in
  r.1 = true
  /\ get_user_profile fresh sql_ok sql_ok sql_ok r.2
     = (nickname', or_nickname username' nickname', or_nickname realname' nickname')
  /\ (forall o1 o2 o3,
        (save_user_profile nickname' username' realname' o1 o2 o3 db).1 = true
        <-> o1 = sql_ok /\ o2 = sql_ok /\ o3 = sql_ok)
  /\ (forall o2 o3 d,
        get_user_setting "nickname" d sql_ok
          (save_user_profile nickname' username' realname' sql_ok o2 o3 db).2
        = Some nickname').
Proof.
  intros r. subst r. unfold save_user_profile, get_user_profile, save_user_setting,
    get_user_setting. simpl.
  split; [reflexivity|]. split; [|split].
  - rewrite lookup_insert_ne by discriminate. rewrite lookup_insert_ne by discriminate.
    rewrite lookup_insert_eq. simpl.
    rewrite lookup_insert_ne by discriminate. rewrite lookup_insert_eq. simpl.
    rewrite lookup_insert_eq. reflexivity.
  - intros [] [] []; simpl; split; try discriminate; try tauto;
      intros (H1 & H2 & H3); discriminate.
  - intros [] [] d; simpl;
      repeat (rewrite lookup_insert_ne by discriminate); rewrite lookup_insert_eq;
      reflexivity.
Qed.

End database_more.

(** ** The tables of servers and channels *)

Section tables.
Import database.

Lemma find_none_forall {A} (q : A -> bool) l :
  List.find q l = None <-> forall x, In x l -> q x = false.
Proof.
  induction l as [|a l IH]; simpl; [split; [intros _ x [] | reflexivity]|].
  destruct (q a) eqn:Ha.
  - split; [discriminate|]. intros H. rewrite (H a (or_introl eq_refl)) in Ha. discriminate.
  - rewrite IH. split; [intros H x [<-|Hx]; auto | intros H x Hx; apply H; right; exact Hx].
Qed.

Lemma find_some_in {A} (q : A -> bool) l x :
  List.find q l = Some x -> In x l /\ q x = true.
Proof. apply List.find_some. Qed.

Lemma map_map_keep {A B} (f : A -> B) (g : A -> A) l :
  (forall x, f (g x) = f x) -> map f (map g l) = map f l.
Proof.
  intros H. induction l as [|a l IH]; simpl; [reflexivity|]. rewrite H, IH. reflexivity.
Qed.

Lemma NoDup_map_filter {A B} (f : A -> B) (q : A -> bool) l :
  NoDup (map f l) -> NoDup (map f (List.filter q l)).
Proof.
  induction l as [|a l IH]; simpl; [auto|].
  intros Hnd. apply NoDup_cons in Hnd as [Hn Hnd].
  destruct (q a); simpl; [|auto].
  apply NoDup_cons. split; [|auto].
  intros Hin. apply Hn. apply list_elem_of_In in Hin. apply list_elem_of_In.
  apply in_map_iff in Hin as (x & Hx & Hin). apply List.filter_In in Hin as [Hin _].
  apply in_map_iff. eauto.
Qed.

Lemma NoDup_map_snoc {A B} (f : A -> B) l a :
  NoDup (map f l) -> (forall x, In x l -> f x <> f a) -> NoDup (map f (l ++ [a])).
Proof.
  intros Hnd Hne. rewrite map_app. simpl. apply NoDup_app.
  split; [exact Hnd|]. split; [|apply NoDup_singleton].
  intros y Hy [<-|[]]%list_elem_of_In.
  apply list_elem_of_In, in_map_iff in Hy as (x & Hx & Hin). exact (Hne x Hin Hx).
Qed.

Lemma save_server_schema name port' nick user real now outcome db :
  schema_ok db -> schema_ok (save_server name port' nick user real now outcome db).2.
Proof.
  intros (H1 & H2 & H3 & H4 & H5 & H6). unfold save_server.
  destruct outcome; [|repeat split; auto; apply H6; auto].
  destruct (select_server name db) as [result|] eqn:Hsel; simpl.
  - unfold schema_ok. simpl.
    rewrite !map_map_keep by (intros x; destruct (id x =? id result)%nat; reflexivity).
    split; [exact H1|]. split; [exact H2|]. split; [|auto].
    intros row (x & <- & Hx)%in_map_iff.
    destruct (id x =? id result)%nat; simpl; apply H3; exact Hx.
  - unfold schema_ok. simpl.
    unfold select_server in Hsel. rewrite find_none_forall in Hsel.
    split; [|split; [|split; [|split; [exact H4|split; [exact H5|]]]]].
    + apply NoDup_map_snoc; [exact H1|]. intros x Hx. simpl.
      apply String.eqb_neq. apply Hsel. exact Hx.
    + apply NoDup_map_snoc; [exact H2|]. intros x Hx. simpl. specialize (H3 x Hx). lia.
    + intros row [Hx|[<-|[]]]%in_app_iff; [specialize (H3 row Hx); lia | simpl; lia].
    + intros c Hc. destruct (H6 c Hc). split; lia.
Qed.

Lemma save_channel_schema name channel private join outcome db :
  schema_ok db -> schema_ok (save_channel name channel private join outcome db).2.
Proof.
  intros Hs. pose proof Hs as (H1 & H2 & H3 & H4 & H5 & H6). unfold save_channel.
  destruct outcome; [|exact Hs].
  destruct (select_server name db) as [server|] eqn:Hsel; [|exact Hs].
  apply find_some_in in Hsel as [Hin _].
  destruct (select_channel (id server) channel db) as [result|] eqn:Hc; simpl.
  - unfold schema_ok. simpl.
    rewrite !map_map_keep
      by (intros x; destruct (channel_id x =? channel_id result)%nat; reflexivity).
    split; [exact H1|]. split; [exact H2|]. split; [exact H3|].
    split; [exact H4|]. split; [exact H5|].
    intros c (x & <- & Hx)%in_map_iff.
    destruct (channel_id x =? channel_id result)%nat; simpl; apply H6; exact Hx.
  - unfold schema_ok. simpl.
    unfold select_channel in Hc. rewrite find_none_forall in Hc.
    split; [exact H1|]. split; [exact H2|]. split; [exact H3|]. split; [|split].
    + apply NoDup_map_snoc; [exact H4|]. intros x Hx. simpl. intros [= Hi Hn].
      specialize (Hc x Hx). rewrite Hi, Hn, Nat.eqb_refl, String.eqb_refl in Hc.
      discriminate.
    + apply NoDup_map_snoc; [exact H5|]. intros x Hx. simpl.
      destruct (H6 x Hx). lia.
    + intros c [Hx|[<-|[]]]%in_app_iff.
      * destruct (H6 c Hx). split; lia.
      * simpl. split; [lia | apply H3; exact Hin].
Qed.

Lemma delete_server_schema name foreign_keys outcome db :
  schema_ok db -> schema_ok (delete_server name foreign_keys outcome db).2.
Proof.
  intros Hs. pose proof Hs as (H1 & H2 & H3 & H4 & H5 & H6). unfold delete_server.
  destruct outcome; [|exact Hs]. unfold schema_ok. simpl.
  split; [apply NoDup_map_filter; exact H1|].
  split; [apply NoDup_map_filter; exact H2|].
  split; [intros row [Hin _]%List.filter_In; auto|].
  destruct foreign_keys.
  - split; [apply NoDup_map_filter; exact H4|].
    split; [apply NoDup_map_filter; exact H5|].
    intros c [Hin _]%List.filter_In. auto.
  - auto.
Qed.

Lemma delete_channel_schema name channel outcome db :
  schema_ok db -> schema_ok (delete_channel name channel outcome db).2.
Proof.
  intros Hs. pose proof Hs as (H1 & H2 & H3 & H4 & H5 & H6). unfold delete_channel.
  destruct outcome; [|exact Hs].
  destruct (select_server name db) as [server|]; [|exact Hs].
  unfold schema_ok. simpl.
  split; [exact H1|]. split; [exact H2|]. split; [exact H3|].
  split; [apply NoDup_map_filter; exact H4|].
  split; [apply NoDup_map_filter; exact H5|].
  intros c [Hin _]%List.filter_In. auto.
Qed.

Lemma apply_db_op_schema db op : schema_ok db -> schema_ok (apply_db_op db op).
Proof.
  intros Hs. destruct op; simpl.
  - apply save_server_schema. exact Hs.
  - apply save_channel_schema. exact Hs.
  - apply delete_server_schema. exact Hs.
  - apply delete_channel_schema. exact Hs.
  - unfold save_user_setting. destruct outcome; exact Hs.
Qed.

(** X26. Whatever is saved and deleted, in whatever order and with
    whatever failures, the tables keep what the schema demands: one row
    per server name, one row per channel name of a server, distinct ids
    handed out by the counters. The methods never try to insert a row
    the schema would refuse. *)
Theorem X26_schema_kept ops : schema_ok (fold_left apply_db_op ops new_DatabaseManager).
Proof.
  assert (forall db, schema_ok db -> schema_ok (fold_left apply_db_op ops db)) as H.
  { induction ops as [|op ops IH]; intros db Hs; [exact Hs|].
    apply IH, apply_db_op_schema, Hs. }
  apply H. unfold schema_ok. simpl.
  split; [apply NoDup_nil_2|]. split; [apply NoDup_nil_2|]. split; [intros ? []|].
  split; [apply NoDup_nil_2|]. split; [apply NoDup_nil_2 | intros ? []].
Qed.

End tables.

Section tables_2.
Import database.














End tables_2.

Section tables_3.
Import database.










End tables_3.

Section tables_4.
Import database.







End tables_4.
